(** * VK group data collection and analysis: a shallow embedding

    The development follows the three source files of the repository:
    - [VKParser]      embeds [vk_parser.py]      (API client, group lookup,
                      the date-filtered collection loop, comment collection);
    - [DataAnalyzer]  embeds [data_analyzer.py]  (keyword extraction and the
                      count of technical terms);
    - [WebInterface]  embeds [web_interface.py]  (the start request and the
                      worker that share the status record).

    Each module of the first part ends with the vocabulary in which the
    statements about it are written; the second part ([ParserFacts],
    [AnalyzerFacts], [WebFacts]) holds the lemmas and theorems.

    Conventions.  A Python [int] is a [Z].  The JSON dictionaries the parser
    reads are typed where they enter: a field the code reads with [.get] is
    an [option], [None] standing for an absent key.  A Python [str] holding
    protocol data (method names, group identifiers) is a [string]; a text
    that is analysed character by character is a list of code points.
    What Python takes from its Unicode database ([str.isdigit] in the
    parser, [str.isalnum] and [str.lower] in the analysis) is a parameter,
    and the general statements hold for every value of it.
    [print] and [time.sleep] have no effect on any value and are left out. *)

From Stdlib Require Import ZArith NArith List String Ascii Bool Lia.
From Stdlib Require Import DecimalString Sorted Permutation.
Import ListNotations.

Local Open Scope string_scope.
Local Open Scope list_scope.
Local Open Scope Z_scope.

(** ** Python primitives *)

Module Py.

(** [bool(x)] for [x] an [int] or [None]: zero and [None] are false. *)
Definition truthy (o : option Z) : bool :=
  match o with
  | Some z => negb (z =? 0)
  | None => false
  end.

(** [len(l)] as a Python integer. *)
Definition len {A : Type} (l : list A) : Z := Z.of_nat (List.length l).

(** [bool(l)] for a list: the empty list is false. *)
Definition nonempty {A : Type} (l : list A) : bool :=
  match l with
  | [] => false
  | _ :: _ => true
  end.

(** [d.get(key, default)] once the key has been read into an option. *)
Definition get_default {A : Type} (o : option A) (d : A) : A :=
  match o with
  | Some a => a
  | None => d
  end.

Definition is_ascii_digit (c : ascii) : bool :=
  let n := nat_of_ascii c in (48 <=? n)%nat && (n <=? 57)%nat.

Fixpoint all_digits (s : string) : bool :=
  match s with
  | EmptyString => true
  | String c rest => is_ascii_digit c && all_digits rest
  end.

(** [s.isdigit()] follows the Unicode database of the interpreter: a digit
    of any script counts (["²".isdigit()] is true).  The database is not
    fixed here: [isdigit] is a parameter of the development, and what is
    proved of the parser holds for every such table. *)
Class Digits : Type := { isdigit : string -> bool }.

(** [isdigit] on a string written in ASCII: not empty, and all of its
    characters among [0] to [9]. *)
Definition isdigit_ascii (s : string) : bool :=
  match s with
  | EmptyString => false
  | _ => all_digits s
  end.

(** [s.startswith(p)]. *)
Definition startswith (s p : string) : bool := String.prefix p s.

(** [s.lstrip('-')]: all leading hyphens removed. *)
Fixpoint lstrip_hyphen (s : string) : string :=
  match s with
  | String "-"%char rest => lstrip_hyphen rest
  | _ => s
  end.

(** [str(n)] for an integer. *)
Definition str_of_int (z : Z) : string := NilZero.string_of_int (Z.to_int z).

End Py.

(** ** [vk_parser.py] *)

Module VKParser.

(** *** Payloads *)

(** The value of a request parameter. *)
Inductive pval : Type :=
| PInt (z : Z)
| PStr (s : string).

Definition params : Type := list (string * pval).

(** [d.update(more)] on an insertion-ordered dictionary: a key already
    present keeps its place and takes the new value, a new key goes last. *)
Fixpoint dict_set (d : params) (k : string) (v : pval) : params :=
  match d with
  | [] => [(k, v)]
  | (k', v') :: rest =>
      if String.eqb k' k then (k', v) :: rest else (k', v') :: dict_set rest k v
  end.

Definition dict_update (d more : params) : params :=
  fold_left (fun acc kv => dict_set acc (fst kv) (snd kv)) more d.

(** The [comments] object of a post: [{"count": n}]. *)
Record comments_info : Type := { ci_count : option Z }.

(** A post of the wall as the parser reads it: [id], [date], [comments],
    and the text carried along for the analysis. *)
Record post : Type := {
  post_id : option Z;
  post_date : option Z;
  post_comments : option comments_info;
  post_text : list N
}.

(** A comment; [parent_post_id] is the key the parser writes. *)
Record comment : Type := {
  comment_id : option Z;
  parent_post_id : option Z;
  comment_text : list N
}.

(** An entry of the [groups.getById] response. *)
Record group : Type := {
  gi_id : option Z;
  gi_name : option string
}.

(** The [response] object of [wall.get] and of [wall.getComments]. *)
Record wall_response : Type := { wr_items : option (list post) }.
Record comments_response : Type := { cr_items : option (list comment) }.

(** The empty dictionary [{}] at each payload type. *)
Class Payload (A : Type) : Type := { empty_dict : A }.

#[export] Instance Payload_groups : Payload (list group) :=
  {| empty_dict := [] |}.
#[export] Instance Payload_group : Payload group :=
  {| empty_dict := {| gi_id := None; gi_name := None |} |}.
#[export] Instance Payload_wall : Payload wall_response :=
  {| empty_dict := {| wr_items := None |} |}.
#[export] Instance Payload_comments : Payload comments_response :=
  {| empty_dict := {| cr_items := None |} |}.

(** *** The remote side *)

(** The [error] object of a VK response. *)
Record api_error : Type := { error_code : Z; error_msg : string }.

(** What [session.get], [raise_for_status] and [response.json] give for one
    request: one of the two exceptions the client catches, or the decoded
    body with its optional [error] and [response] fields. *)
Inductive transport_failure : Type :=
| ConnectionFailed
| BadStatus (status : Z).

Inductive http_outcome (A : Type) : Type :=
| RequestException (cause : transport_failure)
| JSONDecodeError
| JsonBody (error : option api_error) (response : option A).

Arguments RequestException {A} cause.
Arguments JSONDecodeError {A}.
Arguments JsonBody {A} error response.

(** The server: for each method, the outcome of the [n]-th request of the
    session as a function of the parameters sent. *)
Record server : Type := {
  groups_getById : nat -> params -> http_outcome (list group);
  wall_get : nat -> params -> http_outcome wall_response;
  wall_getComments : nat -> params -> http_outcome comments_response
}.

(** One request as it leaves the client. *)
Record request : Type := { req_method : string; req_params : params }.

(** The state threaded through a run: how many requests the session has
    sent, and which. *)
Record world : Type := { clock : nat; sent : list request }.

Definition initial_world : world := {| clock := 0%nat; sent := [] |}.

(** *** State monad over [world] *)

Definition M (A : Type) : Type := world -> A * world.

Definition ret {A : Type} (a : A) : M A := fun w => (a, w).

Definition bind {A B : Type} (m : M A) (k : A -> M B) : M B :=
  fun w => let (a, w') := m w in k a w'.

Notation "x <- m ;; k" := (bind m (fun x => k))
  (at level 61, m at next level, right associativity).

(** *** The parser object *)

Record VKGroupParser : Type := {
  access_token : string;
  api_version : string;
  session : server
}.

Section Parser.

Context {T : Py.Digits}.

Variable self : VKGroupParser.

(** The credentials [_make_request] adds to every parameter dictionary. *)
Definition with_credentials (ps : params) : params :=
  dict_update ps [("access_token", PStr (access_token self));
                  ("v", PStr (api_version self))].

(** [_make_request]: the credentials are added to the parameters, the
    request is sent, and each of the three failure paths returns [{}]. *)
Definition _make_request {A : Type} `{Payload A}
    (endpoint : nat -> params -> http_outcome A)
    (method : string) (ps : params) : M A :=
  fun w =>
    let ps := with_credentials ps in
    let w' := {| clock := S (clock w);
                 sent := sent w ++ [{| req_method := method; req_params := ps |}] |} in
    match endpoint (clock w) ps with
    | JsonBody (Some _) _ => (empty_dict, w')
    | JsonBody None response => (Py.get_default response empty_dict, w')
    | RequestException _ => (empty_dict, w')
    | JSONDecodeError => (empty_dict, w')
    end.

(** The parameter dictionaries of the three methods. *)
Definition lookup_params (group_id : string) : params :=
  [("group_ids", PStr group_id);
   ("fields", PStr "members_count,description,status,activity,site,links")].

Definition wall_params (numeric : string) (count offset : Z) : params :=
  [("owner_id", PStr (String.append "-" numeric));
   ("count", PInt (Z.min count 100));
   ("offset", PInt offset);
   ("extended", PInt 1);
   ("filter", PStr "all")].

Definition comments_params (numeric : string) (pid count offset : Z) : params :=
  [("owner_id", PStr (String.append "-" numeric));
   ("post_id", PInt pid);
   ("count", PInt (Z.min count 100));
   ("offset", PInt offset);
   ("extended", PInt 1);
   ("sort", PStr "asc")].

(** [get_group_info]. *)
Definition get_group_info (group_id : string) : M group :=
  response <- _make_request (groups_getById (session self)) "groups.getById"
                (lookup_params group_id) ;;
  match response with
  | first :: _ => ret first
  | [] => ret empty_dict
  end.

(** The first lines of [get_wall_posts] and [get_post_comments]: the test
    [not group_id.isdigit() and not group_id.startswith('-')], then the
    numeric identifier, or [None] where the source returns [[]]. *)
Definition needs_lookup (group_id : string) : bool :=
  negb (Py.isdigit group_id) && negb (Py.startswith group_id "-").

Definition numeric_group_id (group_id : string) : M (option string) :=
  if needs_lookup group_id then
    info <- get_group_info group_id ;;
    match gi_id info with
    | Some id => ret (Some (Py.str_of_int id))
    | None => ret None
    end
  else ret (Some (Py.lstrip_hyphen group_id)).

(** [get_wall_posts]. *)
Definition get_wall_posts (group_id : string) (count offset : Z) : M (list post) :=
  numeric <- numeric_group_id group_id ;;
  match numeric with
  | None => ret []
  | Some numeric =>
      response <- _make_request (wall_get (session self)) "wall.get"
                    (wall_params numeric count offset) ;;
      ret (Py.get_default (wr_items response) [])
  end.

(** [get_post_comments]. *)
Definition get_post_comments (group_id : string) (pid : Z) (count offset : Z)
    : M (list comment) :=
  numeric <- numeric_group_id group_id ;;
  match numeric with
  | None => ret []
  | Some numeric =>
      response <- _make_request (wall_getComments (session self)) "wall.getComments"
                    (comments_params numeric pid count offset) ;;
      ret (Py.get_default (cr_items response) [])
  end.

(** Whether an outcome takes one of the failure paths of [_make_request]:
    an exception of the transport, a body that is not JSON, or a body with
    an [error] field. *)
Definition failed {A : Type} (o : http_outcome A) : bool :=
  match o with
  | JsonBody None _ => false
  | _ => true
  end.

(** Whether the API client fails during the call
    [get_wall_posts group_id count offset] made in world [w]: the lookup it
    starts with fails, or the [wall.get] request it then sends does. *)
Definition feed_fetch_failed (group_id : string) (count offset : Z) (w : world) : bool :=
  (needs_lookup group_id
   && failed (groups_getById (session self) (clock w)
                (with_credentials (lookup_params group_id))))
  || (let (numeric, w1) := numeric_group_id group_id w in
      match numeric with
      | Some numeric =>
          failed (wall_get (session self) (clock w1)
                    (with_credentials (wall_params numeric count offset)))
      | None => false
      end).

(** *** [parse_group_data] *)

(** The variables of the [while] loop. *)
Record loop_state : Type := {
  all_posts : list post;
  posts_collected : Z;
  offset : Z;
  posts_in_period : Z
}.

(** The [filter_period] entry and the dictionary the run returns
    ([collection_timestamp], a wall-clock reading, is left out). *)
Record filter_period_info : Type := {
  fp_start_date : option Z;
  fp_end_date : option Z;
  fp_posts_in_period : Z
}.

Record collection_result : Type := {
  group_info : group;
  posts : list post;
  comments : list comment;
  total_posts : Z;
  total_comments : Z;
  filter_period : filter_period_info
}.

(** [post.get('comments', {}).get('count', 0)]. *)
Definition comments_count (p : post) : Z :=
  match post_comments p with
  | Some c => Py.get_default (ci_count c) 0
  | None => 0
  end.

(** [comment['parent_post_id'] = post_id]. *)
Definition set_parent (pid : Z) (c : comment) : comment :=
  {| comment_id := comment_id c;
     parent_post_id := Some pid;
     comment_text := comment_text c |}.

Section Collect.

Variable group_id : string.
Variable max_posts : Z.
Variable start_timestamp end_timestamp : option Z.

(** The body of [for post in posts]: the first test leaves the [for] loop
    ([break]), the second goes to the next post ([continue]), the last two
    append the post and count it. *)
Fixpoint scan_batch (batch : list post) (filtered_posts : list post)
    (in_period : Z) : list post * Z :=
  match batch with
  | [] => (filtered_posts, in_period)
  | p :: rest =>
      let date := Py.get_default (post_date p) 0 in
      if Py.truthy start_timestamp && (date <? Py.get_default start_timestamp 0) then
        (filtered_posts, in_period)
      else if Py.truthy end_timestamp && (date >? Py.get_default end_timestamp 0) then
        scan_batch rest filtered_posts in_period
      else if Py.truthy start_timestamp && (date >=? Py.get_default start_timestamp 0) then
        scan_batch rest (filtered_posts ++ [p]) (in_period + 1)
      else if negb (Py.truthy start_timestamp) then
        scan_batch rest (filtered_posts ++ [p]) (in_period + 1)
      else
        scan_batch rest filtered_posts in_period
  end.

(** How one turn of the [while] loop ends: at the bottom of the body, or at
    one of its two [break]s. *)
Inductive turn_result : Type :=
| Continue (st : loop_state)
| Break (st : loop_state).

(** The body of [while posts_collected < max_posts]. *)
Definition loop_turn (st : loop_state) : M turn_result :=
  let batch_size := Z.min 100 (max_posts - posts_collected st) in
  batch <- get_wall_posts group_id batch_size (offset st) ;;
  if negb (Py.nonempty batch) then ret (Break st)
  else
    let (filtered_posts, in_period) := scan_batch batch [] (posts_in_period st) in
    if negb (Py.nonempty filtered_posts) && Py.truthy start_timestamp then
      ret (Break {| all_posts := all_posts st;
                    posts_collected := posts_collected st;
                    offset := offset st;
                    posts_in_period := in_period |})
    else
      ret (Continue {| all_posts := all_posts st ++ filtered_posts;
                       posts_collected := posts_collected st + Py.len batch;
                       offset := offset st + Py.len batch;
                       posts_in_period := in_period |}).

(** The [while] loop.  A turn that reaches the bottom of the body has added
    at least one to [posts_collected]; [fuel] bounds the number of turns and
    [None] reports that it ran out. *)
Fixpoint collect_loop (fuel : nat) (st : loop_state) : M (option loop_state) :=
  if posts_collected st <? max_posts then
    match fuel with
    | O => ret None
    | S fuel' =>
        r <- loop_turn st ;;
        match r with
        | Continue st' => collect_loop fuel' st'
        | Break st' => ret (Some st')
        end
    end
  else ret (Some st).

(** [reaches (st, w) (st', w')]: from the top of the loop in state [st] and
    world [w], some number of complete turns leads to its top again in
    state [st'] and world [w']. *)
Inductive reaches : loop_state * world -> loop_state * world -> Prop :=
| reaches_here : forall x, reaches x x
| reaches_turn : forall st w st1 w1 y,
    posts_collected st < max_posts ->
    loop_turn st w = (Continue st1, w1) ->
    reaches (st1, w1) y ->
    reaches (st, w) y.

(** The [for i, post in enumerate(all_posts)] loop over the retained posts:
    one call of [get_post_comments] with its default [count] and [offset]
    for each post with a truthy [id] and a positive comment count. *)
Fixpoint collect_comments (retained : list post) (all_comments : list comment)
    : M (list comment) :=
  match retained with
  | [] => ret all_comments
  | p :: rest =>
      match post_id p with
      | Some pid =>
          if negb (pid =? 0) && (comments_count p >? 0) then
            fetched <- get_post_comments group_id pid 100 0 ;;
            collect_comments rest (all_comments ++ map (set_parent pid) fetched)
          else collect_comments rest all_comments
      | None => collect_comments rest all_comments
      end
  end.

Definition initial_state : loop_state :=
  {| all_posts := []; posts_collected := 0; offset := 0; posts_in_period := 0 |}.

(** [parse_group_data], with the two dates already converted to their
    timestamps ([None] for a date that is not given). *)
Definition parse_group_data (include_comments : bool) : M (option collection_result) :=
  info <- get_group_info group_id ;;
  final <- collect_loop (Z.to_nat max_posts) initial_state ;;
  match final with
  | None => ret None
  | Some st =>
      all_comments <- (if include_comments then collect_comments (all_posts st) []
                       else ret []) ;;
      ret (Some {| group_info := info;
                   posts := all_posts st;
                   comments := all_comments;
                   total_posts := Py.len (all_posts st);
                   total_comments := Py.len all_comments;
                   filter_period :=
                     {| fp_start_date := start_timestamp;
                        fp_end_date := end_timestamp;
                        fp_posts_in_period := posts_in_period st |} |})
  end.

End Collect.

End Parser.

(** *** Servers used in the examples *)

Fixpoint dict_get (d : params) (k : string) : option pval :=
  match d with
  | [] => None
  | (k', v) :: rest => if String.eqb k' k then Some v else dict_get rest k
  end.

Definition int_param (d : params) (k : string) : Z :=
  match dict_get d k with
  | Some (PInt z) => z
  | _ => 0
  end.

(** [items[offset : offset + count]]. *)
Definition page {A : Type} (items : list A) (ps : params) : list A :=
  firstn (Z.to_nat (int_param ps "count")) (skipn (Z.to_nat (int_param ps "offset")) items).

(** A server that knows one group, serves a fixed wall in pages and a fixed
    list of comments for each post. *)
Definition wall_server (gid : Z) (wall : list post) (threads : Z -> list comment) : server :=
  {| groups_getById := fun _ _ =>
       JsonBody None (Some [{| gi_id := Some gid; gi_name := Some "group" |}]);
     wall_get := fun _ ps =>
       JsonBody None (Some {| wr_items := Some (page wall ps) |});
     wall_getComments := fun _ ps =>
       JsonBody None (Some {| cr_items := Some (page (threads (int_param ps "post_id")) ps) |}) |}.

Definition parser_for (srv : server) : VKGroupParser :=
  {| access_token := "token"; api_version := "5.131"; session := srv |}.

Definition dated_post (id date : Z) : post :=
  {| post_id := Some id; post_date := Some date;
     post_comments := None; post_text := [] |}.

Definition no_threads : Z -> list comment := fun _ => [].

(** A wall of 101 posts, newest first except for the last one: 99 posts
    dated 150, one dated 50, then one dated 120. *)
Definition wall_with_late_entry : list post :=
  repeat (dated_post 1 150) 99 ++ [dated_post 2 50; dated_post 3 120].

(** A server whose third request of the session, and every later one, finds
    the connection down. *)
Definition flaky_server (wall : list post) : server :=
  {| groups_getById := fun _ _ =>
       JsonBody None (Some [{| gi_id := Some 123; gi_name := Some "group" |}]);
     wall_get := fun n ps =>
       if (n <? 2)%nat then JsonBody None (Some {| wr_items := Some (page wall ps) |})
       else RequestException ConnectionFailed;
     wall_getComments := fun _ _ => RequestException ConnectionFailed |}.

(** A post that reports [n] comments, and a server-side thread of 150
    comments under post 7. *)
Definition commented_post (id date n : Z) : post :=
  {| post_id := Some id; post_date := Some date;
     post_comments := Some {| ci_count := Some n |}; post_text := [] |}.

Definition long_thread (pid : Z) : list comment :=
  if pid =? 7 then
    map (fun i => {| comment_id := Some (Z.of_nat i); parent_post_id := None;
                     comment_text := [] |}) (seq 0 150)
  else [].

(** Three answers to a feed request: the connection is down, the provider
    refuses the token, the body has neither [error] nor [response]. *)
Definition connection_down : nat -> params -> http_outcome wall_response :=
  fun _ _ => RequestException ConnectionFailed.

Definition token_refused : nat -> params -> http_outcome wall_response :=
  fun _ _ => JsonBody (Some {| error_code := 5; error_msg := "User authorization failed" |})
                      None.

Definition empty_body : nat -> params -> http_outcome wall_response :=
  fun _ _ => JsonBody None None.

(** The number of requests of one method in a list of requests. *)
Definition count_method (method : string) (l : list request) : nat :=
  List.length (filter (fun rq => String.eqb (req_method rq) method) l).

(** *** Vocabulary of the statements about a run *)

Section Vocabulary.

Context {T : Py.Digits}.

Variable self : VKGroupParser.
Variable group_id : string.
Variable max_posts : Z.
Variable start_timestamp end_timestamp : option Z.

(** The posts one batch contributes. *)
Definition kept (batch : list post) : list post :=
  fst (scan_batch start_timestamp end_timestamp batch [] 0).

(** A post passes the date test of the loop: not before a truthy lower
    bound and not after a truthy upper bound. *)
Definition in_window (p : post) : Prop :=
  (Py.truthy start_timestamp = true ->
     Py.get_default start_timestamp 0 <= Py.get_default (post_date p) 0) /\
  (Py.truthy end_timestamp = true ->
     Py.get_default (post_date p) 0 <= Py.get_default end_timestamp 0).

(** The state at the bottom of a turn that fetched [batch]. *)
Definition advance (st : loop_state) (batch : list post) : loop_state :=
  {| all_posts := all_posts st ++ kept batch;
     posts_collected := posts_collected st + Py.len batch;
     offset := offset st + Py.len batch;
     posts_in_period := posts_in_period st + Py.len (kept batch) |}.

(** Fuel that covers what is left of the budget. *)
Definition adequate (fuel : nat) (st : loop_state) : Prop :=
  (Z.to_nat (max_posts - posts_collected st) <= fuel)%nat.

(** The state the loop ends in counts what it retained, and retained only
    posts that pass the date test. *)
Definition state_ok (st : loop_state) : Prop :=
  posts_in_period st = Py.len (all_posts st) /\
  Forall in_window (all_posts st).

(** A request as [_make_request] sends it. *)
Definition request_of (method : string) (ps : params) : request :=
  {| req_method := method; req_params := with_credentials self ps |}.

Definition lookups (d : list request) : nat := count_method "groups.getById" d.
Definition feeds (d : list request) : nat := count_method "wall.get" d.
Definition threads (d : list request) : nat := count_method "wall.getComments" d.

(** The requests a call of [get_wall_posts] or [get_post_comments] starts
    with: a lookup, unless the identifier is numeric. *)
Definition lookup_delta : list request :=
  if needs_lookup group_id then [request_of "groups.getById" (lookup_params group_id)]
  else [].

(** Lookups against feed and comment requests in a stretch of requests:
    without a numeric identifier every feed or comment request has a lookup
    of its own; with one there is no lookup. *)
Definition balanced (d : list request) : Prop :=
  if needs_lookup group_id then (feeds d + threads d <= lookups d)%nat
  else lookups d = 0%nat.

(** The test of the comment loop: a truthy [id] and a positive count. *)
Definition eligible (p : post) : bool :=
  match post_id p with
  | Some pid => negb (pid =? 0) && (comments_count p >? 0)
  | None => false
  end.

(** A comment carries the identifier of an eligible post of [retained]. *)
Definition tagged_by (retained : list post) (c : comment) : Prop :=
  exists p pid,
    In p retained /\ post_id p = Some pid /\ pid <> 0 /\
    0 < comments_count p /\ parent_post_id c = Some pid.

(** A comment request, if [rq] is one, is the request for the first hundred
    comments of an eligible post of [retained]. *)
Definition asks_for (retained : list post) (rq : request) : Prop :=
  req_method rq = "wall.getComments" ->
  exists p pid numeric,
    In p retained /\ post_id p = Some pid /\ pid <> 0 /\
    0 < comments_count p /\
    rq = request_of "wall.getComments" (comments_params numeric pid 100 0).

(** The comments an answer to a comment request carries: its [items], and
    none when the request failed or the body has no [response]. *)
Definition served (o : http_outcome comments_response) : list comment :=
  match o with
  | JsonBody None (Some response) => Py.get_default (cr_items response) []
  | _ => []
  end.

(** What the requests [d], sent as the [n]-th request of the session and
    the ones after it, bring back as comments: for each comment request in
    turn, the comments the server's answer to it carries, each with the
    [post_id] of that request as its [parent_post_id]. *)
Fixpoint answers (n : nat) (d : list request) : list comment :=
  match d with
  | [] => []
  | rq :: rest =>
      (if String.eqb (req_method rq) "wall.getComments"
       then map (set_parent (int_param (req_params rq) "post_id"))
                (served (wall_getComments (session self) n (req_params rq)))
       else [])
      ++ answers (S n) rest
  end.

(** The requests of the one call [get_post_comments(group_id, post_id)]
    made for the post [p]: the lookup, where one is needed, and after it at
    most one comment request, which asks for the first hundred comments of
    [p]. *)
Definition fetch_of (p : post) (chunk : list request) : Prop :=
  exists pid,
    post_id p = Some pid /\
    (chunk = lookup_delta \/
     exists numeric,
       chunk = lookup_delta
               ++ [request_of "wall.getComments" (comments_params numeric pid 100 0)]).

End Vocabulary.

(** The examples are runs on identifiers written in ASCII; they take
    [isdigit] from the table restricted to ASCII. *)
#[export] Instance ascii_digits : Py.Digits := {| Py.isdigit := Py.isdigit_ascii |}.

End VKParser.


(** ** [data_analyzer.py] *)

Module DataAnalyzer.

(** A Python [str] under analysis: its code points. *)
Definition text : Type := list N.

(** String literals of this file are UTF-8; [u] gives their code points. *)
Fixpoint utf8_decode (bytes : list N) : text :=
  match bytes with
  | [] => []
  | b0 :: rest =>
      if (b0 <? 128)%N then b0 :: utf8_decode rest
      else
        match rest with
        | [] => []
        | b1 :: rest1 =>
            if (b0 <? 224)%N then
              ((b0 mod 32) * 64 + b1 mod 64)%N :: utf8_decode rest1
            else
              match rest1 with
              | [] => []
              | b2 :: rest2 =>
                  if (b0 <? 240)%N then
                    (((b0 mod 16) * 64 + b1 mod 64) * 64 + b2 mod 64)%N
                      :: utf8_decode rest2
                  else
                    match rest2 with
                    | [] => []
                    | b3 :: rest3 =>
                        ((((b0 mod 8) * 64 + b1 mod 64) * 64 + b2 mod 64) * 64
                         + b3 mod 64)%N :: utf8_decode rest3
                    end
              end
        end
  end.

Definition u (s : string) : text :=
  utf8_decode (map N_of_ascii (list_ascii_of_string s)).

(** The code point of a one-character literal. *)
Definition cp (s : string) : N := hd 0%N (u s).

Fixpoint text_eqb (a b : text) : bool :=
  match a, b with
  | [], [] => true
  | x :: a', y :: b' => N.eqb x y && text_eqb a' b'
  | _, _ => false
  end.

(** [w in words]. *)
Definition mem (w : text) (words : list text) : bool := existsb (text_eqb w) words.

(** [sep.join(parts)]. *)
Fixpoint join (sep : text) (parts : list text) : text :=
  match parts with
  | [] => []
  | [x] => x
  | x :: rest => x ++ sep ++ join sep rest
  end.

(** *** The Unicode database *)

(** The two tables of the interpreter the analysis depends on:
    [str.isalnum] on a character and [str.lower] on a string. *)
Record unicode : Type := {
  isalnum : N -> bool;
  lower : text -> text
}.

Definition in_range (lo hi c : N) : bool := ((lo <=? c) && (c <=? hi))%N.

Definition one_of (chars : text) (c : N) : bool := existsb (N.eqb c) chars.

(** The tables on Basic Latin and on the Cyrillic letters, the two
    alphabets of the source; other code points are taken as caseless and
    not alphanumeric.  Used for the examples. *)
Definition latin_cyrillic : unicode :=
  {| isalnum := fun c =>
       in_range (cp "0") (cp "9") c || in_range (cp "a") (cp "z") c
       || in_range (cp "A") (cp "Z") c || in_range 1024 1153 c;
     lower := map (fun c =>
       if in_range (cp "A") (cp "Z") c then (c + 32)%N
       else if in_range (cp "А") (cp "Я") c then (c + 32)%N
       else if in_range 1024 1039 c then (c + 80)%N
       else c) |}.

(** *** Regular expressions of [re] *)

Inductive regex : Type :=
| Eps
| Chr (c : N)
| Cls (f : N -> bool)
| Seq (r1 r2 : regex)
| Alt (r1 r2 : regex)
| Opt (r : regex)
| Plus (r : regex)
| WordBoundary.

(** The pattern of a literal string, as [re.escape] makes it. *)
Fixpoint literal (t : text) : regex :=
  match t with
  | [] => Eps
  | c :: t' => Seq (Chr c) (literal t')
  end.

Section Analyzer.

Variable U : unicode.

(** [\w]: alphanumeric or the underscore. *)
Definition is_word (c : N) : bool := isalnum U c || N.eqb c (cp "_").

Definition word_before (prev : option N) : bool :=
  match prev with
  | Some c => is_word c
  | None => false
  end.

Definition word_next (s : text) : bool :=
  match s with
  | c :: _ => is_word c
  | [] => false
  end.

(** [\b] between the character before the position and the rest. *)
Definition boundary (prev : option N) (s : text) : bool :=
  xorb (word_before prev) (word_next s).

(** The backtracking matcher.  [prev] is the character before the position,
    [s] the text from the position on, and [k] what is tried on the rest
    after the pattern has matched; alternatives are tried left to right and
    the repetitions are greedy. *)
Fixpoint rmatch (r : regex) (prev : option N) (s : text)
    (k : option N -> text -> option text) {struct r} : option text :=
  match r with
  | Eps => k prev s
  | Chr c =>
      match s with
      | x :: s' => if N.eqb x c then k (Some x) s' else None
      | [] => None
      end
  | Cls f =>
      match s with
      | x :: s' => if f x then k (Some x) s' else None
      | [] => None
      end
  | Seq r1 r2 => rmatch r1 prev s (fun p' s' => rmatch r2 p' s' k)
  | Alt r1 r2 =>
      match rmatch r1 prev s k with
      | Some rest => Some rest
      | None => rmatch r2 prev s k
      end
  | Opt r1 =>
      match rmatch r1 prev s k with
      | Some rest => Some rest
      | None => k prev s
      end
  | Plus r1 =>
      (fix again (n : nat) (prev : option N) (s : text) {struct n} : option text :=
         rmatch r1 prev s (fun p' s' =>
           match n with
           | S n' =>
               if (List.length s' <? List.length s)%nat then
                 match again n' p' s' with
                 | Some rest => Some rest
                 | None => k p' s'
                 end
               else k p' s'
           | O => k p' s'
           end)) (List.length s) prev s
  | WordBoundary => if boundary prev s then k prev s else None
  end.

(** The length of the match of [r] at the position, if there is one. *)
Definition match_length (r : regex) (prev : option N) (s : text) : option nat :=
  match rmatch r prev s (fun _ rest => Some rest) with
  | Some rest => Some (List.length s - List.length rest)%nat
  | None => None
  end.

(** [re.findall(r, s)] for a pattern without groups: the matches from left
    to right, none starting inside the one before.  [skip] counts the
    characters still covered by the last match.  No pattern of this file
    matches the empty string; an empty match is passed over. *)
Fixpoint findall_from (r : regex) (skip : nat) (prev : option N) (s : text)
    : list text :=
  match s with
  | [] => []
  | x :: s' =>
      match skip with
      | S skip' => findall_from r skip' (Some x) s'
      | O =>
          match match_length r prev s with
          | Some (S m) => firstn (S m) s :: findall_from r m (Some x) s'
          | _ => findall_from r 0 (Some x) s'
          end
      end
  end.

Definition findall (r : regex) (s : text) : list text := findall_from r 0 None s.

(** [re.sub(r, '', s)]: the text with every match removed. *)
Fixpoint remove_from (r : regex) (skip : nat) (prev : option N) (s : text) : text :=
  match s with
  | [] => []
  | x :: s' =>
      match skip with
      | S skip' => remove_from r skip' (Some x) s'
      | O =>
          match match_length r prev s with
          | Some (S m) => remove_from r m (Some x) s'
          | _ => x :: remove_from r 0 (Some x) s'
          end
      end
  end.

Definition sub_empty (r : regex) (s : text) : text := remove_from r 0 None s.

(** *** The patterns of the source *)

Definition hex_digit (c : N) : bool :=
  in_range (cp "0") (cp "9") c || in_range (cp "a") (cp "f") c
  || in_range (cp "A") (cp "F") c.

(** [http[s]?://(?:[a-zA-Z]|[0-9]|[$-_@.&+]|[!*\\(\\),]|(?:%[0-9a-fA-F][0-9a-fA-F]))+] *)
Definition url_pattern : regex :=
  Seq (literal (u "http"))
   (Seq (Opt (Cls (one_of (u "s"))))
    (Seq (literal (u "://"))
     (Plus
       (Alt (Cls (fun c => in_range (cp "a") (cp "z") c || in_range (cp "A") (cp "Z") c))
        (Alt (Cls (in_range (cp "0") (cp "9")))
         (Alt (Cls (fun c => in_range (cp "$") (cp "_") c || one_of (u "@.&+") c))
          (Alt (Cls (one_of (u "!*\(\),")))
               (Seq (Chr (cp "%")) (Seq (Cls hex_digit) (Cls hex_digit)))))))))).

(** [@\w+] and [#\w+]. *)
Definition mention_pattern : regex := Seq (Chr (cp "@")) (Plus (Cls is_word)).
Definition hashtag_pattern : regex := Seq (Chr (cp "#")) (Plus (Cls is_word)).

(** [[а-яёА-ЯЁa-zA-Z]+]. *)
Definition letter (c : N) : bool :=
  in_range (cp "а") (cp "я") c || N.eqb c (cp "ё")
  || in_range (cp "А") (cp "Я") c || N.eqb c (cp "Ё")
  || in_range (cp "a") (cp "z") c || in_range (cp "A") (cp "Z") c.

Definition word_pattern : regex := Plus (Cls letter).

(** [r'\b' + re.escape(term) + r'\b']. *)
Definition term_pattern (term : text) : regex :=
  Seq WordBoundary (Seq (literal term) WordBoundary).

(** *** [Counter] and [most_common] *)

(** [c[w] += 1] on an insertion-ordered dictionary. *)
Fixpoint counter_add (c : list (text * Z)) (w : text) : list (text * Z) :=
  match c with
  | [] => [(w, 1)]
  | (k, n) :: rest =>
      if text_eqb k w then (k, n + 1) :: rest else (k, n) :: counter_add rest w
  end.

Definition Counter (words : list text) : list (text * Z) :=
  fold_left counter_add words [].

(** [sorted(items, key=itemgetter(1), reverse=True)]: descending by count,
    items of equal count in their original order. *)
Fixpoint insert_desc (x : text * Z) (l : list (text * Z)) : list (text * Z) :=
  match l with
  | [] => [x]
  | y :: l' => if snd y <=? snd x then x :: y :: l' else y :: insert_desc x l'
  end.

Definition sorted_desc (l : list (text * Z)) : list (text * Z) :=
  fold_right insert_desc [] l.

(** [most_common(n)], that is [heapq.nlargest(n, items, key=itemgetter(1))],
    which the library defines as the first [n] items of the list sorted as
    above (none for [n <= 0]). *)
Definition most_common (c : list (text * Z)) (n : Z) : list (text * Z) :=
  firstn (Z.to_nat n) (sorted_desc c).

(** *** [extract_keywords] *)

Definition stop_words : list text :=
  map u
    ["это"; "что"; "как"; "для"; "или"; "при"; "все"; "так"; "уже"; "еще"; "где"; "кто";
     "его"; "она"; "они"; "мне"; "нас"; "вас"; "них"; "тут"; "там"; "тоже"; "если";
     "чтобы"; "когда"; "после"; "перед"; "между"; "через"; "под"; "над"; "без"; "про";
     "the"; "and"; "for"; "are"; "but"; "not"; "you"; "all"; "can"; "had"; "her"; "was";
     "one"; "our"; "out"; "day"; "get"; "has"; "him"; "his"; "how"; "man"; "new"; "now";
     "old"; "see"; "two"; "way"; "who"; "boy"; "did"; "its"; "let"; "put"; "say"; "she";
     "too"; "use"].

(** [series.fillna('').astype(str)]: a missing text is the empty string. *)
Definition fillna (series : list (option text)) : list text :=
  map (fun o => match o with Some t => t | None => [] end) series.

(** The tokens of the series: URLs, mentions and hashtags removed, the rest
    lowered and cut into runs of letters. *)
Definition tokens (text_series : list (option text)) : list text :=
  let all_text := join (u " ") (fillna text_series) in
  let cleaned := sub_empty url_pattern all_text in
  let cleaned := sub_empty mention_pattern cleaned in
  let cleaned := sub_empty hashtag_pattern cleaned in
  findall word_pattern (lower U cleaned).

Definition keep_word (min_length : Z) (word : text) : bool :=
  (Py.len word >=? min_length) && negb (mem word stop_words).

Definition extract_keywords (text_series : list (option text))
    (min_length top_n : Z) : list (text * Z) :=
  let words := tokens text_series in
  let filtered_words := filter (keep_word min_length) words in
  let word_counts := Counter filtered_words in
  most_common word_counts top_n.

(** *** [analyze_popular_topics] *)

(** A row of either frame, by the one column the topics read. *)
Record row : Type := { row_text : option text }.

(** A frame made by [pd.DataFrame(records)]: its rows; made from no record
    it has no column at all. *)
Definition DataFrame : Type := list row.

Inductive exception : Type :=
| KeyError (key : string).

Inductive py_result (A : Type) : Type :=
| Returns (a : A)
| Raises (e : exception).

Arguments Returns {A} a.
Arguments Raises {A} e.

Definition and_then {A B : Type} (m : py_result A) (k : A -> py_result B)
    : py_result B :=
  match m with
  | Returns a => k a
  | Raises e => Raises e
  end.

(** [df['text']]. *)
Definition column_text (df : DataFrame) : py_result (list (option text)) :=
  match df with
  | [] => Raises (KeyError "text")
  | _ => Returns (map row_text df)
  end.

(** [df.empty]. *)
Definition empty (df : DataFrame) : bool :=
  match df with
  | [] => true
  | _ => false
  end.

Record VKDataAnalyzer : Type := {
  posts_df : DataFrame;
  comments_df : DataFrame
}.

Definition tech_terms : list text :=
  map u
    ["scada"; "plc"; "асу"; "тп"; "кипиа"; "контроллер"; "датчик"; "привод"; "модуль";
     "siemens"; "schneider"; "abb"; "omron"; "mitsubishi"; "allen"; "bradley";
     "wincc"; "tia"; "portal"; "step"; "codesys"; "unity"; "vijeo"; "citect";
     "modbus"; "profibus"; "profinet"; "ethernet"; "rs485"; "can"; "hart";
     "hmi"; "панель"; "оператор"; "визуализация"; "мнемосхема"; "тренд";
     "аварийный"; "сигнализация"; "блокировка"; "защита"; "автоматика"].

(** [tech_mentions[term] = count]. *)
Fixpoint mentions_set (d : list (text * Z)) (term : text) (count : Z)
    : list (text * Z) :=
  match d with
  | [] => [(term, count)]
  | (k, n) :: rest =>
      if text_eqb k term then (k, count) :: rest
      else (k, n) :: mentions_set rest term count
  end.

(** [len(re.findall(r'\b' + re.escape(term) + r'\b', all_text))]. *)
Definition count_mentions (term all_text : text) : Z :=
  Py.len (findall (term_pattern term) all_text).

(** The [for term in tech_terms] loop. *)
Definition tech_mentions_of (terms : list text) (all_text : text) : list (text * Z) :=
  fold_left
    (fun tech_mentions term =>
       let count := count_mentions term all_text in
       if count >? 0 then mentions_set tech_mentions term count else tech_mentions)
    terms [].

Record topics : Type := {
  post_keywords : list (text * Z);
  comment_keywords : list (text * Z);
  tech_terms_mentions : list (text * Z)
}.

Definition analyze_popular_topics (self : VKDataAnalyzer) : py_result topics :=
  and_then
    (if negb (empty (posts_df self)) then
       and_then (column_text (posts_df self))
         (fun series => Returns (extract_keywords series 3 50))
     else Returns [])
    (fun post_kw =>
  and_then
    (if negb (empty (comments_df self)) then
       and_then (column_text (comments_df self))
         (fun series => Returns (extract_keywords series 3 50))
     else Returns [])
    (fun comment_kw =>
  and_then (column_text (posts_df self)) (fun posts_text =>
  and_then (column_text (comments_df self)) (fun comments_text =>
    let all_text := join (u " ") (fillna posts_text) ++ u " "
                    ++ join (u " ") (fillna comments_text) in
    let all_text := lower U all_text in
    let tech_mentions := tech_mentions_of tech_terms all_text in
    Returns {| post_keywords := firstn 20 post_kw;
               comment_keywords := firstn 20 comment_kw;
               tech_terms_mentions := firstn 20 (sorted_desc tech_mentions) |})))).

End Analyzer.

Arguments Returns {A} a.
Arguments Raises {A} e.

(** The frames [_prepare_posts_dataframe] and [_prepare_comments_dataframe]
    make from the loaded data, by the [text] column. *)
Definition frame_of (texts : list (option text)) : DataFrame :=
  map (fun t => {| row_text := t |}) texts.

(** *** Vocabulary of the statements about the analysis *)

(** How many times [w] occurs in [words]. *)
Definition occurrences (w : text) (words : list text) : Z :=
  Py.len (filter (text_eqb w) words).

(** The position at which [w] is first met in [words] (their number when it
    is not met). *)
Fixpoint first_index (w : text) (words : list text) : nat :=
  match words with
  | [] => 0
  | x :: rest => if text_eqb x w then 0 else S (first_index w rest)
  end.

(** The ranking of the result: a higher count first, and among equal counts
    the word met first. *)
Definition ranked_before (words : list text) (x y : text * Z) : Prop :=
  snd y < snd x \/
  (snd x = snd y /\ (first_index (fst x) words < first_index (fst y) words)%nat).

(** What holds of [Counter words]: its keys are the words, each once and in
    the order of first encounter, each with its number of occurrences. *)
Record counted (words : list text) (c : list (text * Z)) : Prop := {
  counted_keys : forall k, In k (map fst c) <-> In k words;
  counted_nodup : NoDup (map fst c);
  counted_value : forall k n, In (k, n) c -> n = occurrences k words;
  counted_order :
    StronglySorted
      (fun a b => (first_index a words < first_index b words)%nat) (map fst c)
}.

(** [x] stands before [y] in [l]. *)
Definition precedes {A : Type} (l : list A) (x y : A) : Prop :=
  exists l1 l2 l3, l = l1 ++ x :: l2 ++ y :: l3.

(** The order [sorted_desc l] puts the items of [l] in. *)
Definition stable_order (l : list (text * Z)) (x y : text * Z) : Prop :=
  snd y < snd x \/ (snd x = snd y /\ precedes l x y).

Section Occurrences.

Variable U : unicode.

(** [s] without the prefix [t], when it has it. *)
Fixpoint strip_prefix (t s : text) : option text :=
  match t, s with
  | [], _ => Some s
  | c :: t', x :: s' => if N.eqb x c then strip_prefix t' s' else None
  | _ :: _, [] => None
  end.

(** The character before the position once [t] has been read. *)
Definition after_literal (t : text) (prev : option N) : option N :=
  fold_left (fun _ c => Some c) t prev.

(** [t] stands at the position as a whole word: a word boundary, the
    characters of [t], a word boundary. *)
Definition whole_word_at (t : text) (prev : option N) (s : text) : bool :=
  boundary U prev s &&
  match strip_prefix t s with
  | Some rest => boundary U (after_literal t prev) rest
  | None => false
  end.

(** The number of positions of [s] at which [t] stands as a whole word. *)
Fixpoint whole_word_count (t : text) (prev : option N) (s : text) : nat :=
  match s with
  | [] => 0
  | x :: s' =>
      ((if whole_word_at t prev s then 1 else 0) + whole_word_count t (Some x) s')%nat
  end.

(** The next [k] positions lie inside a run of word characters. *)
Fixpoint covered (k : nat) (prev : option N) (s : text) : Prop :=
  match k with
  | O => True
  | S k' =>
      word_before U prev = true /\
      match s with
      | x :: s' => is_word U x = true /\ covered k' (Some x) s'
      | [] => False
      end
  end.

End Occurrences.

End DataAnalyzer.

(** ** [web_interface.py] *)

Module WebInterface.

(** The global [parsing_status] ([last_update], a wall-clock reading, is
    left out). *)
Record status : Type := {
  is_running : bool;
  progress : Z;
  message : string
}.

(** The body of a [POST /api/start_parsing] request, by the keys the handler
    reads. *)
Record start_request : Type := {
  access_token : option string;
  group_id : option string;
  max_posts : option Z;
  start_date : option string;
  end_date : option string
}.

(** The arguments a worker thread is started with. *)
Record job : Type := {
  job_token : string;
  job_group : string;
  job_max_posts : Z;
  job_start : option string;
  job_end : option string
}.

(** Where a thread running [run_parsing] stands: started and not yet at its
    first statement, after each of its updates of the status, or done. *)
Inductive phase : Type :=
| Spawned
| Initialising
| Collecting
| Saving
| Analysing
| Finished.

Record worker : Type := { worker_job : job; worker_phase : phase }.

(** The process: the shared status and the worker threads started so far. *)
Record system : Type := { shared : status; workers : list worker }.

Definition initial_system : system :=
  {| shared := {| is_running := false; progress := 0; message := "" |};
     workers := [] |}.

(** The JSON answer of the handler with its HTTP status. *)
Inductive response : Type :=
| Ok (msg : string)
| BadRequest (error : string).

(** [not access_token]: absent or empty. *)
Definition falsy (o : option string) : bool :=
  match o with
  | Some "" => true
  | Some _ => false
  | None => true
  end.

(** [start_parsing]. *)
Definition start_parsing (req : start_request) (sys : system) : response * system :=
  if is_running (shared sys) then
    (BadRequest "Парсинг уже выполняется", sys)
  else if falsy (access_token req) then
    (BadRequest "Требуется токен доступа", sys)
  else
    let thread :=
      {| worker_job :=
           {| job_token := Py.get_default (access_token req) "";
              job_group := Py.get_default (group_id req) "big_asu";
              job_max_posts := Py.get_default (max_posts req) 100;
              job_start := start_date req;
              job_end := end_date req |};
         worker_phase := Spawned |} in
    (Ok "Парсинг запущен",
     {| shared := shared sys; workers := workers sys ++ [thread] |}).

(** One stretch of [run_parsing] between two updates of the status; [ok]
    tells whether the stretch ends at the next update or in the [except]
    branch.  Messages that quote the data (the text of the exception, the
    numbers of the result, the dates of the filter) are cut to their fixed
    part. *)
Definition run_parsing_step (ok : bool) (p : phase) (st : status) : phase * status :=
  match p with
  | Spawned =>
      (Initialising,
       {| is_running := true; progress := 0; message := "Инициализация парсера..." |})
  | Finished => (Finished, st)
  | Initialising =>
      if ok then
        (Collecting,
         {| is_running := is_running st; progress := 10;
            message := "Получение информации о группе..." |})
      else (Finished, {| is_running := false; progress := 0; message := "Ошибка" |})
  | Collecting =>
      if ok then
        (Saving,
         {| is_running := is_running st; progress := 80;
            message := "Сохранение данных..." |})
      else (Finished, {| is_running := false; progress := 0; message := "Ошибка" |})
  | Saving =>
      if ok then
        (Analysing,
         {| is_running := is_running st; progress := 90;
            message := "Анализ данных..." |})
      else (Finished, {| is_running := false; progress := 0; message := "Ошибка" |})
  | Analysing =>
      if ok then
        (Finished,
         {| is_running := false; progress := 100; message := "Парсинг завершен!" |})
      else (Finished, {| is_running := false; progress := 0; message := "Ошибка" |})
  end.

(** The list with its [i]-th worker replaced. *)
Fixpoint set_worker (i : nat) (w : worker) (l : list worker) : list worker :=
  match l, i with
  | [], _ => []
  | _ :: rest, O => w :: rest
  | x :: rest, S i' => x :: set_worker i' w rest
  end.

(** What happens in the process: a start request is handled, or the
    scheduler lets worker [i] run up to its next update. *)
Inductive event : Type :=
| StartRequest (req : start_request)
| WorkerRuns (i : nat) (ok : bool).

Definition step (e : event) (sys : system) : list response * system :=
  match e with
  | StartRequest req =>
      let (r, sys') := start_parsing req sys in ([r], sys')
  | WorkerRuns i ok =>
      match nth_error (workers sys) i with
      | Some w =>
          let (p, st) := run_parsing_step ok (worker_phase w) (shared sys) in
          ([], {| shared := st;
                  workers := set_worker i {| worker_job := worker_job w;
                                             worker_phase := p |} (workers sys) |})
      | None => ([], sys)
      end
  end.

Fixpoint run (events : list event) (sys : system) : list response * system :=
  match events with
  | [] => ([], sys)
  | e :: rest =>
      let (r1, sys1) := step e sys in
      let (r2, sys2) := run rest sys1 in
      (r1 ++ r2, sys2)
  end.

(** A run is active from the start of its thread to its last update. *)
Definition active (w : worker) : bool :=
  match worker_phase w with
  | Finished => false
  | _ => true
  end.

Definition active_runs (sys : system) : nat :=
  List.length (filter active (workers sys)).

Definition token_request (token : string) : start_request :=
  {| access_token := Some token; group_id := None; max_posts := None;
     start_date := None; end_date := None |}.

End WebInterface.

(** * Further vocabulary *)

Module ListOps.

(** The longest prefix whose elements pass [f], and what follows it. *)
Fixpoint take_while {A : Type} (f : A -> bool) (l : list A) : list A :=
  match l with
  | [] => []
  | x :: rest => if f x then x :: take_while f rest else []
  end.

Fixpoint drop_while {A : Type} (f : A -> bool) (l : list A) : list A :=
  match l with
  | [] => []
  | x :: rest => if f x then drop_while f rest else l
  end.

End ListOps.

Module ParserSpec.

Import VKParser ListOps.

(** [post.get('date', 0)]. *)
Definition date_of (p : post) : Z := Py.get_default (post_date p) 0.

(** The two date tests of the loop, as the statements name them. *)
Definition too_old (start_timestamp : option Z) (p : post) : bool :=
  Py.truthy start_timestamp && (date_of p <? Py.get_default start_timestamp 0).

Definition too_new (end_timestamp : option Z) (p : post) : bool :=
  Py.truthy end_timestamp && (date_of p >? Py.get_default end_timestamp 0).

(** The batch up to its first post that is too old, without the posts that
    are too new. *)
Definition batch_window (start_timestamp end_timestamp : option Z)
    (batch : list post) : list post :=
  filter (fun p => negb (too_new end_timestamp p))
    (take_while (fun p => negb (too_old start_timestamp p)) batch).

(** A server that answers a feed request with no more posts than the
    request asks for. *)
Definition honours_count (srv : server) : Prop :=
  forall n ps,
    0 <= int_param ps "count" ->
    match wall_get srv n ps with
    | JsonBody None (Some resp) =>
        Py.len (Py.get_default (wr_items resp) []) <= int_param ps "count"
    | _ => True
    end.

(** The feed requests among the requests sent, and the offsets they ask
    for. *)
Definition is_feed (rq : request) : bool := String.eqb (req_method rq) "wall.get".

Definition feed_offsets (d : list request) : list Z :=
  map (fun rq => int_param (req_params rq) "offset") (filter is_feed d).

(** A server whose group lookup always finds the connection down, with a
    wall it would serve. *)
Definition lookup_down_server (wall : list post) : server :=
  {| groups_getById := fun _ _ => RequestException ConnectionFailed;
     wall_get := fun _ ps =>
       JsonBody None (Some {| wr_items := Some (page wall ps) |});
     wall_getComments := fun _ _ => JsonBody None None |}.

(** The answer to a lookup brings no group: the request failed (transport,
    body that is not JSON, [error] field), the body has no [response], or
    the [response] is an empty list. *)
Definition no_group (o : http_outcome (list group)) : bool :=
  match o with
  | JsonBody None (Some (_ :: _)) => false
  | _ => true
  end.

(** A server that answers every lookup with an empty [response]. *)
Definition unknown_group_server (wall : list post) : server :=
  {| groups_getById := fun _ _ => JsonBody None (Some []);
     wall_get := fun _ ps =>
       JsonBody None (Some {| wr_items := Some (page wall ps) |});
     wall_getComments := fun _ _ => JsonBody None None |}.

End ParserSpec.

Module AnalyzerSpec.

Import DataAnalyzer.

(** The sum of the counts of a list of counted words. *)
Definition total_count (c : list (text * Z)) : Z :=
  fold_right Z.add 0 (map snd c).

End AnalyzerSpec.

Module WebSpec.

Import WebInterface.

(** A worker that has made its first update of the status and not yet its
    last. *)
Definition in_progress (p : phase) : bool :=
  match p with
  | Initialising | Collecting | Saving | Analysing => true
  | Spawned | Finished => false
  end.

(** The requests among the events, and the answers that accept one. *)
Definition is_start (e : event) : bool :=
  match e with
  | StartRequest _ => true
  | WorkerRuns _ _ => false
  end.

Definition accepted (r : response) : bool :=
  match r with
  | Ok _ => true
  | BadRequest _ => false
  end.

(** No worker stands between its start and its first statement. *)
Definition spawned (w : worker) : bool :=
  match worker_phase w with
  | Spawned => true
  | _ => false
  end.

Definition none_spawned (sys : system) : bool :=
  forallb (fun w => negb (spawned w)) (workers sys).

(** A sequence of events in which a start request is handled only when the
    workers started before have all reached their first statement. *)
Fixpoint prompt (events : list event) (sys : system) : bool :=
  match events with
  | [] => true
  | e :: rest =>
      (negb (is_start e) || none_spawned sys) && prompt rest (snd (step e sys))
  end.

(** The process is idle, or one worker is active and the status shows its
    run once it has made its first update. *)
Definition idle (sys : system) : Prop :=
  (forall j w, nth_error (workers sys) j = Some w -> worker_phase w = Finished) /\
  is_running (shared sys) = false.

Definition busy (sys : system) : Prop :=
  exists i wi,
    nth_error (workers sys) i = Some wi /\
    active wi = true /\
    (forall j w, j <> i -> nth_error (workers sys) j = Some w ->
                 worker_phase w = Finished) /\
    (in_progress (worker_phase wi) = true -> is_running (shared sys) = true).

End WebSpec.

(** * Properties of the parser *)

Module ParserFacts.

Import VKParser.

Lemma len_app {A : Type} (l1 l2 : list A) : Py.len (l1 ++ l2) = Py.len l1 + Py.len l2.
Proof. unfold Py.len. rewrite length_app. lia. Qed.

Lemma len_nonneg {A : Type} (l : list A) : 0 <= Py.len l.
Proof. unfold Py.len. lia. Qed.

Lemma len_cons {A : Type} (a : A) (l : list A) : Py.len (a :: l) = 1 + Py.len l.
Proof. unfold Py.len. simpl List.length. lia. Qed.

Lemma nonempty_false {A : Type} (l : list A) : Py.nonempty l = false <-> l = [].
Proof. destruct l; simpl; split; congruence. Qed.

Section Scan.

Variable start_timestamp end_timestamp : option Z.

Local Notation "'scan'" := (scan_batch start_timestamp end_timestamp).

Local Abbreviation kept := (VKParser.kept start_timestamp end_timestamp).
Local Abbreviation in_window := (VKParser.in_window start_timestamp end_timestamp).

Lemma scan_batch_acc (batch acc : list post) (n : Z) :
  scan batch acc n = (acc ++ kept batch, n + Py.len (kept batch)).
Proof.
  revert acc n. induction batch as [|p rest IH]; intros acc n.
  - unfold kept. simpl. rewrite app_nil_r. f_equal. unfold Py.len. simpl. lia.
  - unfold kept. simpl.
    destruct (Py.truthy start_timestamp &&
              (Py.get_default (post_date p) 0 <? Py.get_default start_timestamp 0)).
    { simpl. rewrite app_nil_r. f_equal. unfold Py.len. simpl. lia. }
    destruct (Py.truthy end_timestamp &&
              (Py.get_default (post_date p) 0 >? Py.get_default end_timestamp 0)).
    { rewrite IH. reflexivity. }
    assert (Happ : scan rest (acc ++ [p]) (n + 1) =
                   (acc ++ fst (scan rest [p] (0 + 1)),
                    n + Py.len (fst (scan rest [p] (0 + 1))))).
    { rewrite (IH (acc ++ [p]) (n + 1)), (IH [p] (0 + 1)). simpl fst.
      rewrite <- app_assoc. simpl. f_equal. rewrite len_cons. lia. }
    destruct (Py.truthy start_timestamp &&
              (Py.get_default (post_date p) 0 >=? Py.get_default start_timestamp 0)).
    { exact Happ. }
    destruct (negb (Py.truthy start_timestamp)).
    { exact Happ. }
    rewrite IH. reflexivity.
Qed.

Lemma kept_in_window (batch : list post) : Forall in_window (kept batch).
Proof.
  induction batch as [|p rest IH]; unfold kept; simpl.
  - constructor.
  - destruct (Py.truthy start_timestamp) eqn:Hs; simpl.
    + destruct (Z.ltb_spec (Py.get_default (post_date p) 0)
                           (Py.get_default start_timestamp 0)) as [Hlt|Hge].
      { constructor. }
      destruct (Py.truthy end_timestamp) eqn:He; simpl.
      * destruct (Z.gtb_spec (Py.get_default (post_date p) 0)
                             (Py.get_default end_timestamp 0)) as [Hgt|Hle].
        { rewrite scan_batch_acc. exact IH. }
        replace (Py.get_default (post_date p) 0 >=? Py.get_default start_timestamp 0)
          with true by (symmetry; apply Z.geb_le; lia).
        rewrite scan_batch_acc. simpl. constructor; [|exact IH].
        split; intros _; lia.
      * replace (Py.get_default (post_date p) 0 >=? Py.get_default start_timestamp 0)
          with true by (symmetry; apply Z.geb_le; lia).
        rewrite scan_batch_acc. simpl. constructor; [|exact IH].
        split; [intros _; lia | congruence].
    + destruct (Py.truthy end_timestamp) eqn:He; simpl.
      * destruct (Z.gtb_spec (Py.get_default (post_date p) 0)
                             (Py.get_default end_timestamp 0)) as [Hgt|Hle].
        { rewrite scan_batch_acc. exact IH. }
        rewrite scan_batch_acc. simpl. constructor; [|exact IH].
        split; [congruence | intros _; lia].
      * rewrite scan_batch_acc. simpl. constructor; [|exact IH].
        split; congruence.
Qed.

Lemma kept_incl (batch : list post) : incl (kept batch) batch.
Proof.
  induction batch as [|p rest IH]; unfold kept; simpl.
  - apply incl_nil_l.
  - repeat match goal with
           | |- context [if ?c then _ else _] => destruct c
           end;
      try rewrite scan_batch_acc; simpl;
      try apply incl_nil_l;
      try (apply incl_tl; exact IH);
      try (apply incl_cons; [left; reflexivity | apply incl_tl; exact IH]).
Qed.

End Scan.

Section Run.

Context {T : Py.Digits}.

Variable self : VKGroupParser.
Variable group_id : string.
Variable max_posts : Z.
Variable start_timestamp end_timestamp : option Z.

Local Notation "'turn'" :=
  (loop_turn self group_id max_posts start_timestamp end_timestamp).
Local Notation "'loop'" :=
  (collect_loop self group_id max_posts start_timestamp end_timestamp).
Local Notation "'keep'" := (kept start_timestamp end_timestamp).
Local Abbreviation advance := (VKParser.advance start_timestamp end_timestamp).
Local Abbreviation adequate := (VKParser.adequate max_posts).
Local Abbreviation state_ok := (VKParser.state_ok start_timestamp end_timestamp).
Local Abbreviation request_of := (VKParser.request_of self).
Local Abbreviation lookup_delta := (VKParser.lookup_delta self group_id).
Local Abbreviation balanced := (VKParser.balanced group_id).
Local Abbreviation asks_for := (VKParser.asks_for self).
Local Abbreviation answers := (VKParser.answers self).
Local Abbreviation fetch_of := (VKParser.fetch_of self group_id).

(** The three ways a turn ends. *)
Lemma loop_turn_cases (st : loop_state) (w : world) :
  let batch := fst (get_wall_posts self group_id
                      (Z.min 100 (max_posts - posts_collected st)) (offset st) w) in
  let w' := snd (get_wall_posts self group_id
                   (Z.min 100 (max_posts - posts_collected st)) (offset st) w) in
  (batch = [] /\ turn st w = (Break st, w')) \/
  (batch <> [] /\ keep batch = [] /\ Py.truthy start_timestamp = true /\
     turn st w = (Break st, w')) \/
  (batch <> [] /\ turn st w = (Continue (advance st batch), w')).
Proof.
  unfold loop_turn, bind.
  destruct (get_wall_posts self group_id
              (Z.min 100 (max_posts - posts_collected st)) (offset st) w)
    as [batch w'] eqn:Hget.
  simpl. destruct batch as [|p rest].
  - left. split; reflexivity.
  - right. set (batch := p :: rest).
    assert (Hne : batch <> []) by (unfold batch; congruence).
    change (Py.nonempty batch) with true. cbv beta iota. simpl negb. cbv iota.
    rewrite scan_batch_acc. simpl app.
    destruct (keep batch) as [|q kept'] eqn:Hk.
    + simpl. destruct (Py.truthy start_timestamp) eqn:Hs.
      * left. repeat split; try assumption. unfold ret.
        destruct st; simpl. do 3 f_equal. unfold Py.len. simpl. lia.
      * right. split; [assumption|]. unfold ret, advance. rewrite Hk.
        reflexivity.
    + right. split; [assumption|]. simpl. unfold ret, advance. rewrite Hk.
      reflexivity.
Qed.

(** A turn that goes on has moved [posts_collected] forward. *)
Lemma loop_turn_continue (st st' : loop_state) (w w' : world) :
  turn st w = (Continue st', w') ->
  exists batch, batch <> [] /\ st' = advance st batch /\
    get_wall_posts self group_id
      (Z.min 100 (max_posts - posts_collected st)) (offset st) w = (batch, w').
Proof.
  intros H. pose proof (loop_turn_cases st w) as Hc. cbv zeta in Hc.
  destruct (get_wall_posts self group_id
              (Z.min 100 (max_posts - posts_collected st)) (offset st) w)
    as [batch w1] eqn:Hget.
  simpl in Hc. destruct Hc as [[_ Hc]|[(_ & _ & _ & Hc)|[Hne Hc]]];
    rewrite Hc in H; inversion H; subst.
  exists batch. auto.
Qed.

Lemma loop_turn_break (st st' : loop_state) (w w' : world) :
  turn st w = (Break st', w') -> st' = st.
Proof.
  intros H. pose proof (loop_turn_cases st w) as Hc. cbv zeta in Hc.
  destruct Hc as [[_ Hc]|[(_ & _ & _ & Hc)|[Hne Hc]]];
    rewrite Hc in H; inversion H; subst; reflexivity.
Qed.

Lemma adequate_advance (fuel : nat) (st : loop_state) (batch : list post) :
  batch <> [] -> posts_collected st < max_posts ->
  adequate (S fuel) st -> adequate fuel (advance st batch).
Proof.
  intros Hne Hlt Had. unfold adequate in *. simpl.
  destruct batch as [|p rest]; [congruence|].
  rewrite len_cons. pose proof (len_nonneg rest). lia.
Qed.

(** The loop ends: with adequate fuel it returns a final state. *)
Lemma collect_loop_total (fuel : nat) :
  forall st w, adequate fuel st ->
  exists st' w', loop fuel st w = (Some st', w').
Proof.
  induction fuel as [|fuel IH]; intros st w Had; simpl.
  - destruct (Z.ltb_spec (posts_collected st) max_posts) as [Hlt|Hge].
    + unfold adequate in Had. lia.
    + unfold ret. eauto.
  - destruct (Z.ltb_spec (posts_collected st) max_posts) as [Hlt|Hge].
    + unfold bind. destruct (turn st w) as [[st1|st1] w1] eqn:Ht.
      * apply loop_turn_continue in Ht. destruct Ht as (batch & Hne & -> & _).
        apply IH. apply adequate_advance; assumption.
      * unfold ret. eauto.
    + unfold ret. eauto.
Qed.

(** A property of the state that every complete turn preserves holds of the
    final state. *)
Lemma collect_loop_invariant (P : loop_state -> Prop) :
  (forall st batch, P st -> batch <> [] -> P (advance st batch)) ->
  forall fuel st w st' w',
    P st -> loop fuel st w = (Some st', w') -> P st'.
Proof.
  intros Hstep. induction fuel as [|fuel IH]; intros st w st' w' HP; simpl.
  - destruct (posts_collected st <? max_posts); unfold ret; intros H;
      inversion H; subst; assumption.
  - destruct (posts_collected st <? max_posts).
    + unfold bind. destruct (turn st w) as [[st1|st1] w1] eqn:Ht.
      * apply loop_turn_continue in Ht. destruct Ht as (batch & Hne & -> & _).
        apply IH. apply Hstep; assumption.
      * apply loop_turn_break in Ht. subst st1. unfold ret. intros H.
        inversion H; subst; assumption.
    + unfold ret. intros H. inversion H; subst; assumption.
Qed.

(** With adequate fuel the result does not depend on the fuel. *)
Lemma collect_loop_fuel (fuel1 : nat) :
  forall fuel2 st w, adequate fuel1 st -> adequate fuel2 st ->
  loop fuel1 st w = loop fuel2 st w.
Proof.
  induction fuel1 as [|fuel1 IH]; intros fuel2 st w H1 H2.
  - destruct fuel2; simpl; [reflexivity|].
    destruct (Z.ltb_spec (posts_collected st) max_posts) as [Hlt|Hge];
      [unfold adequate in H1; lia | reflexivity].
  - destruct fuel2; simpl.
    + destruct (Z.ltb_spec (posts_collected st) max_posts) as [Hlt|Hge];
        [unfold adequate in H2; lia | reflexivity].
    + destruct (Z.ltb_spec (posts_collected st) max_posts) as [Hlt|Hge];
        [|reflexivity].
      unfold bind. destruct (turn st w) as [[st1|st1] w1] eqn:Ht; [|reflexivity].
      apply loop_turn_continue in Ht. destruct Ht as (batch & Hne & -> & _).
      apply IH; apply adequate_advance; assumption.
Qed.

(** Turns already made can be skipped. *)
Lemma reaches_loop (x y : loop_state * world) :
  reaches self group_id max_posts start_timestamp end_timestamp x y ->
  forall fuel, adequate fuel (fst x) ->
  loop fuel (fst x) (snd x) =
  loop (Z.to_nat (max_posts - posts_collected (fst y))) (fst y) (snd y).
Proof.
  induction 1 as [[st w]|st w st1 w1 y Hlt Ht Hr IH]; intros fuel Had; simpl in *.
  - apply collect_loop_fuel; [assumption | unfold adequate; lia].
  - destruct fuel as [|fuel]; [unfold adequate in Had; lia|].
    simpl. destruct (Z.ltb_spec (posts_collected st) max_posts); [|lia].
    unfold bind. rewrite Ht. apply IH.
    apply loop_turn_continue in Ht. destruct Ht as (batch & Hne & -> & _).
    apply adequate_advance; assumption.
Qed.

(** [parse_group_data] always returns: the lookup, the loop with its final
    state, then the comments. *)
Lemma parse_group_data_unfold (include_comments : bool) (w : world) :
  exists st wl,
    loop (Z.to_nat max_posts) initial_state (snd (get_group_info self group_id w))
      = (Some st, wl) /\
    let cs := if include_comments
              then collect_comments self group_id (all_posts st) [] wl
              else ([], wl) in
    parse_group_data self group_id max_posts start_timestamp end_timestamp
      include_comments w =
    (Some {| group_info := fst (get_group_info self group_id w);
             posts := all_posts st;
             comments := fst cs;
             total_posts := Py.len (all_posts st);
             total_comments := Py.len (fst cs);
             filter_period :=
               {| fp_start_date := start_timestamp;
                  fp_end_date := end_timestamp;
                  fp_posts_in_period := posts_in_period st |} |}, snd cs).
Proof.
  destruct (collect_loop_total (Z.to_nat max_posts) initial_state
              (snd (get_group_info self group_id w))) as (st & wl & Hloop).
  { unfold adequate. simpl. lia. }
  exists st, wl. split; [exact Hloop|].
  unfold parse_group_data, bind.
  destruct (get_group_info self group_id w) as [info w1]. simpl in *.
  rewrite Hloop. destruct include_comments.
  - destruct (collect_comments self group_id (all_posts st) [] wl). reflexivity.
  - reflexivity.
Qed.

Lemma state_ok_advance (st : loop_state) (batch : list post) :
  state_ok st -> batch <> [] -> state_ok (advance st batch).
Proof.
  intros [Hn Hw] _. split; simpl.
  - rewrite len_app. lia.
  - apply Forall_app. split; [assumption | apply kept_in_window].
Qed.

Lemma state_ok_initial : state_ok initial_state.
Proof. split; [reflexivity | constructor]. Qed.

(** Every retained post passes the date test. *)
Lemma retained_in_window (include_comments : bool) (w : world) :
  exists r w',
    parse_group_data self group_id max_posts start_timestamp end_timestamp
      include_comments w = (Some r, w') /\
    Forall (in_window start_timestamp end_timestamp) (posts r).
Proof.
  destruct (parse_group_data_unfold include_comments w) as (st & wl & Hloop & Hrun).
  cbv zeta in Hrun. eexists. eexists. split; [exact Hrun|]. simpl.
  apply (collect_loop_invariant state_ok state_ok_advance _ _ _ _ _
           state_ok_initial Hloop).
Qed.

(** A failed fetch gives the loop an empty batch. *)
Lemma feed_fetch_failed_empty (count off : Z) (w : world) :
  feed_fetch_failed self group_id count off w = true ->
  fst (get_wall_posts self group_id count off w) = [].
Proof.
  unfold feed_fetch_failed, get_wall_posts, numeric_group_id, get_group_info,
    _make_request, bind, ret.
  destruct (needs_lookup group_id); simpl.
  - destruct (groups_getById (session self) (clock w)
                (with_credentials self (lookup_params group_id)))
      as [cause| |[err|] [resp|]]; simpl; try reflexivity.
    all: try destruct resp as [|g rest]; simpl; try reflexivity; try discriminate.
    destruct (gi_id g); simpl; [|discriminate].
    destruct (wall_get _ _ _) as [cause| |[err|] [resp|]]; simpl;
      try reflexivity; discriminate.
  - destruct (wall_get _ _ _) as [cause| |[err|] [resp|]]; simpl;
      try reflexivity; discriminate.
Qed.

(** *** The requests a run sends *)

Lemma count_method_app (m : string) (d1 d2 : list request) :
  count_method m (d1 ++ d2) = (count_method m d1 + count_method m d2)%nat.
Proof. unfold count_method. rewrite filter_app, length_app. reflexivity. Qed.

Lemma make_request_world {A : Type} `{Payload A}
    (endpoint : nat -> params -> http_outcome A) (method : string) (ps : params)
    (w : world) :
  snd (_make_request self endpoint method ps w) =
  {| clock := S (clock w); sent := sent w ++ [request_of method ps] |}.
Proof.
  unfold _make_request.
  destruct (endpoint (clock w) (with_credentials self ps)) as [c| |[e|] r];
    reflexivity.
Qed.

Lemma get_group_info_sent (w : world) :
  sent (snd (get_group_info self group_id w)) =
  sent w ++ [request_of "groups.getById" (lookup_params group_id)].
Proof.
  unfold get_group_info, bind.
  pose proof (make_request_world (groups_getById (session self)) "groups.getById"
                (lookup_params group_id) w) as Hw.
  destruct (_make_request self (groups_getById (session self)) "groups.getById"
              (lookup_params group_id) w) as [resp w1].
  simpl in Hw. subst w1. destruct resp; reflexivity.
Qed.

Lemma numeric_group_id_sent (w : world) :
  sent (snd (numeric_group_id self group_id w)) = sent w ++ lookup_delta.
Proof.
  unfold numeric_group_id, lookup_delta, bind.
  destruct (needs_lookup group_id).
  - pose proof (get_group_info_sent w) as Hw.
    destruct (get_group_info self group_id w) as [info w1]. simpl in Hw.
    destruct (gi_id info); simpl; exact Hw.
  - simpl. rewrite app_nil_r. reflexivity.
Qed.

Lemma get_wall_posts_sent (count off : Z) (w : world) :
  exists d,
    sent (snd (get_wall_posts self group_id count off w)) =
      sent w ++ lookup_delta ++ d /\
    (d = [] \/ exists numeric, d = [request_of "wall.get" (wall_params numeric count off)]).
Proof.
  unfold get_wall_posts, bind.
  pose proof (numeric_group_id_sent w) as Hw.
  destruct (numeric_group_id self group_id w) as [[numeric|] w1]; simpl in Hw.
  - pose proof (make_request_world (wall_get (session self)) "wall.get"
                  (wall_params numeric count off) w1) as Hw2.
    destruct (_make_request self (wall_get (session self)) "wall.get"
                (wall_params numeric count off) w1) as [resp w2].
    simpl in Hw2. subst w2. simpl. rewrite Hw, <- app_assoc.
    eexists. split; [reflexivity|]. right. eexists. reflexivity.
  - exists []. simpl. rewrite app_nil_r. auto.
Qed.

Lemma get_post_comments_sent (pid count off : Z) (w : world) :
  exists d,
    sent (snd (get_post_comments self group_id pid count off w)) =
      sent w ++ lookup_delta ++ d /\
    (d = [] \/
     exists numeric,
       d = [request_of "wall.getComments" (comments_params numeric pid count off)]).
Proof.
  unfold get_post_comments, bind.
  pose proof (numeric_group_id_sent w) as Hw.
  destruct (numeric_group_id self group_id w) as [[numeric|] w1]; simpl in Hw.
  - pose proof (make_request_world (wall_getComments (session self))
                  "wall.getComments" (comments_params numeric pid count off) w1) as Hw2.
    destruct (_make_request self (wall_getComments (session self))
                "wall.getComments" (comments_params numeric pid count off) w1)
      as [resp w2].
    simpl in Hw2. subst w2. simpl. rewrite Hw, <- app_assoc.
    eexists. split; [reflexivity|]. right. eexists. reflexivity.
  - exists []. simpl. rewrite app_nil_r. auto.
Qed.

Lemma balanced_app (d1 d2 : list request) :
  balanced d1 -> balanced d2 -> balanced (d1 ++ d2).
Proof.
  unfold balanced, feeds, threads, lookups. rewrite !count_method_app.
  destruct (needs_lookup group_id); lia.
Qed.

Lemma balanced_nil : balanced [].
Proof.
  unfold balanced, feeds, threads, lookups, count_method.
  destruct (needs_lookup group_id); simpl; lia.
Qed.

Lemma lookups_lookup_delta :
  lookups lookup_delta = if needs_lookup group_id then 1%nat else 0%nat.
Proof. unfold lookup_delta. destruct (needs_lookup group_id); reflexivity. Qed.

Lemma feeds_lookup_delta : feeds lookup_delta = 0%nat.
Proof. unfold lookup_delta. destruct (needs_lookup group_id); reflexivity. Qed.

Lemma threads_lookup_delta : threads lookup_delta = 0%nat.
Proof. unfold lookup_delta. destruct (needs_lookup group_id); reflexivity. Qed.

(** What one feed fetch sends. *)
Lemma get_wall_posts_trace (count off : Z) (w : world) :
  exists d,
    sent (snd (get_wall_posts self group_id count off w)) = sent w ++ d /\
    threads d = 0%nat /\ balanced d /\
    lookups d = if needs_lookup group_id then 1%nat else 0%nat.
Proof.
  destruct (get_wall_posts_sent count off w) as (d & Hs & Hd).
  exists (lookup_delta ++ d). split; [exact Hs|].
  unfold balanced, threads, feeds, lookups in *. rewrite !count_method_app.
  fold (lookups lookup_delta) (feeds lookup_delta) (threads lookup_delta).
  rewrite lookups_lookup_delta, feeds_lookup_delta, threads_lookup_delta.
  destruct Hd as [->|[numeric ->]]; destruct (needs_lookup group_id);
    unfold count_method, request_of; simpl; repeat split; lia.
Qed.

(** What one comment fetch sends. *)
Lemma get_post_comments_trace (pid : Z) (w : world) :
  exists d,
    sent (snd (get_post_comments self group_id pid 100 0 w)) = sent w ++ d /\
    (threads d <= 1)%nat /\ balanced d /\
    Forall (fun rq => req_method rq = "wall.getComments" ->
              exists numeric,
                rq = request_of "wall.getComments" (comments_params numeric pid 100 0)) d.
Proof.
  destruct (get_post_comments_sent pid 100 0 w) as (d & Hs & Hd).
  exists (lookup_delta ++ d). split; [exact Hs|].
  assert (Hfa : Forall (fun rq => req_method rq = "wall.getComments" ->
              exists numeric,
                rq = request_of "wall.getComments" (comments_params numeric pid 100 0))
              lookup_delta).
  { unfold lookup_delta. destruct (needs_lookup group_id); constructor.
    - simpl. discriminate.
    - constructor. }
  unfold balanced, threads, feeds, lookups in *. rewrite !count_method_app.
  fold (lookups lookup_delta) (feeds lookup_delta) (threads lookup_delta).
  rewrite lookups_lookup_delta, feeds_lookup_delta, threads_lookup_delta.
  destruct Hd as [->|[numeric ->]].
  - rewrite app_nil_r. destruct (needs_lookup group_id);
      unfold count_method; simpl; repeat split; try lia; exact Hfa.
  - destruct (needs_lookup group_id); unfold count_method, request_of; simpl;
      repeat split; try lia;
      (apply Forall_app; split; [exact Hfa|]);
      (constructor; [intros _; exists numeric; reflexivity | constructor]).
Qed.

Lemma loop_turn_world (st : loop_state) (w : world) :
  snd (turn st w) =
  snd (get_wall_posts self group_id
         (Z.min 100 (max_posts - posts_collected st)) (offset st) w).
Proof.
  pose proof (loop_turn_cases st w) as Hc. cbv zeta in Hc.
  destruct Hc as [[_ Hc]|[(_ & _ & _ & Hc)|[_ Hc]]]; rewrite Hc; reflexivity.
Qed.

(** What the feed loop sends: no comment request, lookups in balance, and
    at least one lookup when a first turn is made without a numeric
    identifier. *)
Lemma collect_loop_trace (fuel : nat) :
  forall st w,
  exists d,
    sent (snd (loop fuel st w)) = sent w ++ d /\
    threads d = 0%nat /\ balanced d /\
    (needs_lookup group_id = true -> posts_collected st < max_posts ->
     fuel <> 0%nat -> (1 <= lookups d)%nat).
Proof.
  induction fuel as [|fuel IH]; intros st w; simpl.
  - exists []. rewrite app_nil_r.
    destruct (posts_collected st <? max_posts); simpl;
      repeat split; try reflexivity; try apply balanced_nil; congruence.
  - destruct (Z.ltb_spec (posts_collected st) max_posts) as [Hlt|Hge].
    + unfold bind. pose proof (loop_turn_world st w) as Hw.
      destruct (get_wall_posts_trace
                  (Z.min 100 (max_posts - posts_collected st)) (offset st) w)
        as (d1 & Hs1 & Ht1 & Hb1 & Hl1).
      rewrite <- Hw in Hs1.
      destruct (turn st w) as [[st1|st1] w1]; simpl in Hs1.
      * destruct (IH st1 w1) as (d2 & Hs2 & Ht2 & Hb2 & _).
        exists (d1 ++ d2). rewrite Hs2, Hs1, <- app_assoc.
        repeat split.
        -- unfold threads in *. rewrite count_method_app. lia.
        -- apply balanced_app; assumption.
        -- intros Hn _ _. unfold lookups in *. rewrite count_method_app.
           rewrite Hn in Hl1. lia.
      * exists d1. simpl. repeat split; try assumption.
        intros Hn _ _. rewrite Hn in Hl1. lia.
    + exists []. simpl. rewrite app_nil_r.
      repeat split; try reflexivity; try apply balanced_nil. lia.
Qed.

(** *** The comments of the retained posts *)

Lemma tagged_by_cons (q : post) (retained : list post) (c : comment) :
  tagged_by retained c -> tagged_by (q :: retained) c.
Proof.
  intros (p & pid & Hin & H). exists p, pid. split; [right; exact Hin | exact H].
Qed.

Lemma asks_for_cons (q : post) (retained : list post) (rq : request) :
  asks_for retained rq -> asks_for (q :: retained) rq.
Proof.
  intros H Hm. destruct (H Hm) as (p & pid & numeric & Hin & H').
  exists p, pid, numeric. split; [right; exact Hin | exact H'].
Qed.

Lemma collect_comments_spec (retained : list post) :
  forall acc w,
  exists d fetched,
    sent (snd (collect_comments self group_id retained acc w)) = sent w ++ d /\
    fst (collect_comments self group_id retained acc w) = acc ++ fetched /\
    Forall (tagged_by retained) fetched /\
    Forall (asks_for retained) d /\
    (threads d <= List.length (filter eligible retained))%nat /\
    balanced d.
Proof.
  induction retained as [|p rest IH]; intros acc w.
  - exists [], []. simpl. rewrite !app_nil_r.
    repeat split; try constructor. apply balanced_nil.
  - assert (Hskip : forall acc' w',
              eligible p = false ->
              exists d fetched,
                sent (snd (collect_comments self group_id rest acc' w')) = sent w' ++ d /\
                fst (collect_comments self group_id rest acc' w') = acc' ++ fetched /\
                Forall (tagged_by (p :: rest)) fetched /\
                Forall (asks_for (p :: rest)) d /\
                (threads d <= List.length (filter eligible (p :: rest)))%nat /\
                balanced d).
    { intros acc' w' He. destruct (IH acc' w') as (d & f & Hs & Hf & Ht & Ha & Hn & Hb).
      exists d, f. simpl. rewrite He. repeat split; try assumption.
      - eapply Forall_impl; [|exact Ht]. intros c. apply tagged_by_cons.
      - eapply Forall_impl; [|exact Ha]. intros rq. apply asks_for_cons. }
    simpl. destruct (post_id p) as [pid|] eqn:Hid.
    + destruct (negb (pid =? 0) && (comments_count p >? 0)) eqn:Hc.
      * apply andb_prop in Hc. destruct Hc as [Hnz Hpos].
        apply negb_true_iff, Z.eqb_neq in Hnz. apply Z.gtb_lt in Hpos.
        unfold bind.
        destruct (get_post_comments_trace pid w) as (d1 & Hs1 & Ht1 & Hb1 & Ha1).
        destruct (get_post_comments self group_id pid 100 0 w) as [f1 w1].
        simpl in Hs1.
        destruct (IH (acc ++ map (set_parent pid) f1) w1)
          as (d2 & f2 & Hs2 & Hf2 & Htag & Hask & Hn & Hb2).
        exists (d1 ++ d2), (map (set_parent pid) f1 ++ f2).
        rewrite Hs2, Hs1, Hf2, <- !app_assoc. repeat split.
        -- apply Forall_app. split.
           ++ apply Forall_forall. intros c Hin. apply in_map_iff in Hin.
              destruct Hin as (c0 & <- & _). exists p, pid.
              repeat split; try assumption. left. reflexivity.
           ++ eapply Forall_impl; [|exact Htag]. intros c. apply tagged_by_cons.
        -- apply Forall_app. split.
           ++ eapply Forall_impl; [|exact Ha1]. intros rq Hrq Hm.
              destruct (Hrq Hm) as (numeric & ->). exists p, pid, numeric.
              repeat split; try assumption. left. reflexivity.
           ++ eapply Forall_impl; [|exact Hask]. intros rq. apply asks_for_cons.
        -- unfold eligible at 1. rewrite Hid.
           replace (negb (pid =? 0) && (comments_count p >? 0)) with true.
           ++ unfold threads in *. rewrite count_method_app. simpl. lia.
           ++ symmetry. apply andb_true_intro. split.
              ** apply negb_true_iff, Z.eqb_neq. assumption.
              ** apply Z.gtb_lt. assumption.
        -- apply balanced_app; assumption.
      * apply Hskip. unfold eligible. rewrite Hid. exact Hc.
    + apply Hskip. unfold eligible. rewrite Hid. reflexivity.
Qed.

(** Within a batch: a post older than a truthy lower bound ends the scan of
    the batch, and a post newer than a truthy upper bound is passed over. *)
Lemma scan_stops_at_old_post (p : post) (rest : list post) :
  Py.truthy start_timestamp = true ->
  Py.get_default (post_date p) 0 < Py.get_default start_timestamp 0 ->
  keep (p :: rest) = [].
Proof.
  intros Hs Hlt. unfold kept. simpl. rewrite Hs. simpl.
  destruct (Z.ltb_spec (Py.get_default (post_date p) 0)
                       (Py.get_default start_timestamp 0)); [reflexivity | lia].
Qed.

Lemma scan_skips_late_post (p : post) (rest : list post) :
  Py.truthy end_timestamp = true ->
  Py.get_default end_timestamp 0 < Py.get_default (post_date p) 0 ->
  Py.truthy start_timestamp && (Py.get_default (post_date p) 0 <?
                                Py.get_default start_timestamp 0) = false ->
  keep (p :: rest) = keep rest.
Proof.
  intros He Hgt Hs. unfold kept. simpl. rewrite Hs, He. simpl.
  destruct (Z.gtb_spec (Py.get_default (post_date p) 0)
                       (Py.get_default end_timestamp 0)); [reflexivity | lia].
Qed.

Lemma count_method_none (m : string) (d : list request) :
  count_method m d = 0%nat -> Forall (fun rq => req_method rq <> m) d.
Proof.
  unfold count_method. induction d as [|rq d IH]; simpl; intros H.
  - constructor.
  - destruct (String.eqb_spec (req_method rq) m) as [He|Hne].
    + simpl in H. discriminate.
    + constructor; [exact Hne | apply IH; exact H].
Qed.

(** The requests of a whole run: the lookup at the start, the feed loop,
    then the comment loop. *)
Lemma parse_group_data_trace (include_comments : bool) (w : world) :
  exists r w' dl dc,
    parse_group_data self group_id max_posts start_timestamp end_timestamp
      include_comments w = (Some r, w') /\
    sent w' = sent w ++ [request_of "groups.getById" (lookup_params group_id)]
                     ++ dl ++ dc /\
    threads dl = 0%nat /\ balanced dl /\
    (needs_lookup group_id = true -> 0 < max_posts -> (1 <= lookups dl)%nat) /\
    balanced dc /\
    (include_comments = false -> dc = [] /\ comments r = []) /\
    Forall (tagged_by (posts r)) (comments r) /\
    Forall (asks_for (posts r)) dc /\
    (threads dc <= List.length (filter eligible (posts r)))%nat.
Proof.
  destruct (parse_group_data_unfold include_comments w) as (st & wl & Hloop & Hrun).
  cbv zeta in Hrun.
  destruct (collect_loop_trace (Z.to_nat max_posts) initial_state
              (snd (get_group_info self group_id w))) as (dl & Hsl & Htl & Hbl & Hll).
  rewrite Hloop in Hsl. simpl in Hsl. rewrite get_group_info_sent in Hsl.
  destruct include_comments.
  - destruct (collect_comments_spec (all_posts st) [] wl)
      as (dc & fetched & Hsc & Hfc & Htag & Hask & Hn & Hbc).
    simpl in Hfc. eexists. eexists. exists dl, dc.
    split; [exact Hrun|]. simpl. rewrite Hsc, Hsl, Hfc, <- !app_assoc. simpl.
    repeat split; try assumption; try discriminate.
    intros Hneed Hpos. apply Hll; [assumption | simpl; lia | lia].
  - eexists. eexists. exists dl, []. split; [exact Hrun|]. simpl.
    rewrite Hsl, <- !app_assoc. simpl. rewrite app_nil_r.
    repeat split; try assumption; try constructor; try apply balanced_nil.
    + intros Hneed Hpos. apply Hll; [assumption | simpl; lia | lia].
    + unfold threads, count_method. simpl. lia.
Qed.

(** *** The comments a run brings back *)

Lemma answers_app (n : nat) (d1 d2 : list request) :
  answers n (d1 ++ d2) = answers n d1 ++ answers (n + List.length d1) d2.
Proof.
  revert n. induction d1 as [|rq d1 IH]; intros n; simpl.
  - rewrite Nat.add_0_r. reflexivity.
  - rewrite IH, <- app_assoc, Nat.add_succ_r. reflexivity.
Qed.

Lemma answers_none (n : nat) (d : list request) :
  threads d = 0%nat -> answers n d = [].
Proof.
  unfold threads, count_method. revert n.
  induction d as [|rq d IH]; intros n; simpl; [reflexivity|].
  destruct (String.eqb (req_method rq) "wall.getComments"); simpl;
    [discriminate | apply IH].
Qed.

(** The clock of the session moves with the requests sent. *)
Lemma get_group_info_world (w : world) :
  snd (get_group_info self group_id w) =
  {| clock := S (clock w);
     sent := sent w ++ [request_of "groups.getById" (lookup_params group_id)] |}.
Proof.
  unfold get_group_info, bind.
  pose proof (make_request_world (groups_getById (session self)) "groups.getById"
                (lookup_params group_id) w) as Hw.
  destruct (_make_request self (groups_getById (session self)) "groups.getById"
              (lookup_params group_id) w) as [resp w1].
  simpl in Hw. subst w1. destruct resp; reflexivity.
Qed.

Lemma numeric_group_id_clock (w : world) :
  clock (snd (numeric_group_id self group_id w)) =
  (clock w + List.length lookup_delta)%nat.
Proof.
  unfold numeric_group_id, lookup_delta, bind.
  destruct (needs_lookup group_id).
  - pose proof (get_group_info_world w) as Hw.
    destruct (get_group_info self group_id w) as [info w1]. simpl in Hw. subst w1.
    destruct (gi_id info); simpl; lia.
  - simpl. lia.
Qed.

Lemma get_wall_posts_pace (count off : Z) (w : world) :
  (clock (snd (get_wall_posts self group_id count off w)) + List.length (sent w) =
   clock w + List.length (sent (snd (get_wall_posts self group_id count off w))))%nat.
Proof.
  unfold get_wall_posts, bind.
  pose proof (numeric_group_id_sent w) as Hs.
  pose proof (numeric_group_id_clock w) as Hc.
  destruct (numeric_group_id self group_id w) as [[numeric|] w1]; simpl in Hs, Hc.
  - pose proof (make_request_world (wall_get (session self)) "wall.get"
                  (wall_params numeric count off) w1) as Hw2.
    destruct (_make_request self (wall_get (session self)) "wall.get"
                (wall_params numeric count off) w1) as [resp w2].
    simpl in Hw2. subst w2. simpl. rewrite Hs, Hc, !length_app. simpl. lia.
  - simpl. rewrite Hs, Hc, length_app. lia.
Qed.

Lemma collect_loop_pace (fuel : nat) :
  forall st w,
  (clock (snd (loop fuel st w)) + List.length (sent w) =
   clock w + List.length (sent (snd (loop fuel st w))))%nat.
Proof.
  induction fuel as [|fuel IH]; intros st w; simpl.
  - destruct (posts_collected st <? max_posts); reflexivity.
  - destruct (posts_collected st <? max_posts); [|reflexivity].
    unfold bind. pose proof (loop_turn_world st w) as Hw.
    pose proof (get_wall_posts_pace
                  (Z.min 100 (max_posts - posts_collected st)) (offset st) w) as Hp.
    rewrite <- Hw in Hp.
    destruct (turn st w) as [[st1|st1] w1]; simpl in Hp.
    + specialize (IH st1 w1). lia.
    + simpl. exact Hp.
Qed.

Lemma comments_params_post_id (numeric : string) (pid count off : Z) :
  int_param (with_credentials self (comments_params numeric pid count off))
    "post_id" = pid.
Proof. reflexivity. Qed.

(** One call of [get_post_comments]: what it sends, and that its value,
    once tagged, is what its requests bring back. *)
Lemma get_post_comments_answers (pid : Z) (w : world) :
  exists chunk,
    sent (snd (get_post_comments self group_id pid 100 0 w)) = sent w ++ chunk /\
    clock (snd (get_post_comments self group_id pid 100 0 w)) =
      (clock w + List.length chunk)%nat /\
    (chunk = lookup_delta \/
     exists numeric,
       chunk = lookup_delta
               ++ [request_of "wall.getComments" (comments_params numeric pid 100 0)]) /\
    map (set_parent pid) (fst (get_post_comments self group_id pid 100 0 w)) =
    answers (clock w) chunk.
Proof.
  unfold get_post_comments, bind.
  pose proof (numeric_group_id_sent w) as Hs.
  pose proof (numeric_group_id_clock w) as Hc.
  assert (Hl : answers (clock w) lookup_delta = []).
  { apply answers_none. apply threads_lookup_delta. }
  destruct (numeric_group_id self group_id w) as [[numeric|] w1]; simpl in Hs, Hc.
  - exists (lookup_delta
            ++ [request_of "wall.getComments" (comments_params numeric pid 100 0)]).
    pose proof (make_request_world (wall_getComments (session self))
                  "wall.getComments" (comments_params numeric pid 100 0) w1) as Hw2.
    assert (Hv : Py.get_default
                   (cr_items (fst (_make_request self (wall_getComments (session self))
                                     "wall.getComments"
                                     (comments_params numeric pid 100 0) w1))) [] =
                 served (wall_getComments (session self) (clock w1)
                           (with_credentials self (comments_params numeric pid 100 0)))).
    { unfold _make_request, served.
      destruct (wall_getComments (session self) (clock w1)
                  (with_credentials self (comments_params numeric pid 100 0)))
        as [cause| |[err|] [resp|]]; reflexivity. }
    destruct (_make_request self (wall_getComments (session self))
                "wall.getComments" (comments_params numeric pid 100 0) w1)
      as [resp w2].
    simpl in Hw2, Hv. subst w2. simpl fst. simpl snd. cbn [sent clock].
    split; [rewrite Hs, <- app_assoc; reflexivity|].
    split; [rewrite Hc, length_app; simpl; lia|].
    split; [right; exists numeric; reflexivity|].
    rewrite answers_app, Hl, <- Hc. cbn [app VKParser.answers].
    unfold VKParser.request_of. cbn [req_method req_params].
    rewrite comments_params_post_id, Hv, app_nil_r.
    reflexivity.
  - exists lookup_delta. simpl.
    split; [exact Hs|]. split; [exact Hc|]. split; [left; reflexivity|].
    symmetry. exact Hl.
Qed.

(** The comment loop: one call for each eligible post in turn, and the
    comments it gathers are what the requests of these calls bring back. *)
Lemma collect_comments_answers (retained : list post) :
  forall acc w,
  exists chunks,
    Forall2 fetch_of (filter eligible retained) chunks /\
    sent (snd (collect_comments self group_id retained acc w)) =
      sent w ++ List.concat chunks /\
    fst (collect_comments self group_id retained acc w) =
      acc ++ answers (clock w) (List.concat chunks).
Proof.
  induction retained as [|p rest IH]; intros acc w.
  - exists []. simpl. rewrite !app_nil_r. repeat split. constructor.
  - cbn [collect_comments filter].
    assert (Hel : eligible p =
                  match post_id p with
                  | Some pid => negb (pid =? 0) && (comments_count p >? 0)
                  | None => false
                  end) by reflexivity.
    destruct (post_id p) as [pid|] eqn:Hid; [|rewrite Hel; apply IH].
    destruct (negb (pid =? 0) && (comments_count p >? 0));
      rewrite Hel; [|apply IH].
    unfold bind.
    destruct (get_post_comments_answers pid w) as (chunk & Hs1 & Hc1 & Hshape & Hans).
    destruct (get_post_comments self group_id pid 100 0 w) as [f1 w1].
    simpl in Hs1, Hc1, Hans.
    destruct (IH (acc ++ map (set_parent pid) f1) w1) as (chunks & Hf2 & Hs2 & Hv2).
    exists (chunk :: chunks). split; [|split].
    + constructor; [|exact Hf2]. exists pid. split; [exact Hid | exact Hshape].
    + simpl. rewrite Hs2, Hs1, <- app_assoc. reflexivity.
    + simpl. rewrite Hv2, answers_app, Hc1, Hans, <- app_assoc. reflexivity.
Qed.

End Run.

(** C10.  For every run, the [posts_in_period] counter reported under
    [filter_period] equals [total_posts], which is the length of the
    retained [posts]: the run always returns, and the two numbers agree
    for every date window, every [max_posts] and every server. *)
Theorem posts_in_period_is_total_posts {T : Py.Digits}
    (self : VKGroupParser) (group_id : string) (max_posts : Z)
    (start_timestamp end_timestamp : option Z) (include_comments : bool)
    (w : world) :
  exists r w',
    parse_group_data self group_id max_posts start_timestamp end_timestamp
      include_comments w = (Some r, w') /\
    fp_posts_in_period (filter_period r) = total_posts r /\
    total_posts r = Py.len (posts r).
Proof.
  destruct (parse_group_data_unfold self group_id max_posts start_timestamp
              end_timestamp include_comments w) as (st & wl & Hloop & Hrun).
  cbv zeta in Hrun. eexists. eexists. split; [exact Hrun|]. simpl.
  split; [|reflexivity].
  apply (collect_loop_invariant self group_id max_posts start_timestamp
           end_timestamp (state_ok start_timestamp end_timestamp)
           (state_ok_advance start_timestamp end_timestamp) _ _ _ _ _
           (state_ok_initial start_timestamp end_timestamp) Hloop).
Qed.

(** C5.  Let the run have reached the top of the loop, after any number of
    complete turns, with state [st], and let the API client fail during the
    next feed fetch.  Then the run returns a result whose posts are exactly
    the posts accumulated in [st], with [total_posts] and [posts_in_period]
    both equal to their number. *)
Theorem feed_failure_returns_partial_result {T : Py.Digits}
    (self : VKGroupParser) (group_id : string) (max_posts : Z)
    (start_timestamp end_timestamp : option Z) (include_comments : bool)
    (w0 : world) (st : loop_state) (w : world) :
  reaches self group_id max_posts start_timestamp end_timestamp
    (initial_state, snd (get_group_info self group_id w0)) (st, w) ->
  posts_collected st < max_posts ->
  feed_fetch_failed self group_id
    (Z.min 100 (max_posts - posts_collected st)) (offset st) w = true ->
  exists r w',
    parse_group_data self group_id max_posts start_timestamp end_timestamp
      include_comments w0 = (Some r, w') /\
    posts r = all_posts st /\
    total_posts r = Py.len (all_posts st) /\
    fp_posts_in_period (filter_period r) = Py.len (all_posts st).
Proof.
  intros Hreach Hlt Hfail.
  destruct (parse_group_data_unfold self group_id max_posts start_timestamp
              end_timestamp include_comments w0) as (st' & wl & Hloop & Hrun).
  cbv zeta in Hrun.
  assert (Hst : st' = st).
  { rewrite (reaches_loop self group_id max_posts start_timestamp end_timestamp
               _ _ Hreach) in Hloop by (unfold adequate; simpl; lia).
    simpl in Hloop.
    destruct (Z.to_nat (max_posts - posts_collected st)) as [|fuel] eqn:Hfuel;
      [lia|].
    simpl in Hloop.
    destruct (Z.ltb_spec (posts_collected st) max_posts); [|lia].
    unfold bind in Hloop.
    pose proof (loop_turn_cases self group_id max_posts start_timestamp
                  end_timestamp st w) as Hc.
    cbv zeta in Hc.
    rewrite (feed_fetch_failed_empty self group_id _ _ _ Hfail) in Hc.
    destruct Hc as [[_ Hc]|[(Hne & _)|[Hne _]]]; try congruence.
    rewrite Hc in Hloop. unfold ret in Hloop. congruence. }
  subst st'.
  assert (Hok : state_ok start_timestamp end_timestamp st).
  { apply (collect_loop_invariant self group_id max_posts start_timestamp
           end_timestamp (state_ok start_timestamp end_timestamp)
           (state_ok_advance start_timestamp end_timestamp) _ _ _ _ _
           (state_ok_initial start_timestamp end_timestamp) Hloop). }
  eexists. eexists. split; [exact Hrun|]. simpl.
  repeat split. apply Hok.
Qed.

(** The run of the theorem above on a server that serves one batch of two
    posts and then loses the connection. *)
Lemma feed_failure_returns_partial_result_witness :
  exists r w',
    parse_group_data (parser_for (flaky_server [dated_post 1 30; dated_post 2 20]))
      "123" 10 None None false initial_world = (Some r, w') /\
    posts r = [dated_post 1 30; dated_post 2 20] /\
    total_posts r = 2 /\
    fp_posts_in_period (filter_period r) = 2.
Proof.
  apply (feed_failure_returns_partial_result
           (parser_for (flaky_server [dated_post 1 30; dated_post 2 20]))
           "123" 10 None None false initial_world
           {| all_posts := [dated_post 1 30; dated_post 2 20];
              posts_collected := 2; offset := 2; posts_in_period := 2 |}
           {| clock := 2;
              sent := sent (snd (loop_turn
                       (parser_for (flaky_server [dated_post 1 30; dated_post 2 20]))
                       "123" 10 None None initial_state
                       (snd (get_group_info
                              (parser_for (flaky_server [dated_post 1 30; dated_post 2 20]))
                              "123" initial_world)))) |}).
  - eapply reaches_turn.
    + simpl. lia.
    + vm_compute. reflexivity.
    + apply reaches_here.
  - simpl. lia.
  - vm_compute. reflexivity.
Defined.

(** A post later than the upper bound is passed over and the post after it
    is retained; a post earlier than the lower bound ends the batch. *)
Example late_post_skipped_old_post_stops :
  kept (Some 100) (Some 200)
    [dated_post 1 250; dated_post 2 150; dated_post 3 50; dated_post 4 120]
  = [dated_post 2 150].
Proof. reflexivity. Qed.

(** C1, at the wall of 101 posts with lower bound 100: the hundredth post is
    older than the bound and ends the scan of the first batch, yet the run
    goes on to a second batch and retains its post, which was met after the
    old one. *)
Theorem run_continues_after_old_post :
  exists r w',
    parse_group_data (parser_for (wall_server 1 wall_with_late_entry no_threads))
      "1" 200 (Some 100) None false initial_world = (Some r, w') /\
    nth_error wall_with_late_entry 99 = Some (dated_post 2 50) /\
    nth_error wall_with_late_entry 100 = Some (dated_post 3 120) /\
    posts r = repeat (dated_post 1 150) 99 ++ [dated_post 3 120] /\
    count_method "wall.get" (sent w') = 3%nat.
Proof.
  eexists. eexists. split; [vm_compute; reflexivity|].
  repeat split; vm_compute; reflexivity.
Qed.

(** C2, at upper bound 0 (the timestamp of 1970-01-01T00:00:00Z): the bound
    is falsy, the test against it is not made, and a post dated later than
    the bound is retained and counted. *)
Theorem zero_upper_bound_retains_later_post :
  exists r w',
    parse_group_data (parser_for (wall_server 1 [dated_post 1 5] no_threads))
      "1" 10 None (Some 0) false initial_world = (Some r, w') /\
    posts r = [dated_post 1 5] /\
    fp_posts_in_period (filter_period r) = 1.
Proof.
  eexists. eexists. split; [vm_compute; reflexivity|].
  split; reflexivity.
Qed.

(** C3, as the code has it.  When the outcome of the request is a failure
    of the transport, a body that is not JSON, or a body with an [error]
    field, [_make_request] returns the empty dictionary: the call is the
    same, in its value and in what it leaves behind, as a call answered by a
    body with neither [error] nor [response]. *)
Theorem make_request_failure_returns_empty_dict
    (A : Type) (H : Payload A) (self : VKGroupParser)
    (endpoint : nat -> params -> http_outcome A)
    (method : string) (ps : params) (w : world) :
  failed (endpoint (clock w) (with_credentials self ps)) = true ->
  fst (_make_request self endpoint method ps w) = empty_dict /\
  _make_request self endpoint method ps w =
  _make_request self (fun _ _ => JsonBody None None) method ps w.
Proof.
  unfold _make_request, failed.
  destruct (endpoint (clock w) (with_credentials self ps)) as [c| |[e|] r];
    simpl; intros Hf; try discriminate; split; reflexivity.
Qed.

Lemma make_request_failure_returns_empty_dict_witness :
  fst (_make_request (parser_for (wall_server 1 [] no_threads)) connection_down
         "wall.get" [] initial_world) = empty_dict /\
  _make_request (parser_for (wall_server 1 [] no_threads)) connection_down
    "wall.get" [] initial_world =
  _make_request (parser_for (wall_server 1 [] no_threads))
    (fun _ _ => JsonBody None None) "wall.get" [] initial_world.
Proof.
  apply (make_request_failure_returns_empty_dict wall_response _
           (parser_for (wall_server 1 [] no_threads)) connection_down
           "wall.get" [] initial_world).
  reflexivity.
Defined.

(** C3 does not hold as stated: a call that meets a connection failure and
    a call whose token the provider refuses both return what a call with an
    empty body returns, so the caller sees neither a failure nor its
    cause. *)
Lemma make_request_hides_failures :
  _make_request (parser_for (wall_server 1 [] no_threads)) connection_down
    "wall.get" (wall_params "1" 100 0)
    initial_world =
  _make_request (parser_for (wall_server 1 [] no_threads)) empty_body
    "wall.get" (wall_params "1" 100 0)
    initial_world /\
  _make_request (parser_for (wall_server 1 [] no_threads)) token_refused
    "wall.get" (wall_params "1" 100 0)
    initial_world =
  _make_request (parser_for (wall_server 1 [] no_threads)) empty_body
    "wall.get" (wall_params "1" 100 0)
    initial_world.
Proof. split; reflexivity. Qed.

(** C4, as the code has it.  A run looks the group up once at its start.
    When the identifier is numeric ([isdigit] holds of it, in whatever
    table, or it starts with a hyphen) that is the only lookup.  Otherwise
    nothing is kept from that lookup: every feed request and every comment
    request of the run has a lookup of its own before it, so a run that
    makes a first turn of the loop sends at least two. *)
Theorem group_lookup_repeated_per_call {T : Py.Digits}
    (self : VKGroupParser) (group_id : string) (max_posts : Z)
    (start_timestamp end_timestamp : option Z) (include_comments : bool)
    (w : world) :
  exists r w' d,
    parse_group_data self group_id max_posts start_timestamp end_timestamp
      include_comments w = (Some r, w') /\
    sent w' = sent w ++ d /\
    if needs_lookup group_id then
      (1 + count_method "wall.get" d + count_method "wall.getComments" d
       <= count_method "groups.getById" d)%nat /\
      (0 < max_posts -> (2 <= count_method "groups.getById" d)%nat)
    else count_method "groups.getById" d = 1%nat.
Proof.
  destruct (parse_group_data_trace self group_id max_posts start_timestamp
              end_timestamp include_comments w)
    as (r & w' & dl & dc & Hrun & Hs & Htl & Hbl & Hll & Hbc & _).
  exists r, w'. eexists. split; [exact Hrun|]. split; [exact Hs|].
  pose proof (balanced_app group_id dl dc Hbl Hbc) as Hb.
  unfold balanced, lookups, feeds, threads in *.
  rewrite !count_method_app in *.
  change (count_method "wall.get"
            [request_of self "groups.getById" (lookup_params group_id)]) with 0%nat.
  change (count_method "wall.getComments"
            [request_of self "groups.getById" (lookup_params group_id)]) with 0%nat.
  change (count_method "groups.getById"
            [request_of self "groups.getById" (lookup_params group_id)]) with 1%nat.
  destruct (needs_lookup group_id).
  - split; [lia|]. intros Hpos. specialize (Hll eq_refl Hpos). lia.
  - lia.
Qed.

(** C4 does not hold as stated: for the group name [big_asu], a wall of one
    post and its comments, the run sends four lookups, not one. *)
Lemma group_lookup_not_cached :
  exists r w',
    parse_group_data (parser_for (wall_server 1 [commented_post 7 150 150] long_thread))
      "big_asu" 200 None None true initial_world = (Some r, w') /\
    count_method "groups.getById" (sent w') = 4%nat /\
    count_method "groups.getById" (sent w') <> 1%nat.
Proof.
  eexists. eexists. split; [vm_compute; reflexivity|].
  split; [vm_compute; reflexivity | vm_compute; discriminate].
Qed.

(** C6, as the code has it.  With [include_comments] set, the comment loop
    makes one call of [get_post_comments] for each post of the result that
    has a truthy identifier and a comment count above zero, in the order of
    the posts, and none for any other post; each call sends, after the
    lookup where one is needed, at most one comment request, which asks for
    the first hundred comments of its post: no second page is asked for.
    The comments of the result are what the server answers to these
    requests, in their order, every comment with the identifier its request
    asks for as [parent_post_id]; and that identifier is the one of a post
    of the result. *)
Theorem comments_belong_to_retained_posts {T : Py.Digits}
    (self : VKGroupParser) (group_id : string) (max_posts : Z)
    (start_timestamp end_timestamp : option Z) (w : world) :
  exists r w' dl chunks,
    parse_group_data self group_id max_posts start_timestamp end_timestamp
      true w = (Some r, w') /\
    sent w' = sent w ++ dl ++ List.concat chunks /\
    count_method "wall.getComments" dl = 0%nat /\
    Forall2 (fetch_of self group_id) (filter eligible (posts r)) chunks /\
    Forall (fun p => In p (posts r) /\ comments_count p <> 0)
           (filter eligible (posts r)) /\
    comments r = answers self (clock w) (dl ++ List.concat chunks) /\
    Forall (tagged_by (posts r)) (comments r).
Proof.
  destruct (parse_group_data_unfold self group_id max_posts start_timestamp
              end_timestamp true w) as (st & wl & Hloop & Hrun).
  cbv zeta in Hrun.
  destruct (collect_loop_trace self group_id max_posts start_timestamp
              end_timestamp (Z.to_nat max_posts) initial_state
              (snd (get_group_info self group_id w)))
    as (dl & Hsl & Htl & _).
  pose proof (collect_loop_pace self group_id max_posts start_timestamp
                end_timestamp (Z.to_nat max_posts) initial_state
                (snd (get_group_info self group_id w))) as Hpace.
  rewrite Hloop in Hsl, Hpace. simpl in Hsl, Hpace.
  rewrite get_group_info_world in Hsl, Hpace. simpl in Hsl, Hpace.
  destruct (collect_comments_answers self group_id (all_posts st) [] wl)
    as (chunks & Hfetch & Hsc & Hvc).
  destruct (collect_comments_spec self group_id (all_posts st) [] wl)
    as (dc & fetched & _ & Hfc & Htag & _).
  simpl in Hvc, Hfc.
  exists {| group_info := fst (get_group_info self group_id w);
            posts := all_posts st;
            comments := fst (collect_comments self group_id (all_posts st) [] wl);
            total_posts := Py.len (all_posts st);
            total_comments :=
              Py.len (fst (collect_comments self group_id (all_posts st) [] wl));
            filter_period :=
              {| fp_start_date := start_timestamp;
                 fp_end_date := end_timestamp;
                 fp_posts_in_period := posts_in_period st |} |}.
  exists (snd (collect_comments self group_id (all_posts st) [] wl)).
  exists (request_of self "groups.getById" (lookup_params group_id) :: dl), chunks.
  split; [exact Hrun|]. cbn [posts comments].
  split; [rewrite Hsc, Hsl, <- !app_assoc; reflexivity|].
  split.
  { change (request_of self "groups.getById" (lookup_params group_id) :: dl)
      with ([request_of self "groups.getById" (lookup_params group_id)] ++ dl).
    rewrite count_method_app. unfold threads in Htl. rewrite Htl. reflexivity. }
  split; [exact Hfetch|].
  split.
  { apply Forall_forall. intros p Hp. apply filter_In in Hp.
    destruct Hp as [Hin He]. split; [exact Hin|].
    unfold eligible in He. destruct (post_id p); [|discriminate].
    apply andb_prop in He. destruct He as [_ He]. apply Z.gtb_lt in He. lia. }
  split; [|rewrite Hfc; exact Htag].
  rewrite Hvc.
  change (request_of self "groups.getById" (lookup_params group_id) :: dl)
    with ([request_of self "groups.getById" (lookup_params group_id)] ++ dl).
  rewrite <- app_assoc, !answers_app.
  rewrite (answers_none self _ dl Htl).
  cbn [VKParser.answers List.length app]. unfold request_of at 1.
  cbn [req_method String.eqb Ascii.eqb Bool.eqb]. cbn [app].
  f_equal. rewrite Hsl, !length_app in Hpace. cbn [List.length] in Hpace.
  cbn [List.length]. lia.
Qed.

(** C6 does not hold as stated: for a post that reports 150 comments, all
    held by the server, the run sends one comment request and returns the
    first hundred comments; the comment endpoint is not paginated. *)
Lemma comments_not_paginated :
  exists r w',
    parse_group_data (parser_for (wall_server 1 [commented_post 7 150 150] long_thread))
      "1" 200 None None true initial_world = (Some r, w') /\
    List.length (long_thread 7) = 150%nat /\
    count_method "wall.getComments" (sent w') = 1%nat /\
    List.length (comments r) = 100%nat.
Proof.
  eexists. eexists. split; [vm_compute; reflexivity|].
  repeat split; vm_compute; reflexivity.
Qed.

End ParserFacts.

(** * Properties of the analysis *)

Module AnalyzerFacts.

Import DataAnalyzer.

(** *** Words and their order of first encounter *)

Lemma text_eqb_eq (a b : text) : text_eqb a b = true <-> a = b.
Proof.
  revert b. induction a as [|x a IH]; destruct b as [|y b]; simpl;
    try (split; congruence).
  rewrite andb_true_iff, N.eqb_eq, IH. split.
  - intros [-> ->]. reflexivity.
  - intros H. inversion H. auto.
Qed.

Lemma text_eqb_refl (a : text) : text_eqb a a = true.
Proof. apply text_eqb_eq. reflexivity. Qed.

Lemma text_eqb_neq (a b : text) : text_eqb a b = false <-> a <> b.
Proof.
  rewrite <- text_eqb_eq. destruct (text_eqb a b); split; congruence.
Qed.

Lemma mem_In (w : text) (words : list text) : mem w words = true <-> In w words.
Proof.
  unfold mem. rewrite existsb_exists. split.
  - intros (x & Hin & He). apply text_eqb_eq in He. subst. exact Hin.
  - intros Hin. exists w. split; [exact Hin | apply text_eqb_refl].
Qed.

Lemma occurrences_app (w : text) (l1 l2 : list text) :
  occurrences w (l1 ++ l2) = occurrences w l1 + occurrences w l2.
Proof.
  unfold occurrences, Py.len. rewrite filter_app, length_app. lia.
Qed.

Lemma occurrences_nonneg (w : text) (l : list text) : 0 <= occurrences w l.
Proof. unfold occurrences, Py.len. lia. Qed.

Lemma occurrences_absent (w : text) (l : list text) :
  ~ In w l -> occurrences w l = 0.
Proof.
  intros Hn. unfold occurrences. replace (filter (text_eqb w) l) with (@nil text).
  - reflexivity.
  - symmetry. induction l as [|x l IH]; simpl; [reflexivity|].
    destruct (text_eqb w x) eqn:He.
    + apply text_eqb_eq in He. subst. exfalso. apply Hn. left. reflexivity.
    + apply IH. intros Hin. apply Hn. right. exact Hin.
Qed.

Lemma occurrences_present (w : text) (l : list text) :
  In w l -> 0 < occurrences w l.
Proof.
  intros Hin. apply in_split in Hin. destruct Hin as (l1 & l2 & ->).
  rewrite occurrences_app. pose proof (occurrences_nonneg w l1).
  unfold occurrences at 2. simpl. rewrite text_eqb_refl.
  unfold Py.len. simpl. lia.
Qed.

Lemma occurrences_snoc (k w : text) (l : list text) :
  occurrences k (l ++ [w]) = occurrences k l + (if text_eqb k w then 1 else 0).
Proof.
  rewrite occurrences_app. f_equal. unfold occurrences. simpl.
  destruct (text_eqb k w); reflexivity.
Qed.

Lemma first_index_app_in (w : text) (l1 l2 : list text) :
  In w l1 -> first_index w (l1 ++ l2) = first_index w l1.
Proof.
  induction l1 as [|x l1 IH]; simpl; intros Hin; [contradiction|].
  destruct (text_eqb x w) eqn:He; [reflexivity|].
  f_equal. apply IH. destruct Hin as [->|Hin]; [|exact Hin].
  rewrite text_eqb_refl in He. discriminate.
Qed.

Lemma first_index_in_lt (w : text) (l : list text) :
  In w l -> (first_index w l < List.length l)%nat.
Proof.
  induction l as [|x l IH]; simpl; intros Hin; [contradiction|].
  destruct (text_eqb x w) eqn:He; [lia|].
  destruct Hin as [->|Hin]; [rewrite text_eqb_refl in He; discriminate|].
  specialize (IH Hin). lia.
Qed.

Lemma first_index_snoc_new (w : text) (l : list text) :
  ~ In w l -> first_index w (l ++ [w]) = List.length l.
Proof.
  induction l as [|x l IH]; simpl; intros Hn.
  - rewrite text_eqb_refl. reflexivity.
  - destruct (text_eqb x w) eqn:He.
    + apply text_eqb_eq in He. subst. exfalso. apply Hn. left. reflexivity.
    + f_equal. apply IH. intros Hin. apply Hn. right. exact Hin.
Qed.

(** *** [Counter] *)

Lemma Counter_snoc (words : list text) (w : text) :
  Counter (words ++ [w]) = counter_add (Counter words) w.
Proof. unfold Counter. rewrite fold_left_app. reflexivity. Qed.

(** Adding a word bumps its entry where it stands, or opens a new entry at
    the end. *)
Lemma counter_add_cases (c : list (text * Z)) (w : text) :
  (exists l1 n l2, c = l1 ++ (w, n) :: l2 /\ ~ In w (map fst l1) /\
                   counter_add c w = l1 ++ (w, n + 1) :: l2) \/
  (~ In w (map fst c) /\ counter_add c w = c ++ [(w, 1)]).
Proof.
  induction c as [|[k n] c IH]; simpl.
  - right. split; [tauto | reflexivity].
  - destruct (text_eqb k w) eqn:He.
    + apply text_eqb_eq in He. subst k. left. exists [], n, c. simpl. auto.
    + apply text_eqb_neq in He.
      destruct IH as [(l1 & m & l2 & -> & Hn & Hadd)|[Hn Hadd]].
      * left. exists ((k, n) :: l1), m, l2. simpl. rewrite Hadd.
        repeat split; try reflexivity. intros [Hk|Hin]; [congruence | tauto].
      * right. rewrite Hadd. split; [|reflexivity].
        intros [Hk|Hin]; [congruence | tauto].
Qed.

Lemma StronglySorted_in_ext {A : Type} (R R' : A -> A -> Prop) (l : list A) :
  (forall a b, In a l -> In b l -> R a b -> R' a b) ->
  StronglySorted R l -> StronglySorted R' l.
Proof.
  induction l as [|x l IH]; intros Hext Hs; [constructor|].
  inversion Hs as [|? ? Hs' Hall]; subst. constructor.
  - apply IH; [|exact Hs']. intros a b Ha Hb. apply Hext; right; assumption.
  - rewrite Forall_forall in *. intros y Hy. apply Hext.
    + left. reflexivity.
    + right. exact Hy.
    + apply Hall. exact Hy.
Qed.

Lemma StronglySorted_snoc {A : Type} (R : A -> A -> Prop) (l : list A) (x : A) :
  StronglySorted R l -> Forall (fun a => R a x) l -> StronglySorted R (l ++ [x]).
Proof.
  induction l as [|y l IH]; simpl; intros Hs Hall.
  - constructor; constructor.
  - inversion Hs as [|? ? Hs' Hy]; subst. inversion Hall as [|? ? Hyx Hall']; subst.
    constructor.
    + apply IH; assumption.
    + apply Forall_app. split; [exact Hy | constructor; [exact Hyx | constructor]].
Qed.

Lemma Counter_counted (words : list text) : counted words (Counter words).
Proof.
  induction words as [|w words IH] using rev_ind.
  - split; simpl; try tauto; constructor.
  - rewrite Counter_snoc. destruct IH as [Hkeys Hnodup Hval Hord].
    assert (Hold : StronglySorted
              (fun a b => (first_index a (words ++ [w]) <
                           first_index b (words ++ [w]))%nat)
              (map fst (Counter words))).
    { eapply StronglySorted_in_ext; [|exact Hord]. intros a b Ha Hb Hlt.
      rewrite !first_index_app_in by (apply Hkeys; assumption). exact Hlt. }
    destruct (counter_add_cases (Counter words) w)
      as [(l1 & n & l2 & Hc & Hn & Hadd)|[Hn Hadd]]; rewrite Hadd.
    + assert (Hmap : map fst (l1 ++ (w, n + 1) :: l2) = map fst (Counter words)).
      { rewrite Hc, !map_app. reflexivity. }
      split.
      * intros k. rewrite Hmap, Hkeys, in_app_iff. simpl. split; [tauto|].
        intros [Hk|[<-|[]]]; [exact Hk|]. apply Hkeys. rewrite Hc, map_app.
        apply in_or_app. right. left. reflexivity.
      * rewrite Hmap. exact Hnodup.
      * intros k m Hin. rewrite occurrences_snoc.
        apply in_app_or in Hin. destruct Hin as [Hin|[Heq|Hin]].
        -- assert (Hk : k <> w).
           { intros ->. apply Hn. apply in_map_iff. exists (w, m). auto. }
           apply text_eqb_neq in Hk. rewrite Hk.
           rewrite (Hval k m); [lia|]. rewrite Hc. apply in_or_app. left. exact Hin.
        -- inversion Heq; subst k m. rewrite text_eqb_refl.
           rewrite (Hval w n); [lia|]. rewrite Hc. apply in_or_app. right.
           left. reflexivity.
        -- assert (Hk : k <> w).
           { intros ->. rewrite Hc, map_app in Hnodup. simpl in Hnodup.
             apply NoDup_remove_2 in Hnodup. apply Hnodup. apply in_or_app.
             right. apply in_map_iff. exists (w, m). auto. }
           apply text_eqb_neq in Hk. rewrite Hk.
           rewrite (Hval k m); [lia|]. rewrite Hc. apply in_or_app. right.
           right. exact Hin.
      * rewrite Hmap. exact Hold.
    + assert (Hw : ~ In w words) by (rewrite <- Hkeys; exact Hn).
      split.
      * intros k. rewrite map_app, !in_app_iff, Hkeys. reflexivity.
      * rewrite map_app. simpl. apply NoDup_app.
        -- exact Hnodup.
        -- constructor; [tauto | constructor].
        -- intros a Ha [<-|[]]. exact (Hn Ha).
      * intros k m Hin. rewrite occurrences_snoc.
        apply in_app_or in Hin. destruct Hin as [Hin|[Heq|[]]].
        -- assert (Hk : k <> w).
           { intros ->. apply Hn. apply in_map_iff. exists (w, m). auto. }
           apply text_eqb_neq in Hk. rewrite Hk.
           rewrite (Hval k m Hin). lia.
        -- inversion Heq; subst k m. rewrite text_eqb_refl.
           rewrite (occurrences_absent w words Hw). reflexivity.
      * rewrite map_app. simpl. apply StronglySorted_snoc; [exact Hold|].
        apply Forall_forall. intros a Ha. apply Hkeys in Ha.
        rewrite first_index_app_in by exact Ha.
        rewrite first_index_snoc_new by exact Hw.
        apply first_index_in_lt. exact Ha.
Qed.

(** *** The stable descending sort *)

Lemma insert_desc_in (x z : text * Z) (l : list (text * Z)) :
  In z (insert_desc x l) <-> z = x \/ In z l.
Proof.
  induction l as [|y l IH]; simpl.
  - split; intros [H|H]; auto.
  - destruct (snd y <=? snd x); simpl.
    + split; intros [H|H]; auto.
    + rewrite IH. split; intros H; tauto.
Qed.

Lemma sorted_desc_in (z : text * Z) (l : list (text * Z)) :
  In z (sorted_desc l) <-> In z l.
Proof.
  induction l as [|x l IH]; simpl; [tauto|].
  rewrite insert_desc_in, IH. split; intros [H|H]; auto.
Qed.

Lemma insert_desc_sorted (R : text * Z -> text * Z -> Prop)
    (x : text * Z) (l : list (text * Z)) :
  (forall a b, R a b -> snd b <= snd a) ->
  (forall y, In y l -> snd y <= snd x -> R x y) ->
  (forall y, In y l -> snd x < snd y -> R y x) ->
  StronglySorted R l -> StronglySorted R (insert_desc x l).
Proof.
  intros Hmono. induction l as [|y l IH]; intros Hle Hgt Hs; simpl.
  - constructor; constructor.
  - inversion Hs as [|? ? Hs' Hall]; subst.
    destruct (Z.leb_spec (snd y) (snd x)) as [Hyx|Hxy].
    + constructor; [exact Hs|]. constructor.
      * apply Hle; [left; reflexivity | exact Hyx].
      * apply Forall_forall. intros z Hz. apply Hle; [right; exact Hz|].
        rewrite Forall_forall in Hall. specialize (Hmono y z (Hall z Hz)). lia.
    + constructor.
      * apply IH; [| |exact Hs'].
        -- intros z Hz. apply Hle. right. exact Hz.
        -- intros z Hz. apply Hgt. right. exact Hz.
      * apply Forall_forall. intros z Hz. apply insert_desc_in in Hz.
        destruct Hz as [->|Hz].
        -- apply Hgt; [left; reflexivity | exact Hxy].
        -- rewrite Forall_forall in Hall. apply Hall. exact Hz.
Qed.

Lemma sorted_desc_stable (l : list (text * Z)) :
  StronglySorted (stable_order l) (sorted_desc l).
Proof.
  induction l as [|x l IH]; simpl; [constructor|].
  apply insert_desc_sorted.
  - intros a b [H|[H _]]; lia.
  - intros y Hy Hle. apply (proj1 (sorted_desc_in y l)) in Hy.
    destruct (Z.eq_dec (snd x) (snd y)) as [He|Hne].
    + right. split; [exact He|]. apply in_split in Hy.
      destruct Hy as (l2 & l3 & ->). exists [], l2, l3. reflexivity.
    + left. lia.
  - intros y Hy Hlt. left. exact Hlt.
  - eapply StronglySorted_in_ext; [|exact IH].
    intros a b _ _ [H|[He (l1 & l2 & l3 & ->)]]; [left; exact H|].
    right. split; [exact He|]. exists (x :: l1), l2, l3. reflexivity.
Qed.

Lemma firstn_in {A : Type} (n : nat) (l : list A) (x : A) :
  In x (firstn n l) -> In x l.
Proof.
  revert l. induction n as [|n IH]; intros [|y l]; simpl; try tauto.
  intros [H|H]; [left; exact H | right; apply IH; exact H].
Qed.

Lemma StronglySorted_firstn {A : Type} (R : A -> A -> Prop) (n : nat) (l : list A) :
  StronglySorted R l -> StronglySorted R (firstn n l).
Proof.
  revert l. induction n as [|n IH]; intros [|y l] Hs; simpl; try constructor.
  - apply IH. inversion Hs; assumption.
  - inversion Hs as [|? ? _ Hall]; subst. rewrite Forall_forall in *.
    intros z Hz. apply Hall. eapply firstn_in. exact Hz.
Qed.

Lemma StronglySorted_app_r {A : Type} (R : A -> A -> Prop) (l1 l2 : list A) :
  StronglySorted R (l1 ++ l2) -> StronglySorted R l2.
Proof.
  induction l1 as [|x l1 IH]; simpl; intros Hs; [exact Hs|].
  apply IH. inversion Hs; assumption.
Qed.

Lemma precedes_keys (R : text -> text -> Prop) (c : list (text * Z))
    (x y : text * Z) :
  StronglySorted R (map fst c) -> precedes c x y -> R (fst x) (fst y).
Proof.
  intros Hs (l1 & l2 & l3 & ->). rewrite map_app in Hs.
  apply StronglySorted_app_r in Hs. simpl in Hs.
  inversion Hs as [|? ? _ Hall]; subst. rewrite Forall_forall in Hall.
  apply Hall. rewrite map_app. apply in_or_app. right. left. reflexivity.
Qed.

(** Two runs of the extraction: words of equal count keep the order in
    which they are first met, and URLs, mentions, hashtags, short words and
    stop words leave no token. *)
Example extract_keywords_ties :
  extract_keywords latin_cyrillic [Some (u "beta alpha"); Some (u "Beta, ALPHA; gamma")]
    3 50
  = [(u "beta", 2); (u "alpha", 2); (u "gamma", 1)].
Proof. vm_compute. reflexivity. Qed.

Example extract_keywords_cleaning :
  extract_keywords latin_cyrillic
    [Some (u "Это датчик: https://vk.com/wall-1_2?x=%D0 @big_asu #plc и the Датчик"); None]
    3 1
  = [(u "датчик", 2)].
Proof. vm_compute. reflexivity. Qed.

(** Filtering keeps the occurrences of a word that passes the filter, and
    the order in which such words are first met. *)
Lemma occurrences_filter (f : text -> bool) (w : text) (l : list text) :
  f w = true -> occurrences w (filter f l) = occurrences w l.
Proof.
  intros Hf. unfold occurrences. f_equal.
  induction l as [|x l IH]; simpl; [reflexivity|].
  destruct (text_eqb w x) eqn:He.
  - apply text_eqb_eq in He. subst x. rewrite Hf. simpl.
    rewrite text_eqb_refl. f_equal. exact IH.
  - destruct (f x); simpl; [rewrite He|]; exact IH.
Qed.

Lemma first_index_filter (f : text -> bool) (a b : text) (l : list text) :
  f a = true -> f b = true ->
  ((first_index a (filter f l) < first_index b (filter f l))%nat <->
   (first_index a l < first_index b l)%nat).
Proof.
  intros Ha Hb. induction l as [|x l IH]; simpl; [reflexivity|].
  destruct (f x) eqn:Hx; simpl.
  - destruct (text_eqb x a), (text_eqb x b); lia.
  - destruct (text_eqb x a) eqn:Hxa.
    { apply text_eqb_eq in Hxa. subst x. congruence. }
    destruct (text_eqb x b) eqn:Hxb.
    { apply text_eqb_eq in Hxb. subst x. congruence. }
    lia.
Qed.

Lemma StronglySorted_app_cross {A : Type} (R : A -> A -> Prop) (l1 l2 : list A)
    (x y : A) :
  StronglySorted R (l1 ++ l2) -> In x l1 -> In y l2 -> R x y.
Proof.
  induction l1 as [|z l1 IH]; simpl; intros Hs Hx Hy; [contradiction|].
  inversion Hs as [|? ? Hs' Hall]; subst. destruct Hx as [->|Hx].
  - rewrite Forall_forall in Hall. apply Hall. apply in_or_app. right. exact Hy.
  - apply IH; assumption.
Qed.

(** C7.  The ranked list of [extract_keywords] is a function of the series
    and the two settings, so running it again gives the same list.  Every
    word of the list is a token of at least [min_length] characters that is
    no stop word, and stands with its number of occurrences among the
    tokens; the list has at most [top_n] entries (none when [top_n] is not
    positive); it is ranked by falling count, words of equal count in the
    order in which they are first met; and a token of at least [min_length]
    characters that is no stop word is missing from the list only when the
    list is full, and then every entry of the list ranks before it: the
    list holds the words that rank highest, also where words of equal count
    meet the cap. *)
Theorem extract_keywords_ranking
    (U : unicode) (text_series : list (option text)) (min_length top_n : Z) :
  let toks := tokens U text_series in
  let ranked := extract_keywords U text_series min_length top_n in
  Forall (fun wc => In (fst wc) toks /\
                    min_length <= Py.len (fst wc) /\ ~ In (fst wc) stop_words /\
                    snd wc = occurrences (fst wc) toks /\ 0 < snd wc) ranked /\
  Py.len ranked <= Z.max 0 top_n /\
  StronglySorted (ranked_before toks) ranked /\
  (forall w, In w toks -> min_length <= Py.len w -> ~ In w stop_words ->
     In (w, occurrences w toks) ranked \/
     (Py.len ranked = Z.max 0 top_n /\
      Forall (fun x => ranked_before toks x (w, occurrences w toks)) ranked)).
Proof.
  intros toks ranked. unfold ranked, extract_keywords, most_common.
  fold toks. set (words := filter (keep_word min_length) toks).
  pose proof (Counter_counted words) as Hc.
  assert (Hkept : forall w, In w words <->
            In w toks /\ min_length <= Py.len w /\ ~ In w stop_words).
  { intros w. unfold words. rewrite filter_In. unfold keep_word.
    rewrite andb_true_iff, negb_true_iff, Z.geb_le.
    split; intros (Hin & Hlen & Hstop); repeat split; try assumption.
    - intros Hs. apply (proj2 (mem_In w stop_words)) in Hs. congruence.
    - destruct (mem w stop_words) eqn:Hm; [|reflexivity].
      exfalso. apply Hstop. apply (proj1 (mem_In w stop_words)). exact Hm. }
  assert (Hkeep : forall w, In w words -> keep_word min_length w = true).
  { intros w Hw. unfold words in Hw. apply filter_In in Hw. apply Hw. }
  assert (Hentry : forall x, In x (sorted_desc (Counter words)) ->
            In (fst x) words /\ snd x = occurrences (fst x) toks).
  { intros [w n] Hin. cbn [fst snd].
    apply (proj1 (sorted_desc_in _ _)) in Hin.
    assert (Hw : In w words).
    { apply (counted_keys _ _ Hc). apply in_map_iff. exists (w, n). auto. }
    split; [exact Hw|].
    rewrite (counted_value _ _ Hc w n Hin). unfold words.
    apply occurrences_filter. apply Hkeep. exact Hw. }
  assert (Hrank : forall x y,
            In x (sorted_desc (Counter words)) ->
            In y (sorted_desc (Counter words)) ->
            ranked_before words x y -> ranked_before toks x y).
  { intros x y Hx Hy [H|[He Hlt]]; [left; exact H|]. right. split; [exact He|].
    apply (first_index_filter (keep_word min_length)); try exact Hlt;
      apply Hkeep; [apply (Hentry x Hx) | apply (Hentry y Hy)]. }
  assert (Hsorted : StronglySorted (ranked_before words) (sorted_desc (Counter words))).
  { eapply StronglySorted_in_ext; [|apply sorted_desc_stable].
    intros a b _ _ [H|[He Hp]]; [left; exact H|]. right. split; [exact He|].
    apply (precedes_keys _ _ _ _ (counted_order _ _ Hc) Hp). }
  split; [|split; [|split]].
  - apply Forall_forall. intros x Hin. apply firstn_in in Hin.
    destruct (Hentry x Hin) as [Hw Hn]. pose proof Hw as Hk.
    apply Hkept in Hk. destruct Hk as (Htok & Hlen & Hstop).
    repeat split; try assumption.
    rewrite Hn, <- (occurrences_filter (keep_word min_length))
      by (apply Hkeep; exact Hw).
    apply occurrences_present. exact Hw.
  - unfold Py.len. pose proof (firstn_le_length (Z.to_nat top_n)
                                 (sorted_desc (Counter words))). lia.
  - apply StronglySorted_firstn.
    eapply StronglySorted_in_ext; [|exact Hsorted].
    intros a b Ha Hb. apply Hrank; assumption.
  - intros w Htok Hlen Hstop.
    assert (Hw : In w words) by (apply Hkept; auto).
    assert (Hin : In (w, occurrences w toks) (sorted_desc (Counter words))).
    { apply (proj2 (sorted_desc_in _ _)).
      apply (counted_keys _ _ Hc) in Hw. apply in_map_iff in Hw.
      destruct Hw as ([w0 n] & Hfst & Hin0). simpl in Hfst. subst w0.
      rewrite (counted_value _ _ Hc w n Hin0) in Hin0.
      unfold words in Hin0 at 1.
      rewrite occurrences_filter in Hin0; [exact Hin0|].
      apply Hkeep. apply Hkept. auto. }
    rewrite <- (firstn_skipn (Z.to_nat top_n) (sorted_desc (Counter words))) in Hin.
    apply in_app_or in Hin. destruct Hin as [Hin|Hin]; [left; exact Hin|].
    right. split.
    + assert (Hlt : (Z.to_nat top_n < List.length (sorted_desc (Counter words)))%nat).
      { destruct (Nat.lt_ge_cases (Z.to_nat top_n)
                    (List.length (sorted_desc (Counter words)))) as [H|H];
          [exact H|].
        rewrite skipn_all2 in Hin by exact H. contradiction. }
      unfold Py.len. rewrite firstn_length_le by lia. lia.
    + apply Forall_forall. intros x Hx. apply Hrank.
      * eapply firstn_in. exact Hx.
      * rewrite <- (firstn_skipn (Z.to_nat top_n) (sorted_desc (Counter words))).
        apply in_or_app. right. exact Hin.
      * apply (StronglySorted_app_cross _ (firstn (Z.to_nat top_n)
                                             (sorted_desc (Counter words)))
                 (skipn (Z.to_nat top_n) (sorted_desc (Counter words))));
          [rewrite firstn_skipn; exact Hsorted | exact Hx | exact Hin].
Qed.

(** *** Mentions of a term *)

Section Mentions.

Variable U : unicode.

Local Abbreviation whole_word_at := (DataAnalyzer.whole_word_at U).
Local Abbreviation whole_word_count := (DataAnalyzer.whole_word_count U).
Local Abbreviation covered := (DataAnalyzer.covered U).

Lemma rmatch_literal (t : text) :
  forall prev s k,
    rmatch U (literal t) prev s k =
    match strip_prefix t s with
    | Some rest => k (after_literal t prev) rest
    | None => None
    end.
Proof.
  induction t as [|c t IH]; intros prev s k; simpl; [reflexivity|].
  destruct s as [|x s]; [reflexivity|].
  destruct (N.eqb_spec x c) as [->|Hne]; [|reflexivity].
  rewrite IH. reflexivity.
Qed.

Lemma strip_prefix_length (t s rest : text) :
  strip_prefix t s = Some rest ->
  s = t ++ rest.
Proof.
  revert s. induction t as [|c t IH]; intros s; simpl.
  - intros H. inversion H. reflexivity.
  - destruct s as [|x s]; [discriminate|].
    destruct (N.eqb_spec x c) as [->|Hne]; [|discriminate].
    intros H. f_equal. apply IH. exact H.
Qed.

Lemma match_length_term (t : text) (prev : option N) (s : text) :
  match_length U (term_pattern t) prev s =
  if whole_word_at t prev s then Some (List.length t) else None.
Proof.
  unfold match_length, term_pattern, whole_word_at. simpl.
  destruct (boundary U prev s); simpl; [|reflexivity].
  rewrite rmatch_literal.
  destruct (strip_prefix t s) as [rest|] eqn:Hp; [|reflexivity].
  destruct (boundary U (after_literal t prev) rest); [|reflexivity].
  apply strip_prefix_length in Hp. subst s. rewrite length_app.
  f_equal. lia.
Qed.

Lemma covered_prefix (t rest : text) (prev : option N) :
  Forall (fun c => is_word U c = true) t ->
  word_before U prev = true ->
  covered (List.length t) prev (t ++ rest).
Proof.
  revert prev. induction t as [|c t IH]; intros prev Hall Hp; simpl; [exact I|].
  inversion Hall as [|? ? Hc Hall']; subst.
  split; [exact Hp|]. split; [exact Hc|]. apply IH; [exact Hall' | exact Hc].
Qed.

Lemma findall_term_count (t : text) :
  t <> [] ->
  Forall (fun c => is_word U c = true) t ->
  forall s skip prev,
    covered skip prev s ->
    List.length (findall_from U (term_pattern t) skip prev s) =
    whole_word_count t prev s.
Proof.
  intros Hne Hall. induction s as [|x s IH]; intros skip prev Hcov.
  - reflexivity.
  - cbn [findall_from whole_word_count]. destruct skip as [|skip].
    + rewrite match_length_term.
      destruct (whole_word_at t prev (x :: s)) eqn:Hw.
      * destruct t as [|c t']; [congruence|]. cbn [List.length Nat.add].
        f_equal. apply IH.
        unfold whole_word_at in Hw. apply andb_prop in Hw. destruct Hw as [_ Hw].
        destruct (strip_prefix (c :: t') (x :: s)) as [rest|] eqn:Hp;
          [|discriminate].
        apply strip_prefix_length in Hp. simpl in Hp. inversion Hp; subst.
        inversion Hall as [|? ? Hc Hall']; subst.
        apply covered_prefix; [exact Hall' | exact Hc].
      * simpl. apply IH. exact I.
    + destruct Hcov as (Hp & Hx & Hcov).
      assert (Hw : whole_word_at t prev (x :: s) = false).
      { unfold whole_word_at, boundary. simpl. rewrite Hp, Hx. reflexivity. }
      rewrite Hw. simpl. apply IH. exact Hcov.
Qed.

(** The count of a term is the number of positions of the text at which the
    term stands between two word boundaries. *)
Lemma count_mentions_whole_words (t s : text) :
  t <> [] ->
  Forall (fun c => is_word U c = true) t ->
  count_mentions U t s = Z.of_nat (whole_word_count t None s).
Proof.
  intros Hne Hall. unfold count_mentions, findall, Py.len.
  rewrite (findall_term_count t Hne Hall s 0 None I). reflexivity.
Qed.

(** The dictionary of the loop over the terms: each entry is a term of the
    vocabulary with its count, which is positive. *)
Lemma mentions_set_in (d : list (text * Z)) (t : text) (c : Z) (z : text * Z) :
  In z (mentions_set d t c) -> z = (t, c) \/ In z d.
Proof.
  induction d as [|[k n] d IH]; simpl.
  - intros [<-|[]]. left. reflexivity.
  - destruct (text_eqb k t) eqn:He; simpl.
    + intros [<-|H]; [|right; right; exact H].
      apply text_eqb_eq in He. subst. left. reflexivity.
    + intros [<-|H]; [right; left; reflexivity|].
      destruct (IH H) as [->|H']; [left; reflexivity | right; right; exact H'].
Qed.

Lemma tech_mentions_of_spec (terms : list text) (all_text : text) :
  Forall (fun tc => In (fst tc) terms /\
                    snd tc = count_mentions U (fst tc) all_text /\ 0 < snd tc)
         (tech_mentions_of U terms all_text).
Proof.
  unfold tech_mentions_of. induction terms as [|t terms IH] using rev_ind.
  - constructor.
  - rewrite fold_left_app. simpl.
    assert (Hold : Forall (fun tc => In (fst tc) (terms ++ [t]) /\
                      snd tc = count_mentions U (fst tc) all_text /\ 0 < snd tc)
              (fold_left
                 (fun tech_mentions term =>
                    if count_mentions U term all_text >? 0
                    then mentions_set tech_mentions term
                           (count_mentions U term all_text)
                    else tech_mentions) terms [])).
    { eapply Forall_impl; [|exact IH]. intros tc (Hin & H). split; [|exact H].
      apply in_or_app. left. exact Hin. }
    destruct (Z.gtb_spec (count_mentions U t all_text) 0) as [Hpos|Hle];
      [|exact Hold].
    apply Forall_forall. intros z Hz. apply mentions_set_in in Hz.
    destruct Hz as [->|Hz].
    + simpl. repeat split; [|lia]. apply in_or_app. right. left. reflexivity.
    + rewrite Forall_forall in Hold. apply Hold. exact Hz.
Qed.

(** With posts and comments both present the topics are returned, and the
    term mentions are the first twenty of the counted terms in falling
    order of count. *)
Lemma analyze_popular_topics_returns (self : VKDataAnalyzer) :
  posts_df self <> [] -> comments_df self <> [] ->
  exists r,
    analyze_popular_topics U self = Returns r /\
    Forall (fun tc => In (fst tc) tech_terms /\ 0 < snd tc /\
              snd tc =
              count_mentions U (fst tc)
                (lower U (join (u " ") (fillna (map row_text (posts_df self)))
                          ++ u " "
                          ++ join (u " ") (fillna (map row_text (comments_df self))))))
           (tech_terms_mentions r) /\
    StronglySorted (fun x y => snd y <= snd x) (tech_terms_mentions r) /\
    (List.length (tech_terms_mentions r) <= 20)%nat.
Proof.
  intros Hp Hc. unfold analyze_popular_topics.
  destruct (posts_df self) as [|p ps] eqn:Hpd; [congruence|].
  destruct (comments_df self) as [|c cs] eqn:Hcd; [congruence|].
  cbn [empty negb column_text and_then].
  eexists. split; [reflexivity|]. cbn [tech_terms_mentions].
  split; [|split].
  - apply Forall_forall. intros z Hz. apply firstn_in in Hz.
    apply (proj1 (sorted_desc_in _ _)) in Hz.
    pose proof (tech_mentions_of_spec tech_terms
                  (lower U (join (u " ") (fillna (map row_text (p :: ps)))
                            ++ u " "
                            ++ join (u " ") (fillna (map row_text (c :: cs))))))
      as Hspec.
    rewrite Forall_forall in Hspec. destruct (Hspec z Hz) as (H1 & H2 & H3).
    repeat split; assumption.
  - apply StronglySorted_firstn.
    eapply StronglySorted_in_ext; [|apply sorted_desc_stable].
    intros a b _ _ [H|[H _]]; lia.
  - apply firstn_le_length.
Qed.

(** Without comments, or without posts, the topics are not returned: the
    frame has no [text] column and reading it raises [KeyError]. *)
Lemma analyze_popular_topics_no_comments (self : VKDataAnalyzer) :
  comments_df self = [] ->
  analyze_popular_topics U self = Raises (KeyError "text").
Proof.
  intros Hc. unfold analyze_popular_topics. rewrite Hc.
  destruct (posts_df self) as [|p ps]; reflexivity.
Qed.

End Mentions.

(** C8, at a data set of one post, [SCADA scada123], and no comment: the
    loop over the terms is not reached, because reading the [text] column
    of the empty comment frame raises [KeyError]; no mention is counted.
    The same text with one comment beside it counts one mention of
    [scada]. *)
Theorem mentions_not_counted_without_comments :
  analyze_popular_topics latin_cyrillic
    {| posts_df := frame_of [Some (u "SCADA scada123")];
       comments_df := frame_of [] |} = Raises (KeyError "text") /\
  option_map tech_terms_mentions
    (match analyze_popular_topics latin_cyrillic
             {| posts_df := frame_of [Some (u "SCADA scada123")];
                comments_df := frame_of [Some (u "ok")] |} with
     | Returns r => Some r
     | Raises _ => None
     end) = Some [(u "scada", 1)].
Proof. split; vm_compute; reflexivity. Qed.

End AnalyzerFacts.

(** * Properties of the start request *)

Module WebFacts.

Import WebInterface.

(** While the status records a run, a start request is answered with the
    error and changes nothing: no thread is started. *)
Lemma start_rejected_while_running (req : start_request) (sys : system) :
  is_running (shared sys) = true ->
  start_parsing req sys = (BadRequest "Парсинг уже выполняется", sys).
Proof. intros H. unfold start_parsing. rewrite H. reflexivity. Qed.

(** The status records a run only once the worker has made its first
    update: a start request leaves the status as it was. *)
Lemma start_parsing_keeps_status (req : start_request) (sys : system) :
  shared (snd (start_parsing req sys)) = shared sys.
Proof.
  unfold start_parsing. destruct (is_running (shared sys)); [reflexivity|].
  destruct (falsy (access_token req)); reflexivity.
Qed.

(** C9, at two start requests that arrive before the first worker thread has
    reached its first statement: both are accepted and two runs are active;
    once both workers have made their first update the status records a
    run, two runs are still active, and only a third request is refused. *)
Theorem second_start_accepted_before_worker_runs :
  run [StartRequest (token_request "t"); StartRequest (token_request "t")]
      initial_system
  = ([Ok "Парсинг запущен"; Ok "Парсинг запущен"],
     snd (run [StartRequest (token_request "t"); StartRequest (token_request "t")]
              initial_system)) /\
  active_runs
    (snd (run [StartRequest (token_request "t"); StartRequest (token_request "t")]
              initial_system)) = 2%nat /\
  fst (run [StartRequest (token_request "t"); StartRequest (token_request "t");
            WorkerRuns 0 true; WorkerRuns 1 true; StartRequest (token_request "t")]
           initial_system)
  = [Ok "Парсинг запущен"; Ok "Парсинг запущен";
     BadRequest "Парсинг уже выполняется"] /\
  active_runs
    (snd (run [StartRequest (token_request "t"); StartRequest (token_request "t");
               WorkerRuns 0 true; WorkerRuns 1 true;
               StartRequest (token_request "t")]
              initial_system)) = 2%nat.
Proof. repeat split; vm_compute; reflexivity. Qed.

End WebFacts.

(** * Further properties of the parser *)

Module ParserMore.

Import VKParser ListOps ParserSpec ParserFacts.

(** X1.  Every post a run retains is dated within the bounds given: not
    before a lower bound other than 0 and not after an upper bound other
    than 0. *)
Theorem retained_posts_within_bounds {T : Py.Digits}
    (self : VKGroupParser) (group_id : string) (max_posts : Z)
    (start_timestamp end_timestamp : option Z) (include_comments : bool)
    (w : world) :
  exists r w',
    parse_group_data self group_id max_posts start_timestamp end_timestamp
      include_comments w = (Some r, w') /\
    Forall (fun p =>
              (forall L, start_timestamp = Some L -> L <> 0 -> L <= date_of p) /\
              (forall U, end_timestamp = Some U -> U <> 0 -> date_of p <= U))
           (posts r).
Proof.
  destruct (retained_in_window self group_id max_posts start_timestamp
              end_timestamp include_comments w) as (r & w' & Hrun & Hall).
  exists r, w'. split; [exact Hrun|].
  eapply Forall_impl; [|exact Hall]. intros p [Hs He]. unfold date_of. split.
  - intros L -> HL. apply Hs. simpl. apply negb_true_iff, Z.eqb_neq. exact HL.
  - intros U -> HU. apply He. simpl. apply negb_true_iff, Z.eqb_neq. exact HU.
Qed.

Lemma kept_as_window (start_timestamp end_timestamp : option Z) (batch : list post) :
  kept start_timestamp end_timestamp batch =
  batch_window start_timestamp end_timestamp batch.
Proof.
  unfold batch_window, too_old, too_new, date_of.
  induction batch as [|p rest IH]; [reflexivity|].
  unfold kept in *. simpl.
  destruct (Py.truthy start_timestamp) eqn:Hs; simpl.
  - destruct (Z.ltb_spec (Py.get_default (post_date p) 0)
                         (Py.get_default start_timestamp 0)) as [Hlt|Hge];
      simpl; [reflexivity|].
    replace (Py.get_default (post_date p) 0 >=? Py.get_default start_timestamp 0)
      with true by (symmetry; apply Z.geb_le; lia).
    destruct (Py.truthy end_timestamp &&
              (Py.get_default (post_date p) 0 >? Py.get_default end_timestamp 0));
      simpl.
    + exact IH.
    + rewrite scan_batch_acc. simpl. f_equal. exact IH.
  - destruct (Py.truthy end_timestamp &&
              (Py.get_default (post_date p) 0 >? Py.get_default end_timestamp 0));
      simpl.
    + exact IH.
    + rewrite scan_batch_acc. simpl. f_equal. exact IH.
Qed.

Lemma take_while_length {A : Type} (f : A -> bool) (l : list A) :
  (List.length (take_while f l) <= List.length l)%nat.
Proof.
  induction l as [|x l IH]; simpl; [lia|]. destruct (f x); simpl; lia.
Qed.

Lemma kept_length (start_timestamp end_timestamp : option Z) (batch : list post) :
  Py.len (kept start_timestamp end_timestamp batch) <= Py.len batch.
Proof.
  rewrite kept_as_window. unfold batch_window, Py.len.
  pose proof (filter_length_le (fun p => negb (too_new end_timestamp p))
                (take_while (fun p => negb (too_old start_timestamp p)) batch)).
  pose proof (take_while_length (fun p => negb (too_old start_timestamp p)) batch).
  lia.
Qed.

(** X2.  What a batch contributes is the batch cut at its first post older
    than the lower bound, without the posts later than the upper bound, in
    the order of the batch; with no bound in force it is the whole batch. *)
Theorem batch_retains_window
    (start_timestamp end_timestamp : option Z) (batch : list post) :
  kept start_timestamp end_timestamp batch =
    batch_window start_timestamp end_timestamp batch /\
  (Py.truthy start_timestamp = false -> Py.truthy end_timestamp = false ->
   kept start_timestamp end_timestamp batch = batch).
Proof.
  split; [apply kept_as_window|]. intros Hs He. rewrite kept_as_window.
  unfold batch_window, too_old, too_new. rewrite Hs, He. simpl.
  induction batch as [|p rest IH]; simpl; [reflexivity | f_equal; exact IH].
Qed.

(** X3.  With [include_comments] off a run sends no comment request and
    returns no comment. *)
Theorem no_comment_request_without_include_comments {T : Py.Digits}
    (self : VKGroupParser) (group_id : string) (max_posts : Z)
    (start_timestamp end_timestamp : option Z) (w : world) :
  exists r w' d,
    parse_group_data self group_id max_posts start_timestamp end_timestamp
      false w = (Some r, w') /\
    sent w' = sent w ++ d /\
    count_method "wall.getComments" d = 0%nat /\
    comments r = [] /\ total_comments r = 0.
Proof.
  destruct (parse_group_data_trace self group_id max_posts start_timestamp
              end_timestamp false w)
    as (r & w' & dl & dc & Hrun & Hs & Htl & _ & _ & _ & Hoff & _).
  destruct (Hoff eq_refl) as [-> Hc].
  exists r, w'. eexists. split; [exact Hrun|]. split; [exact Hs|].
  split; [|split; [exact Hc|]].
  - rewrite app_nil_r, count_method_app. unfold threads in Htl. rewrite Htl.
    reflexivity.
  - destruct (parse_group_data_unfold self group_id max_posts start_timestamp
                end_timestamp false w) as (st & wl & _ & Hrun').
    cbv zeta in Hrun'. rewrite Hrun in Hrun'. inversion Hrun'. reflexivity.
Qed.

(** *** Lookups in a parameter dictionary *)

Lemma dict_get_set_same (d : params) (k : string) (v : pval) :
  dict_get (dict_set d k v) k = Some v.
Proof.
  induction d as [|[k' v'] d IH]; simpl.
  - rewrite String.eqb_refl. reflexivity.
  - destruct (String.eqb k' k) eqn:He; simpl; rewrite He; [reflexivity | exact IH].
Qed.

Lemma dict_get_set_other (d : params) (k k' : string) (v : pval) :
  k' <> k -> dict_get (dict_set d k v) k' = dict_get d k'.
Proof.
  intros Hne. induction d as [|[k0 v0] d IH]; simpl.
  - destruct (String.eqb_spec k k'); [congruence | reflexivity].
  - destruct (String.eqb_spec k0 k) as [->|Hk]; simpl.
    + destruct (String.eqb_spec k k'); [congruence | reflexivity].
    + destruct (String.eqb k0 k'); [reflexivity | exact IH].
Qed.

Lemma with_credentials_token (self : VKGroupParser) (ps : params) :
  dict_get (with_credentials self ps) "access_token" = Some (PStr (access_token self)).
Proof.
  unfold with_credentials, dict_update. simpl.
  rewrite dict_get_set_other by discriminate. apply dict_get_set_same.
Qed.

Lemma with_credentials_version (self : VKGroupParser) (ps : params) :
  dict_get (with_credentials self ps) "v" = Some (PStr (api_version self)).
Proof. unfold with_credentials, dict_update. simpl. apply dict_get_set_same. Qed.

Lemma with_credentials_other (self : VKGroupParser) (ps : params) (k : string) :
  k <> "access_token" -> k <> "v" ->
  dict_get (with_credentials self ps) k = dict_get ps k.
Proof.
  intros H1 H2. unfold with_credentials, dict_update. simpl.
  rewrite !dict_get_set_other by assumption. reflexivity.
Qed.

(** X4.  Every call of [_make_request], whatever its outcome, sends exactly
    one request of the method asked for; the request carries the token and
    the API version of the parser, also when the caller passed values of its
    own under these keys, and every other parameter as the caller gave
    it. *)
Theorem make_request_sends_credentials
    (A : Type) (H : Payload A) (self : VKGroupParser)
    (endpoint : nat -> params -> http_outcome A)
    (method : string) (ps : params) (w : world) :
  exists rq,
    sent (snd (_make_request self endpoint method ps w)) = sent w ++ [rq] /\
    clock (snd (_make_request self endpoint method ps w)) = S (clock w) /\
    req_method rq = method /\
    dict_get (req_params rq) "access_token" = Some (PStr (access_token self)) /\
    dict_get (req_params rq) "v" = Some (PStr (api_version self)) /\
    (forall k, k <> "access_token" -> k <> "v" ->
               dict_get (req_params rq) k = dict_get ps k).
Proof.
  rewrite (make_request_world self endpoint method ps w).
  exists (request_of self method ps). simpl. repeat split.
  - apply with_credentials_token.
  - apply with_credentials_version.
  - intros k H1 H2. apply with_credentials_other; assumption.
Qed.

(** *** A property of every request of a run *)

Section Requests.

Context {T : Py.Digits}.

Variable self : VKGroupParser.
Variable group_id : string.
Variable max_posts : Z.
Variable start_timestamp end_timestamp : option Z.

Variable P : request -> Prop.

Hypothesis P_lookup :
  P (request_of self "groups.getById" (lookup_params group_id)).
Hypothesis P_feed :
  forall numeric c o, 1 <= c <= 100 -> c <= max_posts -> 0 <= o ->
    P (request_of self "wall.get" (wall_params numeric c o)).
Hypothesis P_thread :
  forall numeric pid, pid <> 0 ->
    P (request_of self "wall.getComments" (comments_params numeric pid 100 0)).

Lemma lookup_delta_forall : Forall P (lookup_delta self group_id).
Proof.
  unfold lookup_delta. destruct (needs_lookup group_id); repeat constructor.
  exact P_lookup.
Qed.

Lemma get_wall_posts_forall (c o : Z) (w : world) :
  1 <= c <= 100 -> c <= max_posts -> 0 <= o ->
  exists d,
    sent (snd (get_wall_posts self group_id c o w)) = sent w ++ d /\ Forall P d.
Proof.
  intros Hc Hm Ho. destruct (get_wall_posts_sent self group_id c o w)
    as (d & Hs & Hd).
  exists (lookup_delta self group_id ++ d). split; [exact Hs|].
  apply Forall_app. split; [apply lookup_delta_forall|].
  destruct Hd as [->|[numeric ->]]; repeat constructor.
  apply P_feed; assumption.
Qed.

Lemma get_post_comments_forall (pid : Z) (w : world) :
  pid <> 0 ->
  exists d,
    sent (snd (get_post_comments self group_id pid 100 0 w)) = sent w ++ d /\
    Forall P d.
Proof.
  intros Hp. destruct (get_post_comments_sent self group_id pid 100 0 w)
    as (d & Hs & Hd).
  exists (lookup_delta self group_id ++ d). split; [exact Hs|].
  apply Forall_app. split; [apply lookup_delta_forall|].
  destruct Hd as [->|[numeric ->]]; repeat constructor.
  apply P_thread. exact Hp.
Qed.

Lemma collect_loop_forall (fuel : nat) :
  forall st w,
    0 <= posts_collected st -> 0 <= offset st ->
    exists d,
      sent (snd (collect_loop self group_id max_posts start_timestamp
                   end_timestamp fuel st w)) = sent w ++ d /\
      Forall P d.
Proof.
  induction fuel as [|fuel IH]; intros st w Hc Ho; simpl.
  - exists []. rewrite app_nil_r.
    destruct (posts_collected st <? max_posts); simpl; split;
      try reflexivity; constructor.
  - destruct (Z.ltb_spec (posts_collected st) max_posts) as [Hlt|Hge].
    + unfold bind.
      pose proof (loop_turn_world self group_id max_posts start_timestamp
                    end_timestamp st w) as Hw.
      destruct (get_wall_posts_forall
                  (Z.min 100 (max_posts - posts_collected st)) (offset st) w)
        as (d1 & Hs1 & Hf1); try lia.
      rewrite <- Hw in Hs1.
      destruct (loop_turn self group_id max_posts start_timestamp end_timestamp
                  st w) as [[st1|st1] w1] eqn:Ht; simpl in Hs1.
      * apply loop_turn_continue in Ht. destruct Ht as (batch & Hne & -> & _).
        destruct (IH (advance start_timestamp end_timestamp st batch) w1)
          as (d2 & Hs2 & Hf2).
        { simpl. pose proof (len_nonneg batch). lia. }
        { simpl. pose proof (len_nonneg batch). lia. }
        exists (d1 ++ d2). rewrite Hs2, Hs1, <- app_assoc.
        split; [reflexivity | apply Forall_app; split; assumption].
      * exists d1. simpl. split; assumption.
    + exists []. simpl. rewrite app_nil_r. split; [reflexivity | constructor].
Qed.

Lemma collect_comments_forall (retained : list post) :
  forall acc w,
  exists d,
    sent (snd (collect_comments self group_id retained acc w)) = sent w ++ d /\
    Forall P d.
Proof.
  induction retained as [|p rest IH]; intros acc w; simpl.
  - exists []. rewrite app_nil_r. split; [reflexivity | constructor].
  - destruct (post_id p) as [pid|]; [|apply IH].
    destruct (negb (pid =? 0) && (comments_count p >? 0)) eqn:Hc; [|apply IH].
    apply andb_prop in Hc. destruct Hc as [Hnz _].
    apply negb_true_iff, Z.eqb_neq in Hnz. unfold bind.
    destruct (get_post_comments_forall pid w Hnz) as (d1 & Hs1 & Hf1).
    destruct (get_post_comments self group_id pid 100 0 w) as [f1 w1].
    simpl in Hs1.
    destruct (IH (acc ++ map (set_parent pid) f1) w1) as (d2 & Hs2 & Hf2).
    exists (d1 ++ d2). rewrite Hs2, Hs1, <- app_assoc.
    split; [reflexivity | apply Forall_app; split; assumption].
Qed.

Lemma run_forall (include_comments : bool) (w : world) :
  exists r w' d,
    parse_group_data self group_id max_posts start_timestamp end_timestamp
      include_comments w = (Some r, w') /\
    sent w' = sent w ++ d /\ Forall P d.
Proof.
  destruct (parse_group_data_unfold self group_id max_posts start_timestamp
              end_timestamp include_comments w) as (st & wl & Hloop & Hrun).
  cbv zeta in Hrun.
  destruct (collect_loop_forall (Z.to_nat max_posts) initial_state
              (snd (get_group_info self group_id w)))
    as (dl & Hsl & Hfl); try (simpl; lia).
  rewrite Hloop in Hsl. simpl in Hsl. rewrite get_group_info_sent in Hsl.
  destruct include_comments.
  - destruct (collect_comments_forall (all_posts st) [] wl) as (dc & Hsc & Hfc).
    eexists. eexists.
    exists (request_of self "groups.getById" (lookup_params group_id) :: dl ++ dc).
    split; [exact Hrun|].
    simpl. rewrite Hsc, Hsl, <- !app_assoc. simpl.
    split; [reflexivity|]. constructor; [exact P_lookup|].
    apply Forall_app. split; assumption.
  - eexists. eexists.
    exists (request_of self "groups.getById" (lookup_params group_id) :: dl).
    split; [exact Hrun|].
    simpl. rewrite Hsl, <- !app_assoc. simpl.
    split; [reflexivity|]. constructor; [exact P_lookup | exact Hfl].
Qed.

End Requests.

(** X5.  Every feed request of a run asks for at least 1 and at most 100
    posts, never for more than [max_posts], from an offset that is not
    negative; every comment request asks for the first 100 comments. *)
Theorem feed_requests_within_limits {T : Py.Digits}
    (self : VKGroupParser) (group_id : string) (max_posts : Z)
    (start_timestamp end_timestamp : option Z) (include_comments : bool)
    (w : world) :
  exists r w' d,
    parse_group_data self group_id max_posts start_timestamp end_timestamp
      include_comments w = (Some r, w') /\
    sent w' = sent w ++ d /\
    Forall (fun rq =>
              (req_method rq = "wall.get" ->
                 1 <= int_param (req_params rq) "count" <= 100 /\
                 int_param (req_params rq) "count" <= max_posts /\
                 0 <= int_param (req_params rq) "offset") /\
              (req_method rq = "wall.getComments" ->
                 int_param (req_params rq) "count" = 100 /\
                 int_param (req_params rq) "offset" = 0)) d.
Proof.
  apply run_forall.
  - split; simpl; discriminate.
  - intros numeric c o Hc Hm Ho. split; [intros _ | simpl; discriminate].
    unfold int_param. simpl. rewrite Z.min_l by lia. lia.
  - intros numeric pid Hp. split; [simpl; discriminate | intros _].
    unfold int_param. simpl. split; reflexivity.
Qed.

(** *** The number of feed requests *)

Lemma count_method_zero (m : string) (d : list request) :
  Forall (fun rq => req_method rq <> m) d -> count_method m d = 0%nat.
Proof.
  unfold count_method. induction 1 as [|rq d Hne _ IH]; simpl; [reflexivity|].
  destruct (String.eqb_spec (req_method rq) m); [contradiction | exact IH].
Qed.

Lemma collect_loop_feed_count {T : Py.Digits}
    (self : VKGroupParser) (group_id : string) (max_posts : Z)
    (start_timestamp end_timestamp : option Z) (fuel : nat) :
  forall st w,
  exists d,
    sent (snd (collect_loop self group_id max_posts start_timestamp
                 end_timestamp fuel st w)) = sent w ++ d /\
    (count_method "wall.get" d <= fuel)%nat.
Proof.
  induction fuel as [|fuel IH]; intros st w; simpl.
  - exists []. rewrite app_nil_r.
    destruct (posts_collected st <? max_posts); simpl; split;
      try reflexivity; unfold count_method; simpl; lia.
  - destruct (posts_collected st <? max_posts).
    + unfold bind.
      pose proof (loop_turn_world self group_id max_posts start_timestamp
                    end_timestamp st w) as Hw.
      destruct (get_wall_posts_sent self group_id
                  (Z.min 100 (max_posts - posts_collected st)) (offset st) w)
        as (d1 & Hs1 & Hd1).
      rewrite <- Hw in Hs1.
      assert (Hc1 : (count_method "wall.get" (lookup_delta self group_id ++ d1)
                     <= 1)%nat).
      { rewrite count_method_app. fold (feeds (lookup_delta self group_id)).
        rewrite feeds_lookup_delta.
        destruct Hd1 as [->|[numeric ->]]; unfold count_method; simpl; lia. }
      destruct (loop_turn self group_id max_posts start_timestamp end_timestamp
                  st w) as [[st1|st1] w1]; simpl in Hs1.
      * destruct (IH st1 w1) as (d2 & Hs2 & Hc2).
        exists ((lookup_delta self group_id ++ d1) ++ d2).
        rewrite Hs2, Hs1, <- !app_assoc. split; [reflexivity|].
        rewrite !app_assoc, count_method_app. lia.
      * exists (lookup_delta self group_id ++ d1). simpl.
        split; [exact Hs1 | lia].
    + exists []. simpl. rewrite app_nil_r. split; [reflexivity|].
      unfold count_method. simpl. lia.
Qed.

(** X6.  A run sends at most [max_posts] feed requests.  With [max_posts]
    zero or negative it sends the lookup of its start and nothing else, and
    returns neither posts nor comments. *)
Theorem feed_requests_bounded_by_max_posts {T : Py.Digits}
    (self : VKGroupParser) (group_id : string) (max_posts : Z)
    (start_timestamp end_timestamp : option Z) (include_comments : bool)
    (w : world) :
  exists r w' d,
    parse_group_data self group_id max_posts start_timestamp end_timestamp
      include_comments w = (Some r, w') /\
    sent w' = sent w ++ d /\
    (count_method "wall.get" d <= Z.to_nat max_posts)%nat /\
    (max_posts <= 0 ->
     posts r = [] /\ comments r = [] /\
     d = [request_of self "groups.getById" (lookup_params group_id)]).
Proof.
  destruct (parse_group_data_unfold self group_id max_posts start_timestamp
              end_timestamp include_comments w) as (st & wl & Hloop & Hrun).
  cbv zeta in Hrun.
  destruct (collect_loop_feed_count self group_id max_posts start_timestamp
              end_timestamp (Z.to_nat max_posts) initial_state
              (snd (get_group_info self group_id w))) as (dl & Hsl & Hcl).
  rewrite Hloop in Hsl. simpl in Hsl. rewrite get_group_info_sent in Hsl.
  assert (Hcom : exists dc,
            sent (snd (if include_comments
                       then collect_comments self group_id (all_posts st) [] wl
                       else ([], wl))) = sent wl ++ dc /\
            count_method "wall.get" dc = 0%nat).
  { destruct include_comments.
    - destruct (collect_comments_forall self group_id
                  (fun rq => req_method rq <> "wall.get")) with
        (retained := all_posts st) (acc := @nil comment) (w := wl)
        as (dc & Hsc & Hfc).
      + simpl. discriminate.
      + intros numeric pid _. simpl. discriminate.
      + exists dc. split; [exact Hsc | apply count_method_zero; exact Hfc].
    - exists []. simpl. rewrite app_nil_r. split; reflexivity. }
  destruct Hcom as (dc & Hsc & Hcc).
  eexists. eexists.
  exists (request_of self "groups.getById" (lookup_params group_id) :: dl ++ dc).
  split; [exact Hrun|]. simpl. rewrite Hsc, Hsl, <- !app_assoc. simpl.
  split; [reflexivity|]. split.
  - change (request_of self "groups.getById" (lookup_params group_id) :: dl ++ dc)
      with ([request_of self "groups.getById" (lookup_params group_id)] ++ dl ++ dc).
    rewrite !count_method_app, Hcc.
    change (count_method "wall.get"
              [request_of self "groups.getById" (lookup_params group_id)])
      with 0%nat. lia.
  - intros Hle.
    assert (Hfuel : Z.to_nat max_posts = 0%nat) by lia.
    rewrite Hfuel in Hloop. simpl in Hloop.
    destruct (Z.ltb_spec 0 max_posts) as [Hlt|_]; [lia|].
    unfold ret in Hloop. inversion Hloop; subst st wl. clear Hloop.
    rewrite get_group_info_sent in Hsl.
    assert (Hdl : dl = []).
    { apply (app_inv_head (sent w ++
               [request_of self "groups.getById" (lookup_params group_id)])).
      rewrite app_nil_r. symmetry. exact Hsl. }
    assert (Hdc : dc = []).
    { destruct include_comments; simpl in Hsc;
        apply (app_inv_head (sent (snd (get_group_info self group_id w))));
        rewrite app_nil_r; symmetry; exact Hsc. }
    subst dl dc. simpl. destruct include_comments; auto.
Qed.

(** *** A server that keeps to the count *)

Lemma collect_loop_invariant_fetched {T : Py.Digits}
    (self : VKGroupParser) (group_id : string) (max_posts : Z)
    (start_timestamp end_timestamp : option Z) (P : loop_state -> Prop) :
  (forall st w batch w',
     P st -> posts_collected st < max_posts ->
     get_wall_posts self group_id
       (Z.min 100 (max_posts - posts_collected st)) (offset st) w = (batch, w') ->
     batch <> [] -> P (advance start_timestamp end_timestamp st batch)) ->
  forall fuel st w st' w',
    P st ->
    collect_loop self group_id max_posts start_timestamp end_timestamp
      fuel st w = (Some st', w') ->
    P st'.
Proof.
  intros Hstep. induction fuel as [|fuel IH]; intros st w st' w' HP; simpl.
  - destruct (posts_collected st <? max_posts); unfold ret; intros H;
      inversion H; subst; assumption.
  - destruct (Z.ltb_spec (posts_collected st) max_posts) as [Hlt|Hge].
    + unfold bind.
      destruct (loop_turn self group_id max_posts start_timestamp end_timestamp
                  st w) as [[st1|st1] w1] eqn:Ht.
      * apply loop_turn_continue in Ht. destruct Ht as (batch & Hne & -> & Hget).
        apply IH. eapply Hstep; eassumption.
      * apply loop_turn_break in Ht. subst st1. unfold ret. intros H.
        inversion H; subst; assumption.
    + unfold ret. intros H. inversion H; subst; assumption.
Qed.

Lemma get_wall_posts_length {T : Py.Digits}
    (self : VKGroupParser) (group_id : string) (c o : Z) (w : world) :
  honours_count (session self) -> 0 <= c ->
  Py.len (fst (get_wall_posts self group_id c o w)) <= Z.min c 100.
Proof.
  intros Hsrv Hc. unfold get_wall_posts, bind.
  destruct (numeric_group_id self group_id w) as [[numeric|] w1]; simpl.
  - unfold _make_request.
    specialize (Hsrv (clock w1) (with_credentials self (wall_params numeric c o))).
    assert (Hcount : int_param (with_credentials self (wall_params numeric c o))
                       "count" = Z.min c 100) by reflexivity.
    rewrite Hcount in Hsrv. specialize (Hsrv ltac:(lia)).
    destruct (wall_get (session self) (clock w1)
                (with_credentials self (wall_params numeric c o)))
      as [cause| |[err|] [resp|]]; simpl; try (unfold Py.len; simpl; lia).
    exact Hsrv.
  - unfold Py.len. simpl. lia.
Qed.

(** X7.  When the server returns no more posts than a request asks for, a
    run retains at most [max_posts] posts. *)
Theorem retained_posts_within_budget {T : Py.Digits}
    (self : VKGroupParser) (group_id : string) (max_posts : Z)
    (start_timestamp end_timestamp : option Z) (include_comments : bool)
    (w : world) :
  honours_count (session self) ->
  exists r w',
    parse_group_data self group_id max_posts start_timestamp end_timestamp
      include_comments w = (Some r, w') /\
    total_posts r <= Z.max 0 max_posts.
Proof.
  intros Hsrv.
  destruct (parse_group_data_unfold self group_id max_posts start_timestamp
              end_timestamp include_comments w) as (st & wl & Hloop & Hrun).
  cbv zeta in Hrun. eexists. eexists. split; [exact Hrun|]. simpl.
  assert (Hinv : 0 <= posts_collected st <= Z.max 0 max_posts /\
                 Py.len (all_posts st) <= posts_collected st).
  { refine (collect_loop_invariant_fetched self group_id max_posts
              start_timestamp end_timestamp
              (fun st => 0 <= posts_collected st <= Z.max 0 max_posts /\
                         Py.len (all_posts st) <= posts_collected st)
              _ _ _ _ _ _ _ Hloop).
    - intros st0 w0 batch w0' [Hc Hl] Hlt Hget Hne. simpl.
      pose proof (get_wall_posts_length self group_id
                    (Z.min 100 (max_posts - posts_collected st0)) (offset st0) w0
                    Hsrv ltac:(lia)) as Hb.
      rewrite Hget in Hb. simpl in Hb.
      pose proof (len_nonneg batch).
      pose proof (kept_length start_timestamp end_timestamp batch).
      rewrite len_app. lia.
    - simpl. unfold Py.len. simpl. lia. }
  lia.
Qed.

Lemma retained_posts_within_budget_witness :
  exists r w',
    parse_group_data
      (parser_for (wall_server 1 [dated_post 1 30; dated_post 2 20; dated_post 3 10]
                     no_threads))
      "1" 2 None None false initial_world = (Some r, w') /\
    total_posts r <= Z.max 0 2.
Proof.
  apply (retained_posts_within_budget
           (parser_for (wall_server 1 [dated_post 1 30; dated_post 2 20; dated_post 3 10]
                          no_threads))
           "1" 2 None None false initial_world).
  intros n ps Hc. simpl. unfold page, Py.len.
  pose proof (firstn_le_length (Z.to_nat (int_param ps "count"))
                (skipn (Z.to_nat (int_param ps "offset"))
                   [dated_post 1 30; dated_post 2 20; dated_post 3 10])).
  lia.
Defined.

(** *** The offsets of the feed requests *)

Lemma feed_offsets_app (d1 d2 : list request) :
  feed_offsets (d1 ++ d2) = feed_offsets d1 ++ feed_offsets d2.
Proof. unfold feed_offsets. rewrite filter_app, map_app. reflexivity. Qed.

Lemma feed_offsets_none (d : list request) :
  Forall (fun rq => req_method rq <> "wall.get") d -> feed_offsets d = [].
Proof.
  unfold feed_offsets, is_feed. induction 1 as [|rq d Hne _ IH]; simpl;
    [reflexivity|].
  destruct (String.eqb_spec (req_method rq) "wall.get"); [contradiction | exact IH].
Qed.

Lemma feed_offsets_lookup_delta {T : Py.Digits} (self : VKGroupParser) (group_id : string) :
  feed_offsets (lookup_delta self group_id) = [].
Proof. unfold lookup_delta. destruct (needs_lookup group_id); reflexivity. Qed.

Lemma get_wall_posts_cases {T : Py.Digits}
    (self : VKGroupParser) (group_id : string) (c o : Z) (w : world) :
  (fst (get_wall_posts self group_id c o w) = [] /\
   sent (snd (get_wall_posts self group_id c o w)) =
     sent w ++ lookup_delta self group_id) \/
  (exists numeric,
     sent (snd (get_wall_posts self group_id c o w)) =
       sent w ++ lookup_delta self group_id
              ++ [request_of self "wall.get" (wall_params numeric c o)]).
Proof.
  unfold get_wall_posts, bind.
  pose proof (numeric_group_id_sent self group_id w) as Hw.
  destruct (numeric_group_id self group_id w) as [[numeric|] w1]; simpl in Hw.
  - right. exists numeric.
    pose proof (make_request_world self (wall_get (session self)) "wall.get"
                  (wall_params numeric c o) w1) as Hw2.
    destruct (_make_request self (wall_get (session self)) "wall.get"
                (wall_params numeric c o) w1) as [resp w2].
    simpl in Hw2. subst w2. simpl. rewrite Hw, <- app_assoc. reflexivity.
  - left. simpl. split; [reflexivity | exact Hw].
Qed.

Lemma collect_loop_offsets {T : Py.Digits}
    (self : VKGroupParser) (group_id : string) (max_posts : Z)
    (start_timestamp end_timestamp : option Z) (fuel : nat) :
  forall st w,
  exists d,
    sent (snd (collect_loop self group_id max_posts start_timestamp
                 end_timestamp fuel st w)) = sent w ++ d /\
    StronglySorted Z.lt (feed_offsets d) /\
    Forall (fun o => offset st <= o) (feed_offsets d) /\
    match feed_offsets d with
    | [] => True
    | o :: _ => o = offset st
    end.
Proof.
  induction fuel as [|fuel IH]; intros st w; simpl.
  - exists []. rewrite app_nil_r.
    destruct (posts_collected st <? max_posts); simpl;
      repeat split; constructor.
  - destruct (posts_collected st <? max_posts).
    2:{ exists []. simpl. rewrite app_nil_r. repeat split; constructor. }
    unfold bind.
    pose proof (loop_turn_cases self group_id max_posts start_timestamp
                  end_timestamp st w) as Hc. cbv zeta in Hc.
    destruct (get_wall_posts_cases self group_id
                (Z.min 100 (max_posts - posts_collected st)) (offset st) w)
      as [[Hempty Hs1]|[numeric Hs1]].
    + rewrite Hempty in Hc.
      destruct Hc as [[_ Hc]|[(Hne & _)|[Hne _]]]; try congruence.
      rewrite Hc. simpl. exists (lookup_delta self group_id).
      rewrite feed_offsets_lookup_delta. repeat split; try constructor.
      exact Hs1.
    + assert (Hone : feed_offsets
                (lookup_delta self group_id ++
                 [request_of self "wall.get"
                    (wall_params numeric
                       (Z.min 100 (max_posts - posts_collected st)) (offset st))])
              = [offset st]).
      { rewrite feed_offsets_app, feed_offsets_lookup_delta. reflexivity. }
      assert (Hstop :
                exists d,
                  sent (snd (get_wall_posts self group_id
                               (Z.min 100 (max_posts - posts_collected st))
                               (offset st) w)) = sent w ++ d /\
                  StronglySorted Z.lt (feed_offsets d) /\
                  Forall (fun o => offset st <= o) (feed_offsets d) /\
                  match feed_offsets d with
                  | [] => True
                  | o :: _ => o = offset st
                  end).
      { eexists. split; [exact Hs1|]. rewrite Hone.
        repeat split; repeat constructor. lia. }
      destruct Hc as [[_ Hc]|[(_ & _ & _ & Hc)|[Hne Hc]]]; rewrite Hc.
      * unfold ret. cbn [snd]. exact Hstop.
      * unfold ret. cbn [snd]. exact Hstop.
      * set (batch := fst (get_wall_posts self group_id
                             (Z.min 100 (max_posts - posts_collected st))
                             (offset st) w)) in *.
        destruct (IH (advance start_timestamp end_timestamp st batch)
                    (snd (get_wall_posts self group_id
                            (Z.min 100 (max_posts - posts_collected st))
                            (offset st) w)))
          as (d2 & Hs2 & Hsorted & Hall & _).
        exists ((lookup_delta self group_id ++
                 [request_of self "wall.get"
                    (wall_params numeric
                       (Z.min 100 (max_posts - posts_collected st)) (offset st))])
                ++ d2).
        cbn [snd]. split; [rewrite Hs2, Hs1, <- !app_assoc; reflexivity|].
        rewrite feed_offsets_app, Hone. simpl.
        assert (Hlen : 1 <= Py.len batch).
        { destruct batch as [|p rest]; [congruence|]. rewrite len_cons.
          pose proof (len_nonneg rest). lia. }
        simpl in Hall.
        repeat split.
        -- constructor; [exact Hsorted|].
           eapply Forall_impl; [|exact Hall]. intros o Ho. simpl in Ho. lia.
        -- constructor; [lia|].
           eapply Forall_impl; [|exact Hall]. intros o Ho. simpl in Ho. lia.
Qed.

(** X8.  The feed requests of a run ask for strictly increasing offsets,
    the first of them for offset 0: no page of the wall is asked for
    twice. *)
Theorem feed_offsets_increase {T : Py.Digits}
    (self : VKGroupParser) (group_id : string) (max_posts : Z)
    (start_timestamp end_timestamp : option Z) (include_comments : bool)
    (w : world) :
  exists r w' d,
    parse_group_data self group_id max_posts start_timestamp end_timestamp
      include_comments w = (Some r, w') /\
    sent w' = sent w ++ d /\
    StronglySorted Z.lt (feed_offsets d) /\
    match feed_offsets d with
    | [] => True
    | o :: _ => o = 0
    end.
Proof.
  destruct (parse_group_data_unfold self group_id max_posts start_timestamp
              end_timestamp include_comments w) as (st & wl & Hloop & Hrun).
  cbv zeta in Hrun.
  destruct (collect_loop_offsets self group_id max_posts start_timestamp
              end_timestamp (Z.to_nat max_posts) initial_state
              (snd (get_group_info self group_id w)))
    as (dl & Hsl & Hsorted & _ & Hfirst).
  rewrite Hloop in Hsl. simpl in Hsl. rewrite get_group_info_sent in Hsl.
  assert (Hcom : exists dc,
            sent (snd (if include_comments
                       then collect_comments self group_id (all_posts st) [] wl
                       else ([], wl))) = sent wl ++ dc /\
            feed_offsets dc = []).
  { destruct include_comments.
    - destruct (collect_comments_forall self group_id
                  (fun rq => req_method rq <> "wall.get")) with
        (retained := all_posts st) (acc := @nil comment) (w := wl)
        as (dc & Hsc & Hfc).
      + simpl. discriminate.
      + intros numeric pid _. simpl. discriminate.
      + exists dc. split; [exact Hsc | apply feed_offsets_none; exact Hfc].
    - exists []. simpl. rewrite app_nil_r. split; reflexivity. }
  destruct Hcom as (dc & Hsc & Hfc).
  eexists. eexists.
  exists ([request_of self "groups.getById" (lookup_params group_id)] ++ dl ++ dc).
  split; [exact Hrun|]. simpl snd. rewrite Hsc, Hsl, <- !app_assoc.
  split; [reflexivity|].
  rewrite !feed_offsets_app, Hfc, app_nil_r.
  change (feed_offsets [request_of self "groups.getById" (lookup_params group_id)])
    with (@nil Z). simpl.
  split; [exact Hsorted | exact Hfirst].
Qed.

(** *** A group lookup that fails *)

Lemma get_group_info_no_group {T : Py.Digits}
    (self : VKGroupParser) (group_id : string) (w : world) :
  no_group (groups_getById (session self) (clock w)
              (with_credentials self (lookup_params group_id))) = true ->
  fst (get_group_info self group_id w) = empty_dict.
Proof.
  unfold get_group_info, _make_request, bind, no_group.
  destruct (groups_getById (session self) (clock w)
              (with_credentials self (lookup_params group_id)))
    as [cause| |[err|] [[|g rest]|]]; simpl; intros H; try reflexivity.
  discriminate.
Qed.

(** X10.  When the lookup at the start of a run brings no group (the
    request fails, the body has no [response], or the [response] is empty),
    the run does not stop: the result is returned with empty group
    metadata. *)
Theorem failed_start_lookup_leaves_metadata_empty {T : Py.Digits}
    (self : VKGroupParser) (group_id : string) (max_posts : Z)
    (start_timestamp end_timestamp : option Z) (include_comments : bool)
    (w : world) :
  no_group (groups_getById (session self) (clock w)
              (with_credentials self (lookup_params group_id))) = true ->
  exists r w',
    parse_group_data self group_id max_posts start_timestamp end_timestamp
      include_comments w = (Some r, w') /\
    group_info r = empty_dict.
Proof.
  intros Hf.
  destruct (parse_group_data_unfold self group_id max_posts start_timestamp
              end_timestamp include_comments w) as (st & wl & Hloop & Hrun).
  cbv zeta in Hrun. eexists. eexists. split; [exact Hrun|]. simpl.
  apply get_group_info_no_group. exact Hf.
Qed.

Lemma failed_start_lookup_leaves_metadata_empty_witness :
  exists r w',
    parse_group_data (parser_for (unknown_group_server [dated_post 1 30]))
      "123" 10 None None false initial_world = (Some r, w') /\
    group_info r = empty_dict.
Proof.
  apply (failed_start_lookup_leaves_metadata_empty
           (parser_for (unknown_group_server [dated_post 1 30]))
           "123" 10 None None false initial_world).
  reflexivity.
Defined.

Lemma get_wall_posts_unresolved {T : Py.Digits}
    (self : VKGroupParser) (group_id : string) (c o : Z) (w : world) :
  needs_lookup group_id = true ->
  (forall n ps, no_group (groups_getById (session self) n ps) = true) ->
  get_wall_posts self group_id c o w =
  ([], {| clock := S (clock w);
          sent := sent w ++ [request_of self "groups.getById"
                               (lookup_params group_id)] |}).
Proof.
  intros Hn Hf. unfold get_wall_posts, numeric_group_id, get_group_info,
    _make_request, bind, ret. rewrite Hn.
  specialize (Hf (clock w) (with_credentials self (lookup_params group_id))).
  unfold no_group in Hf.
  destruct (groups_getById (session self) (clock w)
              (with_credentials self (lookup_params group_id)))
    as [cause| |[err|] [[|g rest]|]]; simpl; try reflexivity. discriminate.
Qed.

(** X11.  When the group identifier is not numeric and no lookup brings a
    group, a run returns no posts and no comments and sends no feed or
    comment request: it sends the lookup of its start and, when [max_posts]
    is positive, the lookup of the first feed call. *)
Theorem unresolved_group_yields_empty_result {T : Py.Digits}
    (self : VKGroupParser) (group_id : string) (max_posts : Z)
    (start_timestamp end_timestamp : option Z) (include_comments : bool)
    (w : world) :
  needs_lookup group_id = true ->
  (forall n ps, no_group (groups_getById (session self) n ps) = true) ->
  exists r w',
    parse_group_data self group_id max_posts start_timestamp end_timestamp
      include_comments w = (Some r, w') /\
    posts r = [] /\ comments r = [] /\
    sent w' =
      sent w ++ request_of self "groups.getById" (lookup_params group_id)
             :: (if 0 <? max_posts
                 then [request_of self "groups.getById" (lookup_params group_id)]
                 else []).
Proof.
  intros Hn Hf.
  destruct (parse_group_data_unfold self group_id max_posts start_timestamp
              end_timestamp include_comments w) as (st & wl & Hloop & Hrun).
  cbv zeta in Hrun.
  assert (Hend : st = initial_state /\
                 sent wl = sent w ++
                   request_of self "groups.getById" (lookup_params group_id)
                   :: (if 0 <? max_posts
                       then [request_of self "groups.getById"
                               (lookup_params group_id)]
                       else [])).
  { pose proof (get_group_info_sent self group_id w) as Hw1.
    destruct (Z.to_nat max_posts) as [|fuel] eqn:Hfuel; simpl in Hloop.
    - destruct (Z.ltb_spec 0 max_posts) as [Hlt|Hge]; [lia|].
      unfold ret in Hloop. inversion Hloop; subst. split; [reflexivity|].
      rewrite Hw1. reflexivity.
    - destruct (Z.ltb_spec 0 max_posts) as [Hlt|Hge]; [|lia].
      unfold bind, loop_turn, bind in Hloop.
      rewrite (get_wall_posts_unresolved self group_id _ _ _ Hn Hf) in Hloop.
      simpl in Hloop. unfold ret in Hloop. inversion Hloop; subst.
      split; [reflexivity|]. simpl. rewrite Hw1, <- app_assoc. reflexivity. }
  destruct Hend as [-> Hsent].
  eexists. eexists. split; [exact Hrun|]. simpl.
  destruct include_comments; simpl; repeat split; exact Hsent.
Qed.

Lemma unresolved_group_yields_empty_result_witness :
  exists r w',
    parse_group_data (parser_for (lookup_down_server [dated_post 1 30]))
      "big_asu" 10 None None true initial_world = (Some r, w') /\
    posts r = [] /\ comments r = [] /\
    sent w' =
      sent initial_world
        ++ request_of (parser_for (lookup_down_server [dated_post 1 30]))
             "groups.getById" (lookup_params "big_asu")
           :: (if 0 <? 10
               then [request_of (parser_for (lookup_down_server [dated_post 1 30]))
                       "groups.getById" (lookup_params "big_asu")]
               else []).
Proof.
  apply (unresolved_group_yields_empty_result
           (parser_for (lookup_down_server [dated_post 1 30]))
           "big_asu" 10 None None true initial_world).
  - reflexivity.
  - intros n ps. reflexivity.
Defined.

End ParserMore.

(** * Further properties of the analysis *)

Module AnalyzerMore.

Import DataAnalyzer ListOps AnalyzerSpec AnalyzerFacts.

(** X12.  For a term that is not empty and is made of word characters, the
    number the term loop counts in a text is the number of positions of the
    text at which the term stands between two word boundaries. *)
Theorem term_count_is_whole_word_count (U : unicode) (term all_text : text) :
  term <> [] ->
  Forall (fun c => is_word U c = true) term ->
  count_mentions U term all_text = Z.of_nat (whole_word_count U term None all_text).
Proof. intros Hne Hall. apply count_mentions_whole_words; assumption. Qed.

Lemma term_count_is_whole_word_count_witness :
  count_mentions latin_cyrillic (u "plc") (u "plc, plc1 and xplc; plc")
  = Z.of_nat (whole_word_count latin_cyrillic (u "plc") None
                (u "plc, plc1 and xplc; plc")).
Proof.
  apply (term_count_is_whole_word_count latin_cyrillic (u "plc")
           (u "plc, plc1 and xplc; plc")).
  - discriminate.
  - repeat constructor.
Defined.

(** X13.  For data with at least one post and one comment the topics are
    returned; every reported term is a term of the vocabulary and stands
    with its count in the lowered text of posts and comments, which is
    positive; the terms are in falling order of count and at most twenty. *)
Theorem topics_report_counted_terms (U : unicode) (self : VKDataAnalyzer) :
  posts_df self <> [] -> comments_df self <> [] ->
  exists r,
    analyze_popular_topics U self = Returns r /\
    Forall (fun tc => In (fst tc) tech_terms /\ 0 < snd tc /\
              snd tc =
              count_mentions U (fst tc)
                (lower U (join (u " ") (fillna (map row_text (posts_df self)))
                          ++ u " "
                          ++ join (u " ") (fillna (map row_text (comments_df self))))))
           (tech_terms_mentions r) /\
    StronglySorted (fun x y => snd y <= snd x) (tech_terms_mentions r) /\
    (List.length (tech_terms_mentions r) <= 20)%nat.
Proof. intros Hp Hc. apply analyze_popular_topics_returns; assumption. Qed.

Lemma topics_report_counted_terms_witness :
  exists r,
    analyze_popular_topics latin_cyrillic
      {| posts_df := frame_of [Some (u "PLC и SCADA")];
         comments_df := frame_of [Some (u "scada!")] |} = Returns r /\
    Forall (fun tc => In (fst tc) tech_terms /\ 0 < snd tc /\
              snd tc =
              count_mentions latin_cyrillic (fst tc)
                (lower latin_cyrillic
                   (join (u " ") (fillna (map row_text (frame_of [Some (u "PLC и SCADA")])))
                    ++ u " "
                    ++ join (u " ") (fillna (map row_text (frame_of [Some (u "scada!")]))))))
           (tech_terms_mentions r) /\
    StronglySorted (fun x y => snd y <= snd x) (tech_terms_mentions r) /\
    (List.length (tech_terms_mentions r) <= 20)%nat.
Proof.
  apply (topics_report_counted_terms latin_cyrillic
           {| posts_df := frame_of [Some (u "PLC и SCADA")];
              comments_df := frame_of [Some (u "scada!")] |}).
  - discriminate.
  - discriminate.
Defined.

(** X14.  The topics fail exactly when the data has no post or no comment:
    the failure is the [KeyError] of the missing [text] column, and with
    both present the topics are returned. *)
Theorem topics_fail_iff_frame_empty (U : unicode) (self : VKDataAnalyzer) :
  (analyze_popular_topics U self = Raises (KeyError "text") <->
   posts_df self = [] \/ comments_df self = []) /\
  ((exists r, analyze_popular_topics U self = Returns r) <->
   posts_df self <> [] /\ comments_df self <> []).
Proof.
  unfold analyze_popular_topics.
  destruct (posts_df self) as [|p ps]; destruct (comments_df self) as [|c cs];
    cbn [empty negb column_text and_then].
  - split; split.
    + intros _. left. reflexivity.
    + intros _. reflexivity.
    + intros [r Hr]. discriminate.
    + intros [H _]. congruence.
  - split; split.
    + intros _. left. reflexivity.
    + intros _. reflexivity.
    + intros [r Hr]. discriminate.
    + intros [H _]. congruence.
  - split; split.
    + intros _. right. reflexivity.
    + intros _. reflexivity.
    + intros [r Hr]. discriminate.
    + intros [_ H]. congruence.
  - split; split.
    + intros H. discriminate.
    + intros [H|H]; discriminate.
    + intros _. split; discriminate.
    + intros _. eexists. reflexivity.
Qed.

(** *** Tokens *)

Lemma take_drop_length {A : Type} (f : A -> bool) (l : list A) :
  (List.length (take_while f l) + List.length (drop_while f l) = List.length l)%nat.
Proof.
  induction l as [|x l IH]; simpl; [reflexivity|].
  destruct (f x); simpl; lia.
Qed.

Lemma firstn_take_while {A : Type} (f : A -> bool) (l : list A) :
  firstn (List.length (take_while f l)) l = take_while f l.
Proof.
  induction l as [|x l IH]; simpl; [reflexivity|].
  destruct (f x); simpl; [f_equal; exact IH | reflexivity].
Qed.

Lemma take_while_all {A : Type} (f : A -> bool) (l : list A) :
  forallb f (take_while f l) = true.
Proof.
  induction l as [|x l IH]; simpl; [reflexivity|].
  destruct (f x) eqn:Hx; simpl; [rewrite Hx; exact IH | reflexivity].
Qed.

(** A greedy repetition of a character class takes the whole run. *)
Lemma rmatch_plus_class (U : unicode) (f : N -> bool) (s : text) :
  forall prev,
    rmatch U (Plus (Cls f)) prev s (fun _ rest => Some rest) =
    match s with
    | [] => None
    | x :: s' => if f x then Some (drop_while f s') else None
    end.
Proof.
  induction s as [|x s IH]; intros prev; [reflexivity|].
  cbn [rmatch List.length]. destruct (f x) eqn:Hx; [|reflexivity].
  replace (List.length s <? S (List.length s))%nat with true
    by (symmetry; apply Nat.ltb_lt; lia).
  transitivity
    (match rmatch U (Plus (Cls f)) (Some x) s (fun _ rest => Some rest) with
     | Some rest => Some rest
     | None => Some s
     end); [reflexivity|].
  rewrite IH. destruct s as [|y s']; [reflexivity|].
  simpl. destruct (f y); reflexivity.
Qed.

Lemma match_length_word (U : unicode) (prev : option N) (s : text) :
  match_length U word_pattern prev s =
  match s with
  | [] => None
  | x :: s' => if letter x then Some (S (List.length (take_while letter s'))) else None
  end.
Proof.
  unfold match_length, word_pattern. rewrite rmatch_plus_class.
  destruct s as [|x s']; [reflexivity|]. destruct (letter x); [|reflexivity].
  f_equal. pose proof (take_drop_length letter s'). cbn [List.length]. lia.
Qed.

Lemma findall_word_letters (U : unicode) (s : text) :
  forall skip prev,
    Forall (fun w => w <> [] /\ forallb letter w = true)
           (findall_from U word_pattern skip prev s).
Proof.
  induction s as [|x s IH]; intros skip prev; [constructor|].
  cbn [findall_from]. destruct skip as [|skip]; [|apply IH].
  rewrite match_length_word. destruct (letter x) eqn:Hx; [|apply IH].
  constructor; [|apply IH].
  cbn [firstn]. rewrite firstn_take_while. split; [discriminate|].
  simpl. rewrite Hx. apply take_while_all.
Qed.

(** X15.  Every keyword is a non-empty run of letters of the two alphabets
    of the pattern: no digit, no punctuation, no white space. *)
Theorem keywords_are_letter_runs
    (U : unicode) (text_series : list (option text)) (min_length top_n : Z) :
  Forall (fun w => w <> [] /\ forallb letter w = true) (tokens U text_series) /\
  Forall (fun wc => fst wc <> [] /\ forallb letter (fst wc) = true)
         (extract_keywords U text_series min_length top_n).
Proof.
  assert (Ht : Forall (fun w => w <> [] /\ forallb letter w = true)
                 (tokens U text_series)).
  { unfold tokens, findall. apply findall_word_letters. }
  split; [exact Ht|].
  apply Forall_forall. intros [w n] Hin. cbn [fst].
  unfold extract_keywords, most_common in Hin.
  apply firstn_in in Hin. apply (proj1 (sorted_desc_in _ _)) in Hin.
  pose proof (Counter_counted
                (filter (keep_word min_length) (tokens U text_series))) as Hc.
  assert (Hw : In w (filter (keep_word min_length) (tokens U text_series))).
  { apply (counted_keys _ _ Hc). apply in_map_iff. exists (w, n). auto. }
  apply filter_In in Hw. destruct Hw as [Hw _].
  rewrite Forall_forall in Ht. apply Ht. exact Hw.
Qed.

(** *** The ranking has no word twice *)

Lemma insert_desc_perm (x : text * Z) (l : list (text * Z)) :
  Permutation (insert_desc x l) (x :: l).
Proof.
  induction l as [|y l IH]; simpl; [apply Permutation_refl|].
  destruct (snd y <=? snd x); [apply Permutation_refl|].
  eapply Permutation_trans; [apply perm_skip; exact IH | apply perm_swap].
Qed.

Lemma sorted_desc_perm (l : list (text * Z)) : Permutation (sorted_desc l) l.
Proof.
  induction l as [|x l IH]; simpl; [apply Permutation_refl|].
  eapply Permutation_trans; [apply insert_desc_perm | apply perm_skip; exact IH].
Qed.

Lemma NoDup_firstn {A : Type} (n : nat) (l : list A) :
  NoDup l -> NoDup (firstn n l).
Proof.
  revert l. induction n as [|n IH]; intros [|x l] Hn; simpl; try constructor.
  - inversion Hn as [|? ? Hx _]; subst. intros Hin. apply Hx.
    eapply firstn_in. exact Hin.
  - apply IH. inversion Hn; assumption.
Qed.

Lemma total_count_app (c1 c2 : list (text * Z)) :
  total_count (c1 ++ c2) = total_count c1 + total_count c2.
Proof.
  unfold total_count. induction c1 as [|x c1 IH]; simpl; [reflexivity|].
  rewrite IH. lia.
Qed.

Lemma total_count_perm (c1 c2 : list (text * Z)) :
  Permutation c1 c2 -> total_count c1 = total_count c2.
Proof.
  unfold total_count. induction 1; simpl; lia.
Qed.

Lemma Counter_total (words : list text) :
  total_count (Counter words) = Py.len words.
Proof.
  induction words as [|w words IH] using rev_ind; [reflexivity|].
  rewrite Counter_snoc.
  replace (Py.len (words ++ [w])) with (Py.len words + 1)
    by (unfold Py.len; rewrite length_app; simpl; lia).
  rewrite <- IH.
  destruct (counter_add_cases (Counter words) w)
    as [(l1 & n & l2 & Hc & _ & Hadd)|[_ Hadd]]; rewrite Hadd.
  - rewrite Hc, !total_count_app. unfold total_count. simpl. lia.
  - rewrite total_count_app. unfold total_count. simpl. lia.
Qed.

(** X16.  No word stands twice in the ranked list; and when [top_n] is not
    less than the number of different words, the counts of the list add up
    to the number of tokens that passed the filter. *)
Theorem keywords_are_distinct
    (U : unicode) (text_series : list (option text)) (min_length top_n : Z) :
  NoDup (map fst (extract_keywords U text_series min_length top_n)) /\
  (Py.len (Counter (filter (keep_word min_length) (tokens U text_series))) <= top_n ->
   total_count (extract_keywords U text_series min_length top_n) =
   Py.len (filter (keep_word min_length) (tokens U text_series))).
Proof.
  split.
  - unfold extract_keywords, most_common. rewrite <- firstn_map.
    apply NoDup_firstn.
    pose proof (Counter_counted
                  (filter (keep_word min_length) (tokens U text_series))) as Hc.
    eapply Permutation_NoDup; [|exact (counted_nodup _ _ Hc)].
    apply Permutation_map, Permutation_sym, sorted_desc_perm.
  - intros Hn. unfold extract_keywords, most_common.
    rewrite firstn_all2.
    + rewrite (total_count_perm _ _ (sorted_desc_perm _)). apply Counter_total.
    + rewrite (Permutation_length (sorted_desc_perm _)).
      unfold Py.len in Hn. lia.
Qed.

(** *** The dictionary of the term loop *)

Lemma mentions_set_has (d : list (text * Z)) (t : text) (c : Z) :
  In (t, c) (mentions_set d t c).
Proof.
  induction d as [|[k n] d IH]; simpl; [left; reflexivity|].
  destruct (text_eqb k t) eqn:He.
  - apply text_eqb_eq in He. subst. left. reflexivity.
  - right. exact IH.
Qed.

Lemma mentions_set_keeps (d : list (text * Z)) (t k : text) (c n : Z) :
  k <> t -> In (k, n) d -> In (k, n) (mentions_set d t c).
Proof.
  intros Hne. induction d as [|[k0 n0] d IH]; simpl; [tauto|].
  intros [Heq|Hin].
  - inversion Heq; subst k0 n0. apply text_eqb_neq in Hne. rewrite Hne.
    left. reflexivity.
  - destruct (text_eqb k0 t); right; [exact Hin | apply IH; exact Hin].
Qed.

(** X17.  The dictionary the term loop builds holds exactly the terms of
    the vocabulary that are mentioned at least once, each with its
    count. *)
Theorem term_loop_keeps_mentioned_terms
    (U : unicode) (terms : list text) (all_text term : text) (count : Z) :
  In (term, count) (tech_mentions_of U terms all_text) <->
  In term terms /\ count = count_mentions U term all_text /\ 0 < count.
Proof.
  split.
  - intros Hin. pose proof (tech_mentions_of_spec U terms all_text) as Hspec.
    rewrite Forall_forall in Hspec. exact (Hspec (term, count) Hin).
  - intros (Hin & -> & Hpos). revert Hin. unfold tech_mentions_of.
    induction terms as [|t terms IH] using rev_ind; [intros []|].
    rewrite fold_left_app. cbn [fold_left]. intros Hin.
    apply in_app_or in Hin.
    destruct (text_eqb t term) eqn:He.
    + apply text_eqb_eq in He. subst t.
      replace (count_mentions U term all_text >? 0) with true
        by (symmetry; apply Z.gtb_lt; exact Hpos).
      apply mentions_set_has.
    + apply text_eqb_neq in He.
      destruct Hin as [Hin|[Heq|[]]]; [|congruence].
      specialize (IH Hin).
      destruct (count_mentions U t all_text >? 0); [|exact IH].
      apply mentions_set_keeps; [congruence | exact IH].
Qed.

End AnalyzerMore.

(** * Further properties of the start request and the workers *)

Module WebMore.

Import WebInterface WebSpec.

Lemma nth_error_set_worker (l : list worker) (i j : nat) (w : worker) :
  nth_error (set_worker i w l) j =
  if Nat.eqb i j then
    match nth_error l j with
    | Some _ => Some w
    | None => None
    end
  else nth_error l j.
Proof.
  revert i j. induction l as [|x l IH]; intros i j.
  - destruct i, j; simpl; try reflexivity; destruct (Nat.eqb i j); reflexivity.
  - destruct i as [|i]; destruct j as [|j]; simpl; try reflexivity.
    apply IH.
Qed.

Lemma set_worker_length (l : list worker) (i : nat) (w : worker) :
  List.length (set_worker i w l) = List.length l.
Proof.
  revert i. induction l as [|x l IH]; intros i; destruct i; simpl;
    try reflexivity.
  f_equal. apply IH.
Qed.

(** What every step keeps holds after every sequence of events. *)
Lemma run_invariant (I : system -> Prop) :
  (forall e sys, I sys -> I (snd (step e sys))) ->
  forall events sys, I sys -> I (snd (run events sys)).
Proof.
  intros Hstep. induction events as [|e events IH]; intros sys HI; simpl.
  - exact HI.
  - specialize (Hstep e sys HI). destruct (step e sys) as [r1 sys1].
    specialize (IH sys1 Hstep). destruct (run events sys1) as [r2 sys2].
    exact IH.
Qed.

(** X18.  Whenever the status records a run, some worker has made its
    first update and not yet its last: the status never shows a run when
    none is under way. *)
Theorem status_running_means_worker_in_progress (events : list event) :
  is_running (shared (snd (run events initial_system))) = true ->
  exists i w,
    nth_error (workers (snd (run events initial_system))) i = Some w /\
    in_progress (worker_phase w) = true.
Proof.
  apply (run_invariant
           (fun sys => is_running (shared sys) = true ->
                       exists i w, nth_error (workers sys) i = Some w /\
                                   in_progress (worker_phase w) = true)).
  - intros [req|i ok] sys HI; simpl.
    + unfold start_parsing.
      destruct (is_running (shared sys)) eqn:Hr; simpl;
        [intros _; apply HI; reflexivity|].
      destruct (falsy (access_token req)); simpl; intros H; congruence.
    + destruct (nth_error (workers sys) i) as [wk|] eqn:Hi; [|exact HI].
      destruct (run_parsing_step ok (worker_phase wk) (shared sys))
        as [p st] eqn:Hstep.
      simpl. intros Hrun.
      assert (Hcase : (in_progress p = true) \/
                      (is_running (shared sys) = true /\ p = worker_phase wk /\
                       in_progress p = false)).
      { destruct (worker_phase wk), ok; simpl in Hstep; inversion Hstep; subst;
          simpl in *; auto; try discriminate. }
      destruct Hcase as [Hp|(Hr & Hsame & Hp)].
      * exists i, {| worker_job := worker_job wk; worker_phase := p |}.
        rewrite nth_error_set_worker, Nat.eqb_refl, Hi. split; [reflexivity|].
        exact Hp.
      * destruct (HI Hr) as (j & wj & Hj & Hpj).
        exists j, wj. rewrite nth_error_set_worker.
        destruct (Nat.eqb_spec i j) as [->|Hne]; [|split; assumption].
        rewrite Hi in Hj. inversion Hj; subst wj. congruence.
  - simpl. discriminate.
Qed.

Lemma status_running_means_worker_in_progress_witness :
  is_running
    (shared (snd (run [StartRequest (token_request "t"); WorkerRuns 0 true]
                      initial_system))) = true /\
  exists i w,
    nth_error
      (workers (snd (run [StartRequest (token_request "t"); WorkerRuns 0 true]
                         initial_system))) i = Some w /\
    in_progress (worker_phase w) = true.
Proof.
  split; [reflexivity|].
  apply (status_running_means_worker_in_progress
           [StartRequest (token_request "t"); WorkerRuns 0 true]).
  reflexivity.
Defined.

(** X19.  After every sequence of events the progress shown is one of 0,
    10, 80, 90 and 100. *)
Theorem progress_is_one_of_five (events : list event) :
  In (progress (shared (snd (run events initial_system)))) [0; 10; 80; 90; 100].
Proof.
  apply (run_invariant
           (fun sys => In (progress (shared sys)) [0; 10; 80; 90; 100])).
  - intros [req|i ok] sys HI; simpl.
    + unfold start_parsing. destruct (is_running (shared sys)); simpl;
        [exact HI|]. destruct (falsy (access_token req)); exact HI.
    + destruct (nth_error (workers sys) i) as [wk|]; [|exact HI].
      destruct (run_parsing_step ok (worker_phase wk) (shared sys))
        as [p st] eqn:Hstep.
      simpl. destruct (worker_phase wk), ok; simpl in Hstep; inversion Hstep;
        subst; simpl; tauto.
  - simpl. tauto.
Qed.

(** X20.  Every start request gets one answer, and the worker threads are
    as many as the requests that were accepted: a refused request starts
    nothing and an accepted one starts one thread. *)
Theorem one_worker_per_accepted_request (events : list event) :
  List.length (fst (run events initial_system)) =
    List.length (filter is_start events) /\
  List.length (workers (snd (run events initial_system))) =
    List.length (filter accepted (fst (run events initial_system))).
Proof.
  assert (Hgen : forall sys,
            List.length (fst (run events sys)) =
              List.length (filter is_start events) /\
            List.length (workers (snd (run events sys))) =
              (List.length (workers sys) +
               List.length (filter accepted (fst (run events sys))))%nat).
  { induction events as [|e events IH]; intros sys; simpl.
    - split; [reflexivity | lia].
    - assert (Hstep : List.length (fst (step e sys)) =
                        (if is_start e then 1 else 0)%nat /\
                      List.length (workers (snd (step e sys))) =
                        (List.length (workers sys) +
                         List.length (filter accepted (fst (step e sys))))%nat).
      { destruct e as [req|i ok]; simpl.
        - unfold start_parsing. destruct (is_running (shared sys)); simpl;
            [split; [reflexivity | lia]|].
          destruct (falsy (access_token req)); simpl;
            [split; [reflexivity | lia]|].
          rewrite length_app. simpl. split; [reflexivity | lia].
        - destruct (nth_error (workers sys) i) as [wk|]; simpl;
            [|split; [reflexivity | lia]].
          destruct (run_parsing_step ok (worker_phase wk) (shared sys)).
          simpl. rewrite set_worker_length. split; [reflexivity | lia]. }
      destruct (step e sys) as [r1 sys1]. simpl in Hstep.
      destruct Hstep as [Hr1 Hw1]. specialize (IH sys1).
      destruct (run events sys1) as [r2 sys2]. simpl in *.
      destruct IH as [Hr2 Hw2]. rewrite length_app, filter_app, length_app.
      split.
      + rewrite Hr1, Hr2. destruct (is_start e); simpl; lia.
      + lia. }
  destruct (Hgen initial_system) as [H1 H2]. split; [exact H1|].
  rewrite H2. reflexivity.
Qed.

(** *** One run at a time, when no request meets a worker just started *)

Lemma filter_active_none (l : list worker) :
  (forall j w, nth_error l j = Some w -> worker_phase w = Finished) ->
  filter active l = [].
Proof.
  induction l as [|x l IH]; intros H; simpl; [reflexivity|].
  unfold active at 1. rewrite (H 0%nat x eq_refl).
  apply IH. intros j w Hj. exact (H (S j) w Hj).
Qed.

Lemma filter_active_one (l : list worker) :
  forall i,
  (forall j w, j <> i -> nth_error l j = Some w -> worker_phase w = Finished) ->
  (List.length (filter active l) <= 1)%nat.
Proof.
  induction l as [|x l IH]; intros i H; simpl; [lia|].
  destruct i as [|i].
  - rewrite (filter_active_none l).
    + destruct (active x); simpl; lia.
    + intros j w Hj. apply (H (S j) w); [discriminate | exact Hj].
  - unfold active at 1. rewrite (H 0%nat x); [|discriminate|reflexivity].
    apply (IH i). intros j w Hne Hj. apply (H (S j) w); [lia | exact Hj].
Qed.

Lemma none_spawned_phase (sys : system) (i : nat) (w : worker) :
  none_spawned sys = true ->
  nth_error (workers sys) i = Some w ->
  worker_phase w <> Spawned.
Proof.
  unfold none_spawned. intros Hall Hi Hp.
  rewrite forallb_forall in Hall.
  specialize (Hall w (nth_error_In _ _ Hi)).
  unfold spawned in Hall. rewrite Hp in Hall. discriminate.
Qed.

Lemma step_keeps_one_run (e : event) (sys : system) :
  (is_start e = true -> none_spawned sys = true) ->
  idle sys \/ busy sys ->
  idle (snd (step e sys)) \/ busy (snd (step e sys)).
Proof.
  intros Hprompt HJ. destruct e as [req|k ok]; simpl.
  - unfold start_parsing.
    destruct (is_running (shared sys)) eqn:Hr; simpl; [exact HJ|].
    destruct (falsy (access_token req)); simpl; [exact HJ|].
    right. destruct HJ as [[Hall _]|(i & wi & Hi & Hact & _ & Hrun)].
    + eexists (List.length (workers sys)), _. simpl.
      rewrite nth_error_app2, Nat.sub_diag by lia. simpl.
      split; [reflexivity|]. split; [reflexivity|]. split; [|discriminate].
      intros j w Hne Hj.
      destruct (Nat.lt_ge_cases j (List.length (workers sys))) as [Hlt|Hge].
      * rewrite nth_error_app1 in Hj by exact Hlt. exact (Hall j w Hj).
      * rewrite nth_error_app2 in Hj by exact Hge.
        destruct (j - List.length (workers sys))%nat as [|[|m]] eqn:Hd;
          simpl in Hj; try discriminate. lia.
    + pose proof (none_spawned_phase sys i wi (Hprompt eq_refl) Hi) as Hns.
      assert (Hin : in_progress (worker_phase wi) = true).
      { unfold active in Hact. destruct (worker_phase wi); try reflexivity;
          [congruence | discriminate]. }
      rewrite (Hrun Hin) in Hr. discriminate.
  - destruct (nth_error (workers sys) k) as [wk|] eqn:Hk; [|exact HJ].
    destruct (run_parsing_step ok (worker_phase wk) (shared sys))
      as [p st] eqn:Hstep. simpl.
    destruct HJ as [[Hall Hr]|(i & wi & Hi & Hact & Hothers & Hrun)].
    + left. pose proof (Hall k wk Hk) as Hfin. rewrite Hfin in Hstep.
      simpl in Hstep. inversion Hstep; subst p st. split; [|exact Hr].
      simpl. intros j w Hj. rewrite nth_error_set_worker in Hj.
      destruct (Nat.eqb k j).
      * destruct (nth_error (workers sys) j); inversion Hj; reflexivity.
      * exact (Hall j w Hj).
    + destruct (Nat.eq_dec k i) as [->|Hne].
      * rewrite Hi in Hk. inversion Hk; subst wk.
        destruct p eqn:Hp.
        6:{ left. split.
            - simpl. intros j w Hj. rewrite nth_error_set_worker in Hj.
              destruct (Nat.eqb_spec i j) as [->|Hij].
              + rewrite Hi in Hj. inversion Hj; reflexivity.
              + apply (Hothers j w); [congruence | exact Hj].
            - simpl. unfold active in Hact.
              destruct (worker_phase wi), ok; simpl in Hstep;
                inversion Hstep; subst; try reflexivity; discriminate. }
        all: right; exists i, {| worker_job := worker_job wi; worker_phase := p |};
          subst p; simpl; rewrite nth_error_set_worker, Nat.eqb_refl, Hi;
          (split; [reflexivity|]); (split; [reflexivity|]);
          (split;
           [intros j w Hij Hj; rewrite nth_error_set_worker in Hj;
            destruct (Nat.eqb_spec i j) as [->|_]; [congruence|];
            exact (Hothers j w Hij Hj)
           |intros Hin;
            destruct (worker_phase wi), ok; simpl in Hstep; inversion Hstep;
            subst; simpl in *; try reflexivity; try discriminate;
            apply Hrun; reflexivity]).
      * pose proof (Hothers k wk Hne Hk) as Hfin. rewrite Hfin in Hstep.
        simpl in Hstep. inversion Hstep; subst p st.
        right. exists i, wi. simpl. rewrite nth_error_set_worker.
        destruct (Nat.eqb_spec k i) as [Heq|_]; [contradiction|].
        split; [exact Hi|]. split; [exact Hact|]. split; [|exact Hrun].
        intros j w Hij Hj. rewrite nth_error_set_worker in Hj.
        destruct (Nat.eqb k j).
        -- destruct (nth_error (workers sys) j); inversion Hj; reflexivity.
        -- exact (Hothers j w Hij Hj).
Qed.

(** X21.  When every start request is handled only after the workers
    started before it have made their first update of the status, at most
    one run is active at any time. *)
Theorem prompt_requests_keep_one_run (events : list event) :
  prompt events initial_system = true ->
  (active_runs (snd (run events initial_system)) <= 1)%nat.
Proof.
  assert (Hgen : forall sys,
            prompt events sys = true -> idle sys \/ busy sys ->
            idle (snd (run events sys)) \/ busy (snd (run events sys))).
  { induction events as [|e events IH]; intros sys Hp HJ; simpl.
    - exact HJ.
    - simpl in Hp. apply andb_true_iff in Hp. destruct Hp as [He Hrest].
      assert (Hstep : idle (snd (step e sys)) \/ busy (snd (step e sys))).
      { apply step_keeps_one_run; [|exact HJ]. intros Hs.
        rewrite Hs in He. exact He. }
      destruct (step e sys) as [r1 sys1]. simpl in Hstep, Hrest.
      specialize (IH sys1 Hrest Hstep).
      destruct (run events sys1) as [r2 sys2]. exact IH. }
  intros Hp.
  assert (H0 : idle initial_system \/ busy initial_system).
  { left. split; [|reflexivity]. intros [|j] w Hj; discriminate. }
  unfold active_runs.
  destruct (Hgen initial_system Hp H0)
    as [[Hall _]|(i & wi & _ & _ & Hothers & _)].
  - rewrite (filter_active_none _ Hall). simpl. lia.
  - exact (filter_active_one _ i Hothers).
Qed.

Lemma prompt_requests_keep_one_run_witness :
  prompt [StartRequest (token_request "t"); WorkerRuns 0 true;
          StartRequest (token_request "t"); WorkerRuns 0 true;
          WorkerRuns 0 true; WorkerRuns 0 true; WorkerRuns 0 true;
          StartRequest (token_request "t")] initial_system = true /\
  (active_runs
     (snd (run [StartRequest (token_request "t"); WorkerRuns 0 true;
                StartRequest (token_request "t"); WorkerRuns 0 true;
                WorkerRuns 0 true; WorkerRuns 0 true; WorkerRuns 0 true;
                StartRequest (token_request "t")] initial_system)) <= 1)%nat.
Proof.
  split; [reflexivity|].
  apply (prompt_requests_keep_one_run
           [StartRequest (token_request "t"); WorkerRuns 0 true;
            StartRequest (token_request "t"); WorkerRuns 0 true;
            WorkerRuns 0 true; WorkerRuns 0 true; WorkerRuns 0 true;
            StartRequest (token_request "t")]).
  reflexivity.
Defined.

End WebMore.
